(** * Graph analytics agent: routing, argument synthesis and summaries

    A shallow embedding of [src/ai/agent/graph_analytics_agent.py].

    Modelling conventions.
    - A Python [str] is a [string]: a sequence of 8-bit characters.  The
      text functions below ([lower], [split], [strip], ...) follow CPython
      on ASCII text; a non-ASCII character is a sequence of bytes above
      127, which none of the character classes of the source mentions.
    - Values of type [Any] are JSON-like values ([pyval]).
    - The dictionaries that [run] builds and merges are objects of a heap,
      referred to by location, so that aliasing and mutation are visible.
    - The collaborators behind [await] (the LLM tool selector, the MCP
      client) are given by a [World]; each call to them is recorded as an
      event.  An exception is an instance of Python's [Exception]. *)

From Stdlib Require Import ZArith Ascii String List Bool Lia DecimalString.
From stdpp Require Import base option list gmap strings.

Set Warnings "-register-all".

Local Open Scope Z_scope.
Local Open Scope stdpp_scope.

(** ** Python strings *)

Module PyStr.

Definition code (c : ascii) : N := N_of_ascii c.

Definition in_range (lo hi : N) (c : ascii) : bool :=
  ((lo <=? code c) && (code c <=? hi))%N.

Definition is_upper (c : ascii) : bool := in_range 65 90 c.
Definition is_lower (c : ascii) : bool := in_range 97 122 c.
Definition is_digit (c : ascii) : bool := in_range 48 57 c.

(** [str.isspace] on one ASCII character: TAB, LF, VT, FF, CR, the
    separators FS, GS, RS, US and the space. *)
Definition is_space (c : ascii) : bool :=
  in_range 9 13 c || in_range 28 32 c.

Definition lower_char (c : ascii) : ascii :=
  if is_upper c then ascii_of_N (code c + 32) else c.

(** [s.lower()] *)
Fixpoint lower (s : string) : string :=
  match s with
  | EmptyString => EmptyString
  | String c r => String (lower_char c) (lower r)
  end.

(** [s.startswith(p)] *)
Fixpoint startswith (p s : string) : bool :=
  match p, s with
  | EmptyString, _ => true
  | String _ _, EmptyString => false
  | String a p', String b s' => Ascii.eqb a b && startswith p' s'
  end.

(** [p in s] *)
Fixpoint contains (p s : string) : bool :=
  startswith p s ||
  match s with
  | EmptyString => false
  | String _ s' => contains p s'
  end.

(** [c in chars] for a single character *)
Fixpoint mem_char (c : ascii) (chars : string) : bool :=
  match chars with
  | EmptyString => false
  | String a r => Ascii.eqb c a || mem_char c r
  end.

(** Longest prefix whose characters satisfy [p], and the rest. *)
Fixpoint span (p : ascii -> bool) (s : string) : string * string :=
  match s with
  | EmptyString => (EmptyString, EmptyString)
  | String c r =>
      if p c then let '(a, b) := span p r in (String c a, b)
      else (EmptyString, s)
  end.

Fixpoint lstrip (p : ascii -> bool) (s : string) : string :=
  match s with
  | EmptyString => EmptyString
  | String c r => if p c then lstrip p r else s
  end.

(** Drops the trailing characters that satisfy [p]. *)
Fixpoint rstrip (p : ascii -> bool) (s : string) : string :=
  match s with
  | EmptyString => EmptyString
  | String c r =>
      match rstrip p r with
      | EmptyString => if p c then EmptyString else String c EmptyString
      | r' => String c r'
      end
  end.

(** [s.strip(chars)] *)
Definition strip_chars (chars s : string) : string :=
  rstrip (fun c => mem_char c chars) (lstrip (fun c => mem_char c chars) s).

(** [s.strip()] *)
Definition strip (s : string) : string := rstrip is_space (lstrip is_space s).

(** [s.split(sep)] for a separator of one character. *)
Fixpoint split_on (sep : ascii) (s : string) : list string :=
  match s with
  | EmptyString => [EmptyString]
  | String c r =>
      if Ascii.eqb c sep then EmptyString :: split_on sep r
      else match split_on sep r with
           | [] => [String c EmptyString]
           | w :: ws => String c w :: ws
           end
  end.

(** [s.split()]: the maximal runs of non-blank characters. *)
Fixpoint split_go (cur : string) (s : string) : list string :=
  match s with
  | EmptyString =>
      match cur with EmptyString => [] | _ => [cur] end
  | String c r =>
      if is_space c then
        match cur with
        | EmptyString => split_go EmptyString r
        | _ => cur :: split_go EmptyString r
        end
      else split_go (cur +:+ String c EmptyString) r
  end.

Definition split (s : string) : list string := split_go EmptyString s.

(** [sep.join(l)] *)
Fixpoint join (sep : string) (l : list string) : string :=
  match l with
  | [] => EmptyString
  | [x] => x
  | x :: r => x +:+ sep +:+ join sep r
  end.

Definition is_empty (s : string) : bool :=
  match s with EmptyString => true | _ => false end.

(** [sorted(set(l))]: the distinct strings of [l] in increasing order of
    their characters' codes. *)
Fixpoint insert_sorted (x : string) (l : list string) : list string :=
  match l with
  | [] => [x]
  | y :: r =>
      match String.compare x y with
      | Lt => x :: l
      | Eq => l
      | Gt => y :: insert_sorted x r
      end
  end.

Definition sorted_set (l : list string) : list string :=
  foldr insert_sorted [] l.

(** The double quote character. *)
Definition dquote : ascii := "034"%char.

(** [s] between double quotes. *)
Definition quoted (s : string) : string := String dquote (s +:+ String dquote "").

(** [str(n)] for an integer, in decimal. *)
Definition str_of_int (n : Z) : string := NilZero.string_of_int (Z.to_int n).

(** [str(len(l))] *)
Definition str_of_len (n : nat) : string := NilZero.string_of_uint (Nat.to_uint n).

End PyStr.

(** ** Values, exceptions and results *)

(** A value of type [Any] as it travels through the agent: what a JSON
    decoder produces.  A [float] is carried by its [repr]; a [dict] with
    string keys keeps its insertion order. *)
Inductive pyval : Type :=
| PNone
| PBool (b : bool)
| PInt (n : Z)
| PFloat (repr : string)
| PStr (s : string)
| PList (l : list pyval)
| PDict (d : list (string * pyval)).

(** One content item of a tool result: [Dict[str, Any]]. *)
Abbreviation pyitem := (list (string * pyval)).

(** [d.get(k)] / [k in d] on an insertion-ordered dictionary. *)
Fixpoint od_get {V : Type} (k : string) (d : list (string * V)) : option V :=
  match d with
  | [] => None
  | (k', v) :: r => if String.eqb k k' then Some v else od_get k r
  end.

(** [d[k] = v]: replaces the value in place, or appends a new entry. *)
Fixpoint od_set {V : Type} (k : string) (v : V) (d : list (string * V))
  : list (string * V) :=
  match d with
  | [] => [(k, v)]
  | (k', v') :: r =>
      if String.eqb k k' then (k, v) :: r else (k', v') :: od_set k v r
  end.

Definition od_values {V : Type} (d : list (string * V)) : list V := map snd d.
Definition od_keys {V : Type} (d : list (string * V)) : list string := map fst d.

Inductive exn : Type :=
| GraphAnalyticsAgentError (msg : string) (cause : option exn)
| ValueError (msg : string)
| AttributeError (msg : string)
| Exception (msg : string).

(** [str(exc)] *)
Definition exn_str (e : exn) : string :=
  match e with
  | GraphAnalyticsAgentError m _ | ValueError m | AttributeError m
  | Exception m => m
  end.

Inductive result (A : Type) : Type :=
| Ok (a : A)
| Raise (e : exn).
Arguments Ok {A} a.
Arguments Raise {A} e.

(** [try: m except Exception: h] *)
Definition try_except {A : Type} (m : result A) (h : exn -> result A) : result A :=
  match m with
  | Ok a => Ok a
  | Raise e => h e
  end.

Definition rbind {A B : Type} (m : result A) (k : A -> result B) : result B :=
  match m with
  | Ok a => k a
  | Raise e => Raise e
  end.

Fixpoint rmap {A B : Type} (f : A -> result B) (l : list A) : result (list B) :=
  match l with
  | [] => Ok []
  | x :: r => rbind (f x) (fun y => rbind (rmap f r) (fun ys => Ok (y :: ys)))
  end.

(** ** Rendering values: [json.dumps], [str] and [repr] *)

Module Render.
Import PyStr.

Definition hex_digit (n : N) : ascii :=
  if (n <? 10)%N then ascii_of_N (48 + n) else ascii_of_N (87 + n).

Definition hex2 (c : ascii) : string :=
  String (hex_digit (code c / 16)) (String (hex_digit (code c mod 16)) EmptyString).

(** One character inside a JSON string, [ensure_ascii=False]. *)
Definition json_char (c : ascii) : string :=
  if Ascii.eqb c dquote then String "\" (String dquote "")
  else if Ascii.eqb c "\" then "\\"
  else if Ascii.eqb c "010" then "\n"
  else if Ascii.eqb c "013" then "\r"
  else if Ascii.eqb c "009" then "\t"
  else if Ascii.eqb c "008" then "\b"
  else if Ascii.eqb c "012" then "\f"
  else if (code c <? 32)%N then "\u00" +:+ hex2 c
  else String c EmptyString.

Fixpoint json_chars (s : string) : string :=
  match s with
  | EmptyString => EmptyString
  | String c r => json_char c +:+ json_chars r
  end.

Definition json_str (s : string) : string := quoted (json_chars s).

Definition json_float (r : string) : string :=
  if String.eqb r "nan" then "NaN"
  else if String.eqb r "inf" then "Infinity"
  else if String.eqb r "-inf" then "-Infinity"
  else r.

(** [json.dumps(v, ensure_ascii=False)] *)
Fixpoint json_dumps (v : pyval) : string :=
  match v with
  | PNone => "null"
  | PBool true => "true"
  | PBool false => "false"
  | PInt n => str_of_int n
  | PFloat r => json_float r
  | PStr s => json_str s
  | PList l => "[" +:+ join ", " (List.map json_dumps l) +:+ "]"
  | PDict d =>
      "{" +:+ join ", "
        (List.map (fun kv => json_str (fst kv) +:+ ": " +:+ json_dumps (snd kv)) d)
      +:+ "}"
  end.

(** One character inside [repr] of a string quoted with [q]. *)
Definition repr_char (q c : ascii) : string :=
  if Ascii.eqb c "\" then "\\"
  else if Ascii.eqb c q then String "\" (String q EmptyString)
  else if Ascii.eqb c "009" then "\t"
  else if Ascii.eqb c "010" then "\n"
  else if Ascii.eqb c "013" then "\r"
  else if ((code c <? 32) || (code c =? 127))%N then "\x" +:+ hex2 c
  else String c EmptyString.

Fixpoint repr_chars (q : ascii) (s : string) : string :=
  match s with
  | EmptyString => EmptyString
  | String c r => repr_char q c +:+ repr_chars q r
  end.

Definition repr_str (s : string) : string :=
  let q := if mem_char "'" s && negb (mem_char dquote s) then dquote else "'"%char in
  String q (repr_chars q s +:+ String q EmptyString).

(** [repr(v)] *)
Fixpoint py_repr (v : pyval) : string :=
  match v with
  | PNone => "None"
  | PBool true => "True"
  | PBool false => "False"
  | PInt n => str_of_int n
  | PFloat r => r
  | PStr s => repr_str s
  | PList l => "[" +:+ join ", " (List.map py_repr l) +:+ "]"
  | PDict d =>
      "{" +:+ join ", "
        (List.map (fun kv => repr_str (fst kv) +:+ ": " +:+ py_repr (snd kv)) d)
      +:+ "}"
  end.

(** [str(v)], which is what an f-string field [{v}] inserts. *)
Definition py_str (v : pyval) : string :=
  match v with
  | PStr s => s
  | _ => py_repr v
  end.

(** Truth value of [v] in a condition. *)
Definition truthy (v : pyval) : bool :=
  match v with
  | PNone => false
  | PBool b => b
  | PInt n => negb (n =? 0)
  | PFloat r => negb (String.eqb r "0.0" || String.eqb r "-0.0")
  | PStr s => negb (is_empty s)
  | PList l => match l with [] => false | _ => true end
  | PDict d => match d with [] => false | _ => true end
  end.

(** [a or b] *)
Definition py_or (a b : pyval) : pyval := if truthy a then a else b.

(** [type(v).__name__] *)
Definition type_name (v : pyval) : string :=
  match v with
  | PNone => "NoneType"
  | PBool _ => "bool"
  | PInt _ => "int"
  | PFloat _ => "float"
  | PStr _ => "str"
  | PList _ => "list"
  | PDict _ => "dict"
  end.

End Render.

(** ** The heap of dictionaries, events and the agent's monad *)

Abbreviation loc := positive.

(** What the agent asks of its collaborators, in the order it asks. *)
Inductive event : Type :=
| EvSelectTool (question : string)
| EvInferTool (question : string)
| EvCreateClient
| EvCallTool (tool : string) (args : gmap string pyval).

(** [heap]: the argument dictionaries, by location.  [client]: whether
    [self._client] is set. *)
Record state : Type := mkState {
  heap : gmap loc (gmap string pyval);
  client : bool
}.

Record outcome (A : Type) : Type := mkOutcome {
  res : result A;
  st : state;
  evs : list event
}.
Arguments mkOutcome {A} res st evs.
Arguments res {A} o.
Arguments st {A} o.
Arguments evs {A} o.

Definition M (A : Type) : Type := state -> outcome A.

Definition ret {A : Type} (a : A) : M A := fun s => mkOutcome (Ok a) s [].

Definition bind {A B : Type} (m : M A) (k : A -> M B) : M B := fun s =>
  let o := m s in
  match res o with
  | Ok a => let o' := k a (st o) in mkOutcome (res o') (st o') (evs o ++ evs o')
  | Raise e => mkOutcome (Raise e) (st o) (evs o)
  end.

Notation "'let*' x ':=' m 'in' k" := (bind m (fun x => k))
  (at level 10, x name, m at level 100, k at level 200).
Notation "m '>>' k" := (bind m (fun _ => k))
  (at level 100, k at level 200, right associativity).

Definition raise {A : Type} (e : exn) : M A := fun s => mkOutcome (Raise e) s [].

Definition emit (e : event) : M unit := fun s => mkOutcome (Ok tt) s [e].

Definition lift {A : Type} (r : result A) : M A := fun s => mkOutcome r s [].

(** The dictionary stored at [l]. *)
Definition deref (s : state) (l : loc) : gmap string pyval :=
  default ∅ (heap s !! l).

Definition read (l : loc) : M (gmap string pyval) :=
  fun s => mkOutcome (Ok (deref s l)) s [].

Definition write (l : loc) (d : gmap string pyval) : M unit :=
  fun s => mkOutcome (Ok tt) (mkState (<[l := d]> (heap s)) (client s)) [].

(** A new dictionary object holding [d]. *)
Definition alloc (d : gmap string pyval) : M loc :=
  fun s => let l := fresh (dom (heap s)) in
           mkOutcome (Ok l) (mkState (<[l := d]> (heap s)) (client s)) [].

(** [pass] *)
Definition skip : M unit := ret tt.

(** [dict(src)] *)
Definition dict_copy (src : loc) : M loc := let* d := read src in alloc d.

(** [k in d] *)
Definition dict_contains (l : loc) (k : string) : M bool :=
  let* d := read l in ret (bool_decide (k ∈ dom d)).

(** [d[k] = v] *)
Definition dict_setitem (l : loc) (k : string) (v : pyval) : M unit :=
  let* d := read l in write l (<[k := v]> d).

(** [d.setdefault(k, v)] *)
Definition dict_setdefault (l : loc) (k : string) (v : pyval) : M unit :=
  let* b := dict_contains l k in if b then skip else dict_setitem l k v.

(** [d.update(src)]: the entries of [src] replace those of [d]. *)
Definition dict_update (l src : loc) : M unit :=
  let* new := read src in let* d := read l in write l (new ∪ d).

(** Truth value of a dictionary: it has an entry. *)
Definition dict_bool (l : loc) : M bool :=
  let* d := read l in ret (negb (bool_decide (dom d = ∅))).

(** [if src: d.update(src)], where [src] may be [None]. *)
Definition update_if_truthy (l : loc) (src : option loc) : M unit :=
  match src with
  | None => skip
  | Some o =>
      let* nonempty := dict_bool o in
      if nonempty then dict_update l o else skip
  end.

(** ** Tool configurations and results *)

Record ToolConfig : Type := mkToolConfig {
  name : string;
  description : string;
  keywords : list string;
  defaults : loc;
  summary_builder : option (list pyitem -> result pyval)
}.

Record GraphAnalyticsResult : Type := mkResult {
  tool_name : string;
  inputs : loc;
  raw_result : list pyitem;
  summary : pyval
}.

Record GraphAnalyticsAgent : Type := mkAgent {
  _default_identifier_property : string;
  _allowed_tool_names : gset string;
  _use_llm_selector : bool;
  _tool_configs : list (string * ToolConfig)
}.

(** What [_select_tool_with_llm] hands back when it is not [None]:
    the entries ["tool"] and ["inputs"] of its dictionary. *)
Record Selection : Type := mkSelection {
  sel_tool : option string;
  sel_inputs : option loc
}.

(** The collaborators of one agent.  [select_tool_with_llm q] is the value
    of [await self._select_tool_with_llm(q)]; [create_client] is [Some e]
    when [create_client()] raises [e]; [call_tool t args] is the outcome
    of [await client.call_tool(t, args)].  Of the selector only the value
    it hands back is kept: what it does on its way, fetching the metadata
    of the tools through the client, is not part of this record, and the
    statements on the creation of the client are made for the calls that
    do not consult the selector. *)
Record World : Type := mkWorld {
  select_tool_with_llm : string -> option Selection;
  create_client : option exn;
  call_tool : string -> gmap string pyval -> result (list pyitem)
}.

(** ** Result summarizers *)

Module Summarizers.
Import PyStr Render.

(** [row.get(k, dflt)] on a value that has to be a dictionary. *)
Definition val_get (row : pyval) (k : string) (dflt : pyval) : result pyval :=
  match row with
  | PDict d => Ok (default dflt (od_get k d))
  | _ => Raise (AttributeError
                  ("'" +:+ type_name row +:+ "' object has no attribute 'get'"))
  end.

Definition ranking_row (row : pyval) : result string :=
  rbind (val_get row "nodeName" PNone) (fun node_name =>
  rbind (if truthy node_name then Ok node_name
         else val_get row "name" (PStr "Unknown")) (fun who =>
  rbind (val_get row "score" PNone) (fun score =>
  rbind (if truthy score then Ok score
         else val_get row "articleRank" PNone) (fun shown =>
  Ok (py_str who +:+ " (score=" +:+ py_str shown +:+ ")"))))).

Definition _summarize_rankings (content : list pyitem) : result pyval :=
  match content with
  | [] => Ok (PStr "No influential nodes found.")
  | first :: _ =>
      let rows := default (PList (List.map PDict content)) (od_get "json" first) in
      match rows with
      | PList l =>
          rbind (rmap ranking_row (take 5 l)) (fun formatted =>
          Ok (PStr ("Top ranked nodes: " +:+ join ", " formatted)))
      | _ =>
          let text := default PNone (od_get "text" first) in
          Ok (py_or text (PStr "Influence ranking computed."))
      end
  end.

Definition _summarize_leiden (content : list pyitem) : result pyval :=
  match content with
  | [] => Ok (PStr "No communities detected.")
  | payload :: _ =>
      match od_get "json" payload with
      | Some (PDict data) =>
          Ok (PStr ("Detected "
                    +:+ py_str (default (PStr "multiple") (od_get "communityCount" data))
                    +:+ " communities. Largest size: "
                    +:+ py_str (default PNone (od_get "largestCommunitySize" data))
                    +:+ ", modularity: "
                    +:+ py_str (default PNone (od_get "modularity" data))))
      | _ => Ok (default (PStr "Leiden algorithm completed.") (od_get "text" payload))
      end
  end.

Definition bridge_row (row : pyval) : result string :=
  rbind (val_get row "source" PNone) (fun source =>
  rbind (val_get row "target" PNone) (fun target =>
  Ok (py_str source +:+ "â†’" +:+ py_str target))).

Definition _summarize_bridges (content : list pyitem) : result pyval :=
  match content with
  | [] => Ok (PStr "No bridge edges found.")
  | payload :: _ =>
      match od_get "json" payload with
      | Some (PList bridges) =>
          rbind (rmap bridge_row (take 5 bridges)) (fun examples =>
          Ok (PStr ("Found " +:+ str_of_len (length bridges)
                    +:+ " bridge edges. Examples: " +:+ join ", " examples)))
      | _ => Ok (default (PStr "Bridge detection completed.") (od_get "text" payload))
      end
  end.

Definition _summarize_text_result (content : list pyitem) : result pyval :=
  match content with
  | [] => Ok (PStr "No data returned.")
  | first :: _ =>
      match od_get "text" first with
      | Some text => Ok text
      | None => Ok (PStr (json_dumps (PDict first)))
      end
  end.

End Summarizers.

(** ** The agent *)

Import PyStr.

Definition nl : ascii := "010"%char.

(** The character class [[A-Za-z0-9_ -]]. *)
Definition is_geo_char (c : ascii) : bool :=
  is_upper c || is_lower c || is_digit c
  || Ascii.eqb c "_" || Ascii.eqb c " " || Ascii.eqb c "-".

(** The pattern [in ([A-Z][A-Za-z0-9_ -]+)] tried at the start of [s]:
    the text of group 1 when it matches.  The class is followed by
    nothing, so the greedy [+] takes the whole run of class characters. *)
Definition geo_match (s : string) : option string :=
  match s with
  | String i (String n (String sp (String c r))) =>
      let run := fst (span is_geo_char r) in
      if Ascii.eqb i "i" && Ascii.eqb n "n" && Ascii.eqb sp " "
         && is_upper c && negb (is_empty run)
      then Some (String c run) else None
  | _ => None
  end.

(** [re.findall] for that pattern: the matches from left to right, each
    search resuming where the previous match ended.  [skip] counts the
    characters still covered by the last match. *)
Fixpoint findall_go (skip : nat) (s : string) : list string :=
  match s with
  | EmptyString => []
  | String _ r =>
      match skip with
      | S k => findall_go k r
      | O =>
          match geo_match s with
          | Some g => g :: findall_go (2 + String.length g) r
          | None => findall_go 0 r
          end
      end
  end.

Definition findall_geo (question : string) : list string := findall_go 0 question.

Definition _extract_geo_filters (question : string) : list string :=
  let matches := findall_geo question in
  let cleaned := List.map (strip_chars " ,.") matches in
  cleaned.

(** The loop over the words of the question, for one keyword. *)
Fixpoint word_loop (kw_lower : string) (words : list string) : bool :=
  match words with
  | [] => false
  | word :: rest =>
      if contains kw_lower word || startswith kw_lower word then true
      else word_loop kw_lower rest
  end.

(** The loop over the keywords of one configuration: [true] when the
    loop body returns. *)
Fixpoint keyword_loop (normalized : string) (kws : list string) : bool :=
  match kws with
  | [] => false
  | kw :: rest =>
      let kw_lower := lower kw in
      if contains kw_lower normalized then true
      else if word_loop kw_lower (split normalized) then true
      else keyword_loop normalized rest
  end.

Fixpoint config_loop (normalized : string) (configs : list ToolConfig)
  : option string :=
  match configs with
  | [] => None
  | config :: rest =>
      if keyword_loop normalized (keywords config) then Some (name config)
      else config_loop normalized rest
  end.

Definition _infer_tool (self : GraphAnalyticsAgent) (question : string)
  : option string :=
  let normalized := lower question in
  config_loop normalized (od_values (_tool_configs self)).

Definition _prepare_inputs (self : GraphAnalyticsAgent) (config : ToolConfig)
    (question : string) (overrides : option loc) : M loc :=
  let* inputs := dict_copy (defaults config) in
  let* has_id := dict_contains inputs "nodeIdentifierProperty" in
  (if has_id then skip
   else dict_setitem inputs "nodeIdentifierProperty"
          (PStr (_default_identifier_property self))) >>
  let geos := _extract_geo_filters question in
  (match geos with
   | [] => skip
   | _ =>
       dict_setdefault inputs "nodeLabels" (PList [PStr "Area"; PStr "Municipality"]) >>
       dict_setdefault inputs "filterNames" (PList (List.map PStr geos))
   end) >>
  update_if_truthy inputs overrides >>
  ret inputs.

Definition _build_summary (config : ToolConfig) (content : list pyitem)
    (question : string) : result pyval :=
  let generic :=
    match content with
    | [] => Ok (PStr ("Tool '" +:+ name config +:+ "' returned no results."))
    | first :: others =>
        match others, od_get "text" first with
        | [], Some text => Ok text
        | _, _ =>
            let snippet := Render.json_dumps (PList (List.map PDict (take 1 content))) in
            Ok (PStr ("Tool '" +:+ name config +:+ "' returned "
                      +:+ str_of_len (length content) +:+ " rows. "
                      +:+ "First entry: " +:+ snippet))
        end
    end in
  match summary_builder config with
  | Some builder => try_except (builder content) (fun _ => generic)
  | None => generic
  end.

(** The four built-in configurations, given the dictionaries of their
    default arguments. *)
Definition default_configs (d1 d2 d3 d4 : loc) : list ToolConfig :=
  [ mkToolConfig "article_rank"
      "Ranks nodes by influence using ArticleRank (PageRank variant)."
      ["influencer"; "important"; "central"; "rank"; "pagerank"]
      d1 (Some Summarizers._summarize_rankings);
    mkToolConfig "leiden"
      "Community detection using the Leiden algorithm."
      ["community"; "cluster"; "group"; "modularity"]
      d2 (Some Summarizers._summarize_leiden);
    mkToolConfig "bridges"
      "Detects bridge edges connecting graph components."
      ["bridge"; "bottleneck"; "critical connection"; "cut edge"]
      d3 (Some Summarizers._summarize_bridges);
    mkToolConfig "count_nodes"
      "Counts nodes per label."
      ["count nodes"; "size"; "how many nodes"; "dataset size"]
      d4 (Some Summarizers._summarize_text_result) ].

Definition _build_default_configs : M (list ToolConfig) :=
  let* d1 := alloc {[ "maxIterations" := PInt 20; "tolerance" := PFloat "0.0001" ]} in
  let* d2 := alloc {[ "minCommunitySize" := PInt 5; "tolerance" := PFloat "0.0001" ]} in
  let* d3 := alloc ∅ in
  let* d4 := alloc ∅ in
  ret (default_configs d1 d2 d3 d4).

(** [{config.name: config for config in configs}] *)
Definition registry_of (configs : list ToolConfig) : list (string * ToolConfig) :=
  fold_left (fun d config => od_set (name config) config d) configs [].

Definition __init__ (tool_configs : option (list ToolConfig))
    (default_identifier_property : string)
    (allowed_tool_names : option (list string))
    (use_llm_selector : bool) : M GraphAnalyticsAgent :=
  let allowed : gset string := list_to_set (default [] allowed_tool_names) in
  (fun s => mkOutcome (Ok tt) (mkState (heap s) false) []) >>
  let* configs :=
    match tool_configs with
    | Some l => ret l
    | None => _build_default_configs
    end in
  let configs :=
    if bool_decide (allowed = ∅) then configs
    else List.filter (fun cfg => bool_decide (name cfg ∈ allowed)) configs in
  let tool_configs := registry_of configs in
  match tool_configs with
  | [] => raise (ValueError "No graph analytics tools configured or allowed.")
  | _ => ret (mkAgent default_identifier_property allowed use_llm_selector tool_configs)
  end.

Definition _get_client (w : World) : M unit :=
  fun s =>
    if client s then ret tt s
    else (emit EvCreateClient >>
          match create_client w with
          | Some e => raise e
          | None => fun s' => mkOutcome (Ok tt) (mkState (heap s') true) []
          end) s.

Definition run (self : GraphAnalyticsAgent) (w : World) (question : string)
    (tool_name : option string) (inputs : option loc) : M GraphAnalyticsResult :=
  let* empty := alloc ∅ in
  let* picked :=
    match tool_name, _use_llm_selector self with
    | None, true =>
        emit (EvSelectTool question) >>
        match select_tool_with_llm w question with
        | Some selection =>
            let* llm_suggested_inputs :=
              match sel_inputs selection with
              | Some l => ret l
              | None => alloc ∅
              end in
            ret (sel_tool selection, llm_suggested_inputs)
        | None => ret (None, empty)
        end
    | _, _ => ret (tool_name, empty)
    end in
  let llm_suggested_inputs := snd picked in
  let* tool_name :=
    match fst picked with
    | Some t => ret t
    | None =>
        if _use_llm_selector self then
          raise (GraphAnalyticsAgentError
                   ("Could not infer a graph analytics tool for this question. "
                    +:+ "The LLM tool selector did not find a suitable tool.") None)
        else
          emit (EvInferTool question) >>
          match _infer_tool self question with
          | Some t => ret t
          | None =>
              raise (GraphAnalyticsAgentError
                       "Could not infer a graph analytics tool for this question." None)
          end
    end in
  match od_get tool_name (_tool_configs self) with
  | None => raise (GraphAnalyticsAgentError ("Unsupported tool: " +:+ tool_name) None)
  | Some config =>
      let* combined_inputs := dict_copy llm_suggested_inputs in
      update_if_truthy combined_inputs inputs >>
      let* prepared_inputs := _prepare_inputs self config question (Some combined_inputs) in
      _get_client w >>
      let* args := read prepared_inputs in
      emit (EvCallTool tool_name args) >>
      match call_tool w tool_name args with
      | Raise exc =>
          raise (GraphAnalyticsAgentError
                   ("Tool call failed for '" +:+ tool_name +:+ "': " +:+ exn_str exc)
                   (Some exc))
      | Ok result_content =>
          let* summary := lift (_build_summary config result_content question) in
          ret (mkResult tool_name prepared_inputs result_content summary)
      end
  end.

(** ** The schema digest *)

Definition SCHEMA_NOT_AVAILABLE : string := "Graph schema not available.".
Definition SUMMARY_NOT_AVAILABLE : string := "Graph schema summary not available.".

(** The variables of the loop over the lines of the schema. *)
Record scan : Type := mkScan {
  in_node_props : bool;
  in_rel_props : bool;
  in_rels : bool;
  node_labels : list string;
  rel_types : list string;
  relationships : list string
}.

Definition scan0 : scan := mkScan false false false [] [] [].

(** [line.split('`')[1] if '`' in line else None] *)
Definition backtick_field (line : string) : option string :=
  if contains "`" line then
    match split_on "`" line with
    | _ :: field :: _ => Some field
    | _ => None
    end
  else None.

(** One iteration of the loop. *)
Definition scan_line (v : scan) (line : string) : scan :=
  if contains "Node properties:" line then
    mkScan true false false (node_labels v) (rel_types v) (relationships v)
  else if contains "Relationship properties:" line then
    mkScan false true false (node_labels v) (rel_types v) (relationships v)
  else if contains "The relationships:" line then
    mkScan false false true (node_labels v) (rel_types v) (relationships v)
  else if in_node_props v && startswith ":`" (strip line) then
    match backtick_field line with
    | Some label =>
        if is_empty label then v
        else mkScan (in_node_props v) (in_rel_props v) (in_rels v)
               (node_labels v ++ [label]) (rel_types v) (relationships v)
    | None => v
    end
  else if in_rel_props v && startswith ":`" (strip line) then
    match backtick_field line with
    | Some rel_type =>
        if is_empty rel_type then v
        else mkScan (in_node_props v) (in_rel_props v) (in_rels v)
               (node_labels v) (rel_types v ++ [rel_type]) (relationships v)
    | None => v
    end
  else if in_rels v && contains ")-[:" line then
    mkScan (in_node_props v) (in_rel_props v) (in_rels v)
      (node_labels v) (rel_types v) (relationships v ++ [strip line])
  else v.

Definition summary_parts (v : scan) : list string :=
  (match node_labels v with
   | [] => []
   | _ => ["Node labels: " +:+ join ", " (sorted_set (node_labels v))]
   end) ++
  (match rel_types v with
   | [] => []
   | _ => ["Relationship types: " +:+ join ", " (sorted_set (rel_types v))]
   end) ++
  (match relationships v with
   | [] => []
   | _ => ["Key relationships:" +:+ String nl EmptyString
           +:+ join (String nl EmptyString) (take 10 (relationships v))]
   end).

Definition _summarize_schema_for_tool_selection (full_schema : string) : string :=
  if is_empty full_schema || String.eqb full_schema SCHEMA_NOT_AVAILABLE
  then full_schema
  else
    let lines := split_on nl full_schema in
    let v := fold_left scan_line lines scan0 in
    match summary_parts v with
    | [] => SUMMARY_NOT_AVAILABLE
    | parts => join (String nl EmptyString) parts
    end.

(** ** Reference notions used by the statements *)

(** [p] occurs in [s]. *)
Definition substr (p s : string) : Prop :=
  exists pre post, s = pre +:+ p +:+ post.

(** The single rule of keyword matching: the lower-cased keyword occurs
    in the lower-cased question. *)
Definition keyword_in_question (question kw : string) : bool :=
  contains (lower kw) (lower question).

(** Some keyword of [config] occurs in the question. *)
Definition config_matches (question : string) (config : ToolConfig) : bool :=
  existsb (keyword_in_question question) (keywords config).

(** The matcher described by the single rule: the first configuration,
    in the order of the registry, one of whose keywords occurs in the
    question. *)
Definition infer_tool_by_substring (self : GraphAnalyticsAgent) (question : string)
  : option string :=
  option_map name
    (List.find (config_matches question) (od_values (_tool_configs self))).

(** A state with no dictionary and no client. *)
Definition initial_state : state := mkState ∅ false.

(** The agent built from the built-in tool configurations, keyword
    matching only. *)
Definition builtin_agent : outcome GraphAnalyticsAgent :=
  __init__ None "name" None false initial_state.

(** The agent this produces: its four dictionaries are the first four
    objects of the heap. *)
Definition builtin_self : GraphAnalyticsAgent :=
  mkAgent "name" ∅ false (registry_of (default_configs 1 2 3 4)).

Definition count_nodes_config : ToolConfig :=
  mkToolConfig "count_nodes" "Counts nodes per label."
    ["count nodes"; "size"; "how many nodes"; "dataset size"]
    4%positive (Some Summarizers._summarize_text_result).

Definition leiden_config : ToolConfig :=
  mkToolConfig "leiden" "Community detection using the Leiden algorithm."
    ["community"; "cluster"; "group"; "modularity"]
    2%positive (Some Summarizers._summarize_leiden).

(** Every character of [s] satisfies [p]. *)
Fixpoint all_chars (p : ascii -> bool) (s : string) : bool :=
  match s with
  | EmptyString => true
  | String c r => p c && all_chars p r
  end.

(** What group 1 of the geographic pattern looks like: a capital letter,
    then one or more characters of the class. *)
Definition is_geo_group (g : string) : bool :=
  match g with
  | String c run => is_upper c && negb (is_empty run) && all_chars is_geo_char run
  | EmptyString => false
  end.

(** The text after a match: the run of class characters stops there. *)
Definition ends_run (post : string) : bool :=
  match post with
  | EmptyString => true
  | String c _ => negb (is_geo_char c)
  end.

Definition is_blank (c : ascii) : bool := Ascii.eqb c " ".

(** Some section header of the schema text occurs in [line]. *)
Definition has_header (line : string) : bool :=
  contains "Node properties:" line
  || contains "Relationship properties:" line
  || contains "The relationships:" line.

(** Every text collected by the loop is free of section headers. *)
Definition scan_clean (v : scan) : Prop :=
  Forall (fun x => has_header x = false) (node_labels v)
  /\ Forall (fun x => has_header x = false) (rel_types v)
  /\ Forall (fun x => has_header x = false) (relationships v).

(** The list the registry is built from, in the words of the
    specification: the supplied configurations, or the built-in ones when
    none is supplied... *)
Definition supplied_or_default (tool_configs : option (list ToolConfig)) (s : state)
  : list ToolConfig :=
  match tool_configs with
  | Some l => l
  | None =>
      match res (_build_default_configs s) with
      | Ok l => l
      | Raise _ => []
      end
  end.

(** ... filtered by the allow-list when the allow-list is not empty. *)
Definition effective_configs (tool_configs : option (list ToolConfig))
    (allowed_tool_names : option (list string)) (s : state) : list ToolConfig :=
  let allowed : gset string := list_to_set (default [] allowed_tool_names) in
  let base := supplied_or_default tool_configs s in
  if bool_decide (allowed = ∅) then base
  else List.filter (fun cfg => bool_decide (name cfg ∈ allowed)) base.

(** The last configuration of [l] named [n]. *)
Definition last_named (n : string) (l : list ToolConfig) : option ToolConfig :=
  List.find (fun cfg => String.eqb n (name cfg)) (rev l).

(** Two configurations that share a name. *)
Definition rank_v1 : ToolConfig :=
  mkToolConfig "rank" "first" ["rank"] 1%positive None.
Definition rank_v2 : ToolConfig :=
  mkToolConfig "rank" "second" ["score"] 1%positive None.

(** The generic summary, in the words of the specification. *)
Definition rows_message (config : ToolConfig) (n : nat) (first : pyitem) : pyval :=
  PStr ("Tool '" +:+ name config +:+ "' returned " +:+ str_of_len n +:+ " rows. "
        +:+ "First entry: " +:+ Render.json_dumps (PList [PDict first])).

Definition generic_summary (config : ToolConfig) (content : list pyitem) : pyval :=
  match content with
  | [] => PStr ("Tool '" +:+ name config +:+ "' returned no results.")
  | [item] =>
      match od_get "text" item with
      | Some text => text
      | None => rows_message config 1 item
      end
  | first :: _ => rows_message config (length content) first
  end.

Definition article_rank_config : ToolConfig :=
  mkToolConfig "article_rank"
    "Ranks nodes by influence using ArticleRank (PageRank variant)."
    ["influencer"; "important"; "central"; "rank"; "pagerank"]
    1%positive (Some Summarizers._summarize_rankings).

(** ** The layers of the argument mapping *)

(** The identifier property the agent injects. *)
Definition identifier_layer (self : GraphAnalyticsAgent) : gmap string pyval :=
  {[ "nodeIdentifierProperty" := PStr (_default_identifier_property self) ]}.

(** The geographic filters mined from the question. *)
Definition geo_layer (question : string) : gmap string pyval :=
  match _extract_geo_filters question with
  | [] => ∅
  | geos => {[ "nodeLabels" := PList [PStr "Area"; PStr "Municipality"];
               "filterNames" := PList (List.map PStr geos) ]}
  end.

(** The mapping [run] sends to the tool.  [∪] keeps the entry of its left
    operand when both have the key: the caller's entries win over the
    selector's, which win over the defaults; the identifier and the
    geographic filters only fill keys that the defaults leave free. *)
Definition final_arguments (self : GraphAnalyticsAgent) (question : string)
    (dflt sel caller : gmap string pyval) : gmap string pyval :=
  caller ∪ (sel ∪ (dflt ∪ (identifier_layer self ∪ geo_layer question))).

(** The layering in which every later layer overwrites the earlier ones:
    defaults, identifier, geographic filters, selector, caller. *)
Definition overwriting_arguments (self : GraphAnalyticsAgent) (question : string)
    (dflt sel caller : gmap string pyval) : gmap string pyval :=
  caller ∪ (sel ∪ (geo_layer question ∪ (identifier_layer self ∪ dflt))).

(** The dictionary held at an optional location. *)
Definition deref_opt (s : state) (l : option loc) : gmap string pyval :=
  match l with
  | Some l => deref s l
  | None => ∅
  end.

(** The inputs suggested by the selector, when [run] consults it. *)
Definition selector_inputs (self : GraphAnalyticsAgent) (w : World)
    (question : string) (tool_name : option string) (s : state)
  : gmap string pyval :=
  match tool_name, _use_llm_selector self with
  | None, true =>
      match select_tool_with_llm w question with
      | Some selection => deref_opt s (sel_inputs selection)
      | None => ∅
      end
  | _, _ => ∅
  end.

(** ** The stages of [run] *)

(** Lines 98-103: the selector is consulted. *)
Definition run_select (self : GraphAnalyticsAgent) (w : World) (question : string)
    (tool_name : option string) (empty : loc) : M (option string * loc) :=
  match tool_name, _use_llm_selector self with
  | None, true =>
      emit (EvSelectTool question) >>
      match select_tool_with_llm w question with
      | Some selection =>
          let* llm_suggested_inputs :=
            match sel_inputs selection with
            | Some l => ret l
            | None => alloc ∅
            end in
          ret (sel_tool selection, llm_suggested_inputs)
      | None => ret (None, empty)
      end
  | _, _ => ret (tool_name, empty)
  end.

(** Lines 107-120: a tool name, or the selection fails. *)
Definition run_resolve (self : GraphAnalyticsAgent) (question : string)
    (picked : option string) : M string :=
  match picked with
  | Some t => ret t
  | None =>
      if _use_llm_selector self then
        raise (GraphAnalyticsAgentError
                 ("Could not infer a graph analytics tool for this question. "
                  +:+ "The LLM tool selector did not find a suitable tool.") None)
      else
        emit (EvInferTool question) >>
        match _infer_tool self question with
        | Some t => ret t
        | None =>
            raise (GraphAnalyticsAgentError
                     "Could not infer a graph analytics tool for this question." None)
        end
  end.

(** Lines 131-147: execution and summary. *)
Definition run_call (w : World) (question : string) (tool_name : string)
    (config : ToolConfig) (prepared_inputs : loc) : M GraphAnalyticsResult :=
  _get_client w >>
  let* args := read prepared_inputs in
  emit (EvCallTool tool_name args) >>
  match call_tool w tool_name args with
  | Raise exc =>
      raise (GraphAnalyticsAgentError
               ("Tool call failed for '" +:+ tool_name +:+ "': " +:+ exn_str exc)
               (Some exc))
  | Ok result_content =>
      let* summary := lift (_build_summary config result_content question) in
      ret (mkResult tool_name prepared_inputs result_content summary)
  end.

(** Lines 125-147: arguments, then execution and summary. *)
Definition run_execute (self : GraphAnalyticsAgent) (w : World) (question : string)
    (tool_name : string) (config : ToolConfig) (llm_suggested_inputs : loc)
    (inputs : option loc) : M GraphAnalyticsResult :=
  let* combined_inputs := dict_copy llm_suggested_inputs in
  update_if_truthy combined_inputs inputs >>
  let* prepared_inputs := _prepare_inputs self config question (Some combined_inputs) in
  run_call w question tool_name config prepared_inputs.

(** The objects that a call of [run] refers to exist: the default
    dictionaries of the registry, the caller's inputs and the inputs
    suggested by the selector. *)
Definition well_formed (self : GraphAnalyticsAgent) (w : World) (question : string)
    (inputs : option loc) (s : state) : Prop :=
  (forall n cfg, od_get n (_tool_configs self) = Some cfg ->
                 defaults cfg ∈ dom (heap s))
  /\ (forall i, inputs = Some i -> i ∈ dom (heap s))
  /\ (forall sel l, select_tool_with_llm w question = Some sel ->
                    sel_inputs sel = Some l -> l ∈ dom (heap s)).

(** [s'] keeps every dictionary of [s] as it is. *)
Definition extends (s s' : state) : Prop :=
  forall l, l ∈ dom (heap s) -> heap s' !! l = heap s !! l.

Definition is_call_event (e : event) : bool :=
  match e with EvCallTool _ _ => true | _ => false end.

Definition is_infer_event (e : event) : bool :=
  match e with EvInferTool _ => true | _ => false end.

(** What the call stage does, once the client is there. *)
Definition call_outcome (w : World) (question t : string) (config : ToolConfig)
    (prepared : loc) (s : state) (pre : list event) : outcome GraphAnalyticsResult :=
  let args := deref s prepared in
  match call_tool w t args with
  | Raise exc =>
      mkOutcome
        (Raise (GraphAnalyticsAgentError
                  ("Tool call failed for '" +:+ t +:+ "': " +:+ exn_str exc) (Some exc)))
        s (pre ++ [EvCallTool t args])
  | Ok content =>
      match _build_summary config content question with
      | Ok text => mkOutcome (Ok (mkResult t prepared content text)) s
                     (pre ++ [EvCallTool t args])
      | Raise e => mkOutcome (Raise e) s (pre ++ [EvCallTool t args])
      end
  end.

(** ** What [run] decides before it executes *)

Definition LLM_FOUND_NOTHING : exn :=
  GraphAnalyticsAgentError
    ("Could not infer a graph analytics tool for this question. "
     +:+ "The LLM tool selector did not find a suitable tool.") None.

Definition KEYWORDS_FOUND_NOTHING : exn :=
  GraphAnalyticsAgentError
    "Could not infer a graph analytics tool for this question." None.

(** The tool name after the selector was consulted, if it was. *)
Definition selected_tool (self : GraphAnalyticsAgent) (w : World)
    (question : string) (tool_name : option string) : option string :=
  match tool_name, _use_llm_selector self with
  | None, true =>
      match select_tool_with_llm w question with
      | Some selection => sel_tool selection
      | None => None
      end
  | _, _ => tool_name
  end.

(** The tool name [run] goes on with, or the error it raises. *)
Definition resolved_tool (self : GraphAnalyticsAgent) (w : World)
    (question : string) (tool_name : option string) : result string :=
  match selected_tool self w question tool_name with
  | Some t => Ok t
  | None =>
      if _use_llm_selector self then Raise LLM_FOUND_NOTHING
      else match _infer_tool self question with
           | Some t => Ok t
           | None => Raise KEYWORDS_FOUND_NOTHING
           end
  end.

(** The events of the selection. *)
Definition select_events (self : GraphAnalyticsAgent) (question : string)
    (tool_name : option string) : list event :=
  match tool_name, _use_llm_selector self with
  | None, true => [EvSelectTool question]
  | _, _ => []
  end.

Definition resolve_events (self : GraphAnalyticsAgent) (w : World)
    (question : string) (tool_name : option string) : list event :=
  match selected_tool self w question tool_name with
  | Some _ => []
  | None => if _use_llm_selector self then [] else [EvInferTool question]
  end.

(** The events of the client: it is created on first use. *)
Definition client_events (s : state) : list event :=
  if client s then [] else [EvCreateClient].

(** The arguments of a call of [run] for the configuration [config], read
    off the state in which [run] is called. *)
Definition sent_arguments (self : GraphAnalyticsAgent) (w : World)
    (question : string) (tool_name : option string) (inputs : option loc)
    (s : state) (config : ToolConfig) : gmap string pyval :=
  final_arguments self question (deref s (defaults config))
    (selector_inputs self w question tool_name s) (deref_opt s inputs).

(** The message of the error that wraps a failure of the tool. *)
Definition tool_call_failed (t : string) (exc : exn) : string :=
  "Tool call failed for '" +:+ t +:+ "': " +:+ exn_str exc.

(** The result of [run] once the tool [t] is called with [args]. *)
Definition call_result (w : World) (question t : string) (config : ToolConfig)
    (prepared : loc) (args : gmap string pyval) : result GraphAnalyticsResult :=
  match call_tool w t args with
  | Raise exc => Raise (GraphAnalyticsAgentError (tool_call_failed t exc) (Some exc))
  | Ok content =>
      match _build_summary config content question with
      | Ok text => Ok (mkResult t prepared content text)
      | Raise e => Raise e
      end
  end.

(** ** A small world to run the agent in *)

Definition demo_config : ToolConfig :=
  mkToolConfig "demo" "A demonstration tool." ["demo"] 1%positive None.

Definition uuid_config : ToolConfig :=
  mkToolConfig "by_uuid" "A tool with its own identifier property." ["uuid"]
    4%positive None.

Definition demo_agent : GraphAnalyticsAgent :=
  mkAgent "name" ∅ true [("demo", demo_config); ("by_uuid", uuid_config)].

(** Defaults [{a: 1}] at 1, selector inputs [{a: 2, b: 2}] at 2, caller
    inputs [{b: 3}] at 3, defaults [{nodeIdentifierProperty: "uuid"}] at 4. *)
Definition demo_state : state :=
  mkState
    {[ 1%positive := {[ "a" := PInt 1 ]};
       2%positive := {[ "a" := PInt 2; "b" := PInt 2 ]};
       3%positive := {[ "b" := PInt 3 ]};
       4%positive := {[ "nodeIdentifierProperty" := PStr "uuid" ]} ]}
    false.

Definition demo_world : World :=
  mkWorld (fun _ => Some (mkSelection (Some "demo") (Some 2%positive))) None
    (fun _ _ => Ok []).

(** The selector answers [{"tool": null}]. *)
Definition null_world : World :=
  mkWorld (fun _ => Some (mkSelection None None)) None (fun _ _ => Ok []).

(** The execution backend raises. *)
Definition failing_world : World :=
  mkWorld (fun _ => Some (mkSelection (Some "demo") (Some 2%positive))) None
    (fun _ _ => Raise (Exception "connection lost")).

Definition demo_question : string := "Which nodes matter most?".

(** The arguments of the demonstration call. *)
Definition demo_arguments : gmap string pyval :=
  {[ "a" := PInt 2; "b" := PInt 3; "nodeIdentifierProperty" := PStr "name" ]}.

(** The client cannot be created. *)
Definition unreachable_world : World :=
  mkWorld (fun _ => Some (mkSelection (Some "demo") (Some 2%positive)))
    (Some (Exception "server did not start")) (fun _ _ => Ok []).

(** [list_tools]: the configurations of the registry, in its order. *)
Definition list_tools (self : GraphAnalyticsAgent) : list ToolConfig :=
  od_values (_tool_configs self).

(** [isinstance(v, dict)] *)
Definition is_dict (v : pyval) : bool :=
  match v with PDict _ => true | _ => false end.

(** ** The reply of the selector model *)

(** Lines 393-395 of [_select_tool_with_llm]: a reply that opens with a
    code fence and has more than two lines loses its first and its last
    line, [lines[1:-1]]. *)
Definition strip_code_fence (completion : string) : string :=
  if startswith "```" completion then
    let lines := split_on nl completion in
    if (2 <? length lines)%nat
    then join (String nl "") (drop 1 (take (length lines - 1) lines))
    else completion
  else completion.

(** Lines 380-395: the text handed to [json.loads], [None] when the
    selector gives up on an empty or blank reply. *)
Definition reply_payload (completion : string) : option string :=
  if is_empty completion || is_empty (strip completion) then None
  else Some (strip_code_fence (strip completion)).

(** An exception of the selector's code: one of [exn], or the
    [TypeError] of a dictionary or a set asked for an unhashable key. *)
Inductive raised : Type :=
| Known (e : exn)
| TypeError.

Inductive attempt (A : Type) : Type :=
| Done (a : A)
| Fails (e : raised).

Arguments Done {A} a.
Arguments Fails {A} e.

Definition abind {A B : Type} (m : attempt A) (k : A -> attempt B) : attempt B :=
  match m with
  | Done a => k a
  | Fails e => Fails e
  end.

(** [v in names] for a set of strings: a list or a dictionary cannot be
    hashed, and a hashable value that is not a string equals no member. *)
Definition in_names (v : pyval) (names : gset string) : attempt bool :=
  match v with
  | PStr s => Done (bool_decide (s ∈ names))
  | PList _ | PDict _ => Fails TypeError
  | _ => Done false
  end.

(** [v in d] for a dictionary with string keys. *)
Definition in_keys {V : Type} (v : pyval) (d : list (string * V)) : attempt bool :=
  match v with
  | PStr s => Done (match od_get s d with Some _ => true | None => false end)
  | PList _ | PDict _ => Fails TypeError
  | _ => Done false
  end.

(** [data.get(k)] on the decoded reply, which has to be a dictionary. *)
Definition reply_get (data : pyval) (k : string) : attempt pyval :=
  match data with
  | PDict d => Done (default PNone (od_get k d))
  | _ => Fails (Known (AttributeError
                         ("'" +:+ Render.type_name data
                          +:+ "' object has no attribute 'get'")))
  end.

(** The dictionary [{"tool": ..., "inputs": ..., "reason": ...}]. *)
Record Reply : Type := mkReply {
  reply_tool : pyval;
  reply_inputs : pyitem;
  reply_reason : pyval
}.

(** Lines 412-427 of [_select_tool_with_llm]: from the decoded reply to
    the selection, [None] when no registered tool is named. *)
Definition selection_of_reply (self : GraphAnalyticsAgent) (data : pyval)
  : attempt (option Reply) :=
  abind (reply_get data "tool") (fun tool =>
  abind (if Render.truthy tool then Done tool else reply_get data "tool_name")
        (fun tool_name =>
  match tool_name with
  | PNone => Done None
  | _ =>
    abind (in_keys tool_name (_tool_configs self)) (fun known =>
    if negb known then Done None
    else
      abind (reply_get data "inputs") (fun given =>
      abind (if Render.truthy given then Done given
             else reply_get data "arguments") (fun inputs =>
      let inputs := Render.py_or inputs (PDict []) in
      let inputs := match inputs with PDict d => d | _ => [] end in
      abind (reply_get data "reason") (fun reason =>
      Done (Some (mkReply tool_name inputs reason))))))
  end)).

(** ** The metadata of the tools *)

(** The body of the loop of [_get_tool_metadata] for one listed tool. *)
Definition metadata_step (self : GraphAnalyticsAgent)
    (metadata : list (string * pyitem)) (tool : pyitem)
  : attempt (list (string * pyitem)) :=
  let name := default PNone (od_get "name" tool) in
  if negb (Render.truthy name) then Done metadata
  else
    abind (if bool_decide (_allowed_tool_names self = ∅) then Done false
           else abind (in_names name (_allowed_tool_names self))
                  (fun member => Done (negb member)))
      (fun excluded =>
         if excluded then Done metadata
         else
           abind (in_keys name (_tool_configs self)) (fun known =>
           if known
           then Done (match name with
                      | PStr k => od_set k tool metadata
                      | _ => metadata
                      end)
           else Done metadata)).

Fixpoint metadata_loop (self : GraphAnalyticsAgent) (tools : list pyitem)
    (metadata : list (string * pyitem)) : attempt (list (string * pyitem)) :=
  match tools with
  | [] => Done metadata
  | tool :: rest =>
      abind (metadata_step self metadata tool) (metadata_loop self rest)
  end.

(** The two attributes [_tool_metadata] and [_tool_metadata_loaded]. *)
Record MetadataCache : Type := mkCache {
  _tool_metadata : list (string * pyitem);
  _tool_metadata_loaded : bool
}.

(** The cache [__init__] sets up. *)
Definition empty_cache : MetadataCache := mkCache [] false.

(** [_get_tool_metadata]: [listed] is the outcome of
    [await (await self._get_client()).list_tools()], consulted only when
    the cache does not answer.  The result comes with the cache the call
    leaves behind. *)
Definition _get_tool_metadata (self : GraphAnalyticsAgent) (cache : MetadataCache)
    (listed : attempt (list pyitem))
  : attempt (list (string * pyitem)) * MetadataCache :=
  if _tool_metadata_loaded cache && negb (bool_decide (_tool_metadata cache = []))
  then (Done (_tool_metadata cache), cache)
  else
    match abind listed (fun tools => metadata_loop self tools []) with
    | Fails e => (Fails e, cache)
    | Done metadata =>
        match metadata with
        | [] => (Done (_tool_metadata cache), cache)
        | _ => (Done metadata, mkCache metadata true)
        end
    end.

(** The test of [metadata_step] that files a tool under [k]. *)
Definition has_name (k : string) (tool : pyitem) : bool :=
  match od_get "name" tool with
  | Some (PStr s) => String.eqb s k
  | _ => false
  end.

(** Whether a tool called [k] is kept by the loop. *)
Definition is_kept (self : GraphAnalyticsAgent) (k : string) : bool :=
  negb (is_empty k)
  && (bool_decide (_allowed_tool_names self = ∅)
      || bool_decide (k ∈ _allowed_tool_names self))
  && match od_get k (_tool_configs self) with Some _ => true | None => false end.

(** The invariant of the cache: a cache that is not marked as loaded is
    empty. *)
Definition cache_ok (cache : MetadataCache) : Prop :=
  _tool_metadata_loaded cache = false -> _tool_metadata cache = [].

(** The name the decoded reply gives: ["tool"], or ["tool_name"] when
    the former is missing or falsy. *)
Definition named_tool (d : pyitem) : pyval :=
  Render.py_or (default PNone (od_get "tool" d)) (default PNone (od_get "tool_name" d)).

(** Values that [hash] refuses. *)
Definition unhashable (v : pyval) : bool :=
  match v with PList _ | PDict _ => true | _ => false end.

(** ** A schema text in the documented layout *)

(** A line [:`label` rest] of a properties section. *)
Definition label_line (entry : string * string) : string :=
  ":`" +:+ fst entry +:+ "`" +:+ snd entry.

(** The entries whose line can stand in a properties section: a label
    that is not empty and has no backtick, on a single line that holds no
    section header. *)
Definition is_label_entry (entry : string * string) : bool :=
  negb (is_empty (fst entry))
  && negb (mem_char "`" (fst entry))
  && negb (mem_char nl (label_line entry))
  && negb (has_header (label_line entry)).

(** A line of the relationships section. *)
Definition is_relationship_line (line : string) : bool :=
  contains ")-[:" line && negb (mem_char nl line) && negb (has_header line).

(** The three sections, each under its header. *)
Definition schema_lines (nodes rel_props : list (string * string))
    (rels : list string) : list string :=
  ["Node properties:"] ++ List.map label_line nodes
  ++ ["Relationship properties:"] ++ List.map label_line rel_props
  ++ ["The relationships:"] ++ rels.

Definition schema_text (nodes rel_props : list (string * string))
    (rels : list string) : string :=
  join (String nl "") (schema_lines nodes rel_props rels).

(** The matches a scan from left to right finds in [s], each search
    resuming where the previous match ended: [s] is a gap in which no
    match starts, then a match, then the text after it, scanned in the
    same way; or no match starts anywhere in [s]. *)
Inductive geo_scan : string -> list string -> Prop :=
| geo_scan_nil (s : string) :
    (forall pre rest, s = pre +:+ rest -> geo_match rest = None) ->
    geo_scan s []
| geo_scan_cons (gap g rest : string) (gs : list string) :
    (forall pre c post, gap = pre +:+ String c post ->
                        geo_match (String c post +:+ "in " +:+ g +:+ rest) = None) ->
    geo_match ("in " +:+ g +:+ rest) = Some g ->
    geo_scan rest gs ->
    geo_scan (gap +:+ "in " +:+ g +:+ rest) (g :: gs).

(** * Properties *)

(** ** The model at work *)

Example lower_ex : PyStr.lower "Who Ranks 1st?" = "who ranks 1st?".
Proof. reflexivity. Qed.

Example split_ex :
  PyStr.split "  two words
and more " = ["two"; "words"; "and"; "more"].
Proof. reflexivity. Qed.

Example split_on_ex : PyStr.split_on "`" ":`Area` {x}" = [":"; "Area"; " {x}"].
Proof. reflexivity. Qed.

Example strip_ex : PyStr.strip_chars " ,." "Lakeview , " = "Lakeview".
Proof. reflexivity. Qed.

Example sorted_set_ex : PyStr.sorted_set ["b"; "a"; "b"; "B"] = ["B"; "a"; "b"].
Proof. reflexivity. Qed.

Example json_dumps_ex :
  Render.json_dumps (PList [PDict [("name", PStr ("Al" +:+ String dquote "ice"));
                                   ("score", PFloat "0.9");
                                   ("n", PInt (-3)); ("ok", PBool true)]])
  = "[{" +:+ quoted "name" +:+ ": " +:+ quoted ("Al\" +:+ String dquote "ice")
    +:+ ", " +:+ quoted "score" +:+ ": 0.9, " +:+ quoted "n" +:+ ": -3, "
    +:+ quoted "ok" +:+ ": true}]".
Proof. vm_compute. reflexivity. Qed.

Example py_str_ex :
  Render.py_str (PDict [("a", PList [PStr "it's"; PNone])])
  = "{'a': [" +:+ quoted "it's" +:+ ", None]}".
Proof. vm_compute. reflexivity. Qed.

Example summarize_rankings_ex :
  Summarizers._summarize_rankings
    [[("json", PList [PDict [("name", PStr "Alice"); ("score", PFloat "0.9")]])]]
  = Ok (PStr "Top ranked nodes: Alice (score=0.9)").
Proof. vm_compute. reflexivity. Qed.

Example summarize_rankings_raises :
  Summarizers._summarize_rankings [[("json", PList [PInt 1])]]
  = Raise (AttributeError "'int' object has no attribute 'get'").
Proof. vm_compute. reflexivity. Qed.

Example summarize_schema_ex :
  _summarize_schema_for_tool_selection
    "Node properties:
:`Person` {name: STRING}
:`Area` {name: STRING}
Relationship properties:
:`LIVES_IN` {since: INTEGER}
The relationships:
(:Person)-[:LIVES_IN]->(:Area)"
  = "Node labels: Area, Person
Relationship types: LIVES_IN
Key relationships:
(:Person)-[:LIVES_IN]->(:Area)".
Proof. vm_compute. reflexivity. Qed.

(** ** Substrings *)

Section StringFacts.

Lemma str_app_nil_r (s : string) : s +:+ "" = s.
Proof. induction s as [|c s IH]; [reflexivity|]. cbv [String.append]. fold String.append. by rewrite IH. Qed.

Lemma str_app_assoc (a b c : string) : (a +:+ b) +:+ c = a +:+ b +:+ c.
Proof.
  induction a as [|x a IH]; [reflexivity|].
  change (String x ((a +:+ b) +:+ c) = String x (a +:+ b +:+ c)). by rewrite IH.
Qed.

Lemma str_app_cons (x : ascii) (a b : string) : String x a +:+ b = String x (a +:+ b).
Proof. reflexivity. Qed.

Lemma str_app_length (a b : string) :
  String.length (a +:+ b) = (String.length a + String.length b)%nat.
Proof.
  induction a as [|x a IH]; [reflexivity|].
  rewrite str_app_cons. simpl. by rewrite IH.
Qed.

Lemma substr_refl (s : string) : substr s s.
Proof. exists "", "". by rewrite str_app_nil_r. Qed.

Lemma substr_trans (a b c : string) : substr a b -> substr b c -> substr a c.
Proof.
  intros (p1 & q1 & ->) (p2 & q2 & ->).
  exists (p2 +:+ p1), (q1 +:+ q2). by rewrite !str_app_assoc.
Qed.

Lemma substr_app_l (p a b : string) : substr p a -> substr p (a +:+ b).
Proof. intros (x & y & ->). exists x, (y +:+ b). by rewrite !str_app_assoc. Qed.

Lemma substr_app_r (p a b : string) : substr p b -> substr p (a +:+ b).
Proof. intros (x & y & ->). exists (a +:+ x), y. by rewrite !str_app_assoc. Qed.

Lemma substr_cons (p : string) (c : ascii) (s : string) :
  substr p s -> substr p (String c s).
Proof. apply (substr_app_r p (String c "") s). Qed.

Lemma startswith_spec (p s : string) :
  startswith p s = true <-> exists t, s = p +:+ t.
Proof.
  revert s. induction p as [|a p IH]; intros s; simpl.
  - split; [intros _; by exists s | done].
  - destruct s as [|b s].
    + split; [done | intros (t & Ht); discriminate Ht].
    + rewrite andb_true_iff, Ascii.eqb_eq, IH. split.
      * intros (-> & t & ->). by exists t.
      * intros (t & Ht). rewrite str_app_cons in Ht. injection Ht as -> ->. eauto.
Qed.

Lemma contains_spec (p s : string) : contains p s = true <-> substr p s.
Proof.
  induction s as [|c s IH].
  - simpl. rewrite orb_false_r, startswith_spec. split.
    + intros (t & Ht). exists "", t. exact Ht.
    + intros (pre & post & H). destruct pre; [|discriminate H].
      by exists post.
  - simpl. rewrite orb_true_iff, startswith_spec, IH. split.
    + intros [(t & ->) | H]; [by exists "", t | by apply substr_cons].
    + intros (pre & post & H). destruct pre as [|x pre].
      * left. by exists post.
      * right. rewrite str_app_cons in H. injection H as _ ->. by exists pre, post.
Qed.

Lemma contains_mono (p a b : string) :
  substr a b -> contains p a = true -> contains p b = true.
Proof. rewrite !contains_spec. intros ??. by eapply substr_trans. Qed.

Lemma startswith_contains (p s : string) :
  startswith p s = true -> contains p s = true.
Proof. destruct s; simpl; intros ->; reflexivity. Qed.

(** A token of [s.split()] occurs in [s]. *)
Lemma split_go_substr (s cur w : string) :
  In w (split_go cur s) -> substr w (cur +:+ s).
Proof.
  revert cur. induction s as [|c s IH]; intros cur; simpl.
  - destruct cur; simpl; [done|]. intros [<- | []].
    rewrite str_app_nil_r. apply substr_refl.
  - destruct (is_space c).
    + assert (In w (split_go "" s) -> substr w (cur +:+ String c s)) as Hrest.
      { intros H. apply substr_app_r, substr_cons, (IH "" H). }
      destruct cur; [exact Hrest|]. intros [<- | H]; [|by apply Hrest].
      apply substr_app_l, substr_refl.
    + intros H. apply IH in H. by rewrite str_app_assoc in H.
Qed.

Lemma split_substr (s w : string) : In w (split s) -> substr w s.
Proof. apply (split_go_substr s ""). Qed.

Lemma lstrip_suffix (p : ascii -> bool) (s : string) :
  exists pre, s = pre +:+ lstrip p s.
Proof.
  induction s as [|c s (pre & IH)]; simpl; [by exists ""|].
  destruct (p c); [|by exists ""].
  exists (String c pre). by rewrite str_app_cons, <- IH.
Qed.

Lemma rstrip_prefix (p : ascii -> bool) (s : string) :
  exists post, s = rstrip p s +:+ post.
Proof.
  induction s as [|c s (post & IH)]; simpl; [by exists ""|].
  destruct (rstrip p s) eqn:E.
  - destruct (p c); [by exists (String c s)|].
    exists s. reflexivity.
  - exists post. by rewrite str_app_cons, <- IH.
Qed.

Lemma strip_substr (s : string) : substr (strip s) s.
Proof.
  unfold strip. destruct (lstrip_suffix is_space s) as (pre & Hpre).
  destruct (rstrip_prefix is_space (lstrip is_space s)) as (post & Hpost).
  exists pre, post. by rewrite <- Hpost.
Qed.

(** A field of [s.split(sep)] occurs in [s]. *)
Lemma split_on_substr (sep : ascii) (s w : string) :
  In w (split_on sep s) -> substr w s.
Proof.
  revert w. induction s as [|c s IH]; intros w; simpl.
  - intros [<- | []]. apply substr_refl.
  - destruct (Ascii.eqb c sep).
    + intros [<- | H]; [by exists "", (String c s) | by apply substr_cons, IH].
    + destruct (split_on sep s) as [|f fs] eqn:E.
      * intros [<- | []]. exists "", s. reflexivity.
      * intros [<- | H]; [|apply substr_cons, IH; by right].
        destruct (IH f (or_introl eq_refl)) as (pre & post & Hs).
        (* [f] is the first field, so it is a prefix of [s] *)
        clear Hs. assert (exists t, s = f +:+ t) as (t & ->).
        { clear IH. revert f fs E. induction s as [|d s IHs]; intros f fs; simpl.
          - intros [= <- <-]. by exists "".
          - destruct (Ascii.eqb d sep).
            + intros [= <- <-]. by exists (String d s).
            + destruct (split_on sep s) as [|g gs]; intros [= <- <-].
              * by exists s.
              * destruct (IHs g gs eq_refl) as (t & Ht). exists t.
                by rewrite str_app_cons, <- Ht. }
        exists "", t. reflexivity.
Qed.

End StringFacts.

(** ** Keyword matching *)

Lemma word_loop_contains (kw_lower normalized : string) :
  word_loop kw_lower (split normalized) = true ->
  contains kw_lower normalized = true.
Proof.
  intros H.
  assert (forall words, (forall w, In w words -> substr w normalized) ->
            word_loop kw_lower words = true -> contains kw_lower normalized = true)
    as Hloop.
  { induction words as [|w ws IH]; simpl; [done|]. intros Hsub.
    destruct (contains kw_lower w || startswith kw_lower w) eqn:E.
    - intros _. apply (contains_mono kw_lower w normalized); [by apply Hsub; left|].
      apply orb_true_iff in E as [E | E]; [done | by apply startswith_contains].
    - apply IH. intros w' Hw'. apply Hsub. by right. }
  apply (Hloop (split normalized)); [apply split_substr | exact H].
Qed.

Lemma keyword_loop_existsb (question : string) (kws : list string) :
  keyword_loop (lower question) kws = existsb (keyword_in_question question) kws.
Proof.
  induction kws as [|kw kws IH]; simpl; [done|].
  unfold keyword_in_question at 1.
  destruct (contains (lower kw) (lower question)) eqn:E; [done|].
  destruct (word_loop (lower kw) (split (lower question))) eqn:W; [|exact IH].
  apply word_loop_contains in W. congruence.
Qed.

Lemma config_loop_find (question : string) (configs : list ToolConfig) :
  config_loop (lower question) configs
  = option_map name (List.find (config_matches question) configs).
Proof.
  induction configs as [|c cs IH]; simpl; [done|].
  rewrite keyword_loop_existsb. fold (config_matches question c).
  by destruct (config_matches question c).
Qed.

(** C9. The three matching rules collapse to one: a keyword loop succeeds
    exactly when some lower-cased keyword occurs in the lower-cased
    question, so [_infer_tool] returns the first tool, in the order of the
    registry, that has such a keyword. *)
Theorem infer_tool_single_rule :
  (forall kw_lower normalized,
      contains kw_lower normalized || word_loop kw_lower (split normalized)
      = contains kw_lower normalized)
  /\ (forall question kws,
      keyword_loop (lower question) kws
      = existsb (fun kw => contains (lower kw) (lower question)) kws)
  /\ (forall self question,
         _infer_tool self question = infer_tool_by_substring self question).
Proof.
  split; [|split].
  - intros kw_lower normalized.
    destruct (contains kw_lower normalized) eqn:E; [done|]. simpl.
    destruct (word_loop kw_lower (split normalized)) eqn:W; [|done].
    apply word_loop_contains in W. congruence.
  - intros question kws. apply keyword_loop_existsb.
  - intros self question. apply config_loop_find.
Qed.

Lemma find_app_first {A : Type} (f : A -> bool) (l1 l2 : list A) :
  List.find f (l1 ++ l2)
  = match List.find f l1 with
    | Some x => Some x
    | None => List.find f l2
    end.
Proof. induction l1 as [|x l1 IH]; simpl; [done|]. by destruct (f x). Qed.

Lemma find_none_iff {A : Type} (f : A -> bool) (l : list A) :
  List.find f l = None <-> forall x, In x l -> f x = false.
Proof.
  split; [apply find_none|]. induction l as [|x l IH]; simpl; [done|].
  intros H. rewrite (H x (or_introl eq_refl)). apply IH. intros y Hy. apply H. by right.
Qed.

Lemma builtin_agent_ok : res builtin_agent = Ok builtin_self.
Proof. reflexivity. Qed.

Lemma builtin_values :
  od_values (_tool_configs builtin_self) = default_configs 1 2 3 4.
Proof. reflexivity. Qed.

(** C6, as stated, fails on the built-in registry: the question
    "count nodes by rank" contains "count nodes", a keyword of
    [count_nodes] and of no other tool, yet the matcher answers
    [article_rank], whose keyword "rank" also occurs and whose
    configuration comes first. *)
Lemma infer_tool_unique_keyword_counterexample :
  res builtin_agent = Ok builtin_self
  /\ In count_nodes_config (od_values (_tool_configs builtin_self))
  /\ In "count nodes" (keywords count_nodes_config)
  /\ (forall cfg', In cfg' (od_values (_tool_configs builtin_self)) ->
                   In "count nodes" (keywords cfg') -> cfg' = count_nodes_config)
  /\ contains (lower "count nodes") (lower "count nodes by rank") = true
  /\ _infer_tool builtin_self "count nodes by rank" = Some "article_rank"
  /\ _infer_tool builtin_self "count nodes by rank" <> Some (name count_nodes_config).
Proof.
  split; [apply builtin_agent_ok|]. rewrite builtin_values.
  split; [do 3 right; left; reflexivity|].
  split; [left; reflexivity|]. split.
  - intros cfg' Hin Hkw.
    destruct Hin as [<- | [<- | [<- | [<- | []]]]]; simpl in Hkw;
      try reflexivity;
      repeat (destruct Hkw as [Hkw | Hkw]; [discriminate Hkw|]); destruct Hkw.
  - split; [vm_compute; reflexivity|].
    split; [vm_compute; reflexivity|]. vm_compute. discriminate.
Qed.

(** C6, amended.  When every tool of the registry having a keyword that
    occurs, case-insensitively, in the question bears the name of [cfg],
    and [cfg] is such a tool, the matcher returns the name of [cfg].  When
    keywords of several tools occur in the question, the first tool in
    the order of the registry wins: the matcher returns the name of [cfg]
    as soon as [cfg] has such a keyword and no tool before it has one,
    whatever comes after; and every answer of the matcher is the name of
    such a first tool.  The matcher returns [None] exactly when no tool of
    the registry has such a keyword. *)
Theorem infer_tool_sole_match (self : GraphAnalyticsAgent) (question : string) :
  (forall cfg,
      In cfg (od_values (_tool_configs self)) ->
      config_matches question cfg = true ->
      (forall cfg', In cfg' (od_values (_tool_configs self)) ->
                    config_matches question cfg' = true -> name cfg' = name cfg) ->
      _infer_tool self question = Some (name cfg))
  /\ (forall before cfg after,
         od_values (_tool_configs self) = before ++ cfg :: after ->
         config_matches question cfg = true ->
         (forall cfg', In cfg' before -> config_matches question cfg' = false) ->
         _infer_tool self question = Some (name cfg))
  /\ (forall t,
         _infer_tool self question = Some t ->
         exists before cfg after,
           od_values (_tool_configs self) = before ++ cfg :: after
           /\ name cfg = t
           /\ config_matches question cfg = true
           /\ (forall cfg', In cfg' before -> config_matches question cfg' = false))
  /\ (_infer_tool self question = None <->
      forall cfg, In cfg (od_values (_tool_configs self)) ->
                  config_matches question cfg = false).
Proof.
  unfold _infer_tool. rewrite config_loop_find. split; [|split; [|split]].
  - intros cfg Hin Hm Hsole.
    destruct (List.find (config_matches question) (od_values (_tool_configs self)))
      as [c|] eqn:F; simpl.
    + apply find_some in F as [Hc Hmc]. f_equal. by apply Hsole.
    + rewrite (find_none _ _ F cfg Hin) in Hm. discriminate Hm.
  - intros before cfg after -> Hm Hbefore. rewrite find_app_first.
    assert (List.find (config_matches question) before = None) as ->.
    { apply find_none_iff. exact Hbefore. }
    cbn [List.find]. by rewrite Hm.
  - intros t Ht.
    induction (od_values (_tool_configs self)) as [|c cs IH]; [discriminate Ht|].
    cbn [List.find] in Ht. destruct (config_matches question c) eqn:Hc.
    + injection Ht as <-. exists [], c, cs. repeat split; [done|]. by intros cfg' [].
    + destruct (IH Ht) as (before & cfg & after & -> & Hn & Hm & Hb).
      exists (c :: before), cfg, after. repeat split; try done.
      intros cfg' [<- | Hin]; [done | by apply Hb].
  - rewrite <- find_none_iff.
    destruct (List.find _ _); simpl; split; congruence.
Qed.

Lemma infer_tool_sole_match_witness :
  _infer_tool builtin_self "Which areas form a community?" = Some "leiden"
  /\ _infer_tool builtin_self "count nodes by rank" = Some "article_rank".
Proof.
  split.
  - refine (proj1 (infer_tool_sole_match builtin_self "Which areas form a community?")
              leiden_config _ _ _).
    + right. left. reflexivity.
    + vm_compute. reflexivity.
    + intros cfg' Hin Hm. rewrite builtin_values in Hin.
      destruct Hin as [<- | [<- | [<- | [<- | []]]]]; vm_compute in Hm;
        first [reflexivity | discriminate Hm].
  - refine (proj1 (proj2 (infer_tool_sole_match builtin_self "count nodes by rank"))
              [] article_rank_config _ _ _ _).
    + rewrite builtin_values. reflexivity.
    + vm_compute. reflexivity.
    + intros cfg' [].
Defined.

(** ** Geographic filters *)

Lemma span_spec (p : ascii -> bool) (s a b : string) :
  span p s = (a, b) ->
  s = a +:+ b /\ all_chars p a = true
  /\ match b with EmptyString => True | String c _ => p c = false end.
Proof.
  revert a b. induction s as [|c s IH]; intros a b; simpl.
  - intros [= <- <-]. done.
  - destruct (p c) eqn:Pc.
    + destruct (span p s) as [a' b'] eqn:E. intros [= <- <-].
      destruct (IH a' b' eq_refl) as (-> & Ha & Hb).
      simpl. rewrite Pc, Ha. done.
    + intros [= <- <-]. done.
Qed.

Lemma geo_match_spec (s g : string) :
  geo_match s = Some g ->
  exists post, s = "in " +:+ g +:+ post
               /\ is_geo_group g = true /\ ends_run post = true.
Proof.
  unfold geo_match.
  destruct s as [|i [|n [|sp [|c r]]]]; try discriminate.
  destruct (span is_geo_char r) as [run post] eqn:E. simpl.
  destruct (Ascii.eqb i "i") eqn:Ei; [|discriminate].
  destruct (Ascii.eqb n "n") eqn:En; [|discriminate].
  destruct (Ascii.eqb sp " ") eqn:Es; [|discriminate].
  destruct (is_upper c) eqn:Ec; [|discriminate].
  destruct (is_empty run) eqn:Er; [discriminate|]. simpl. intros [= <-].
  apply Ascii.eqb_eq in Ei as ->, En as ->, Es as ->.
  apply span_spec in E as (-> & Hrun & Hpost).
  exists post. split; [reflexivity|]. simpl. rewrite Ec, Er, Hrun.
  split; [reflexivity|]. destruct post; [reflexivity|]. simpl. by rewrite Hpost.
Qed.

Lemma findall_go_sound (s : string) (skip : nat) (g : string) :
  In g (findall_go skip s) ->
  exists pre rest, s = pre +:+ rest /\ geo_match rest = Some g.
Proof.
  revert skip. induction s as [|c s IH]; intros skip; [intros []|].
  assert (forall k, In g (findall_go k s) ->
            exists pre rest, String c s = pre +:+ rest /\ geo_match rest = Some g)
    as Hrec.
  { intros k H. destruct (IH k H) as (pre & rest & -> & Hm).
    by exists (String c pre), rest. }
  cbn [findall_go]. destruct skip as [|k]; [|apply Hrec].
  destruct (geo_match (String c s)) as [g'|] eqn:E; [|apply Hrec].
  intros [<- | H]; [|by eapply Hrec]. by exists "", (String c s).
Qed.

Lemma findall_go_nil (s : string) :
  findall_go 0 s = [] <-> forall pre rest, s = pre +:+ rest -> geo_match rest = None.
Proof.
  induction s as [|c s IH].
  - split; [|done]. intros _ pre rest H.
    destruct pre; [|discriminate H].
    change ("" +:+ rest) with rest in H. by rewrite <- H.
  - cbn [findall_go]. destruct (geo_match (String c s)) as [g|] eqn:E.
    + split; [discriminate|]. intros H. specialize (H "" (String c s) eq_refl). congruence.
    + rewrite IH. split.
      * intros H pre rest Heq. destruct pre as [|x pre].
        -- change ("" +:+ rest) with rest in Heq. by rewrite <- Heq.
        -- rewrite str_app_cons in Heq. injection Heq as _ ->. by apply (H pre).
      * intros H pre rest ->. by apply (H (String c pre)).
Qed.

Lemma upper_not_trimmed (c : ascii) :
  is_upper c = true -> mem_char c " ,." = false.
Proof. destruct c as [[][][][][][][][]]; vm_compute; congruence. Qed.

Lemma geo_char_trimmed (c : ascii) :
  is_geo_char c = true -> mem_char c " ,." = is_blank c.
Proof. destruct c as [[][][][][][][][]]; vm_compute; congruence. Qed.

Lemma upper_geo_char (c : ascii) : is_upper c = true -> is_geo_char c = true.
Proof. unfold is_geo_char. by intros ->. Qed.

Lemma rstrip_ext (p q r : ascii -> bool) (s : string) :
  all_chars r s = true -> (forall c, r c = true -> p c = q c) ->
  rstrip p s = rstrip q s.
Proof.
  intros Hall Hpq. induction s as [|c s IH]; simpl in *; [done|].
  apply andb_true_iff in Hall as [Hc Hs]. by rewrite (IH Hs), (Hpq c Hc).
Qed.

Lemma strip_geo_group (g : string) :
  is_geo_group g = true -> strip_chars " ,." g = rstrip is_blank g.
Proof.
  destruct g as [|c run]; [discriminate|].
  intros H. cbn [is_geo_group] in H. apply andb_true_iff in H as [H Hrun].
  apply andb_true_iff in H as [Hc _].
  unfold strip_chars. cbn [lstrip]. rewrite (upper_not_trimmed c Hc).
  apply (rstrip_ext _ _ is_geo_char).
  - simpl. by rewrite (upper_geo_char c Hc), Hrun.
  - apply geo_char_trimmed.
Qed.

Lemma findall_go_skip (a b : string) :
  findall_go (String.length a) (a +:+ b) = findall_go 0 b.
Proof.
  induction a as [|c a IH]; [reflexivity|].
  rewrite str_app_cons. cbn [String.length findall_go]. exact IH.
Qed.

Lemma findall_go_match (g rest : string) :
  geo_match ("in " +:+ g +:+ rest) = Some g ->
  findall_go 0 ("in " +:+ g +:+ rest) = g :: findall_go 0 rest.
Proof.
  intros Hm.
  change ("in " +:+ g +:+ rest) with (String "i" ("n " +:+ g +:+ rest)) in *.
  cbn [findall_go]. rewrite Hm. f_equal.
  change ("n " +:+ g +:+ rest) with (String "n" (String " " (g +:+ rest))).
  change (2 + String.length g)%nat with (String.length (String "n" (String " " g))).
  rewrite <- (findall_go_skip (String "n" (String " " g)) rest).
  by rewrite !str_app_cons.
Qed.

Lemma findall_go_no_match (c : ascii) (r : string) :
  geo_match (String c r) = None ->
  findall_go 0 (String c r) = findall_go 0 r.
Proof. intros H. cbn [findall_go]. by rewrite H. Qed.

Lemma findall_go_first (s : string) :
  findall_go 0 s = []
  \/ exists gap g rest,
       s = gap +:+ "in " +:+ g +:+ rest
       /\ (forall pre c post, gap = pre +:+ String c post ->
                              geo_match (String c post +:+ "in " +:+ g +:+ rest) = None)
       /\ geo_match ("in " +:+ g +:+ rest) = Some g
       /\ findall_go 0 s = g :: findall_go 0 rest.
Proof.
  induction s as [|c r IH]; [by left|].
  destruct (geo_match (String c r)) as [g|] eqn:Hm.
  - right. destruct (geo_match_spec _ _ Hm) as (rest & Hs & _ & _).
    exists "", g, rest. rewrite Hs in Hm |- *.
    split; [reflexivity|]. split; [|split; [exact Hm|by apply findall_go_match]].
    intros [|? ?] c' post H; discriminate H.
  - rewrite (findall_go_no_match c r Hm).
    destruct IH as [IH | (gap & g & rest & -> & Hgap & Hg & Hall)]; [by left|].
    right. exists (String c gap), g, rest.
    split; [by rewrite str_app_cons|]. split; [|split; [exact Hg|exact Hall]].
    intros [|c0 pre] c' post H.
    + change ("" +:+ String c' post) with (String c' post) in H. rewrite <- H.
      by rewrite str_app_cons.
    + rewrite str_app_cons in H. injection H as -> ->. by apply (Hgap pre).
Qed.

Lemma geo_scan_rest_shorter (gap g rest : string) :
  (String.length rest < String.length (gap +:+ "in " +:+ g +:+ rest))%nat.
Proof. rewrite !str_app_length. cbn [String.length]. lia. Qed.

(** The scan the code performs is such a scan. *)
Lemma findall_geo_scan (s : string) : geo_scan s (findall_go 0 s).
Proof.
  remember (String.length s) as n eqn:Hn. revert s Hn.
  induction n as [n IH] using lt_wf_ind. intros s ->.
  destruct (findall_go_first s) as [Hnil | (gap & g & rest & -> & Hgap & Hg & Hall)].
  - rewrite Hnil. constructor. by apply findall_go_nil.
  - rewrite Hall. constructor; [exact Hgap | exact Hg |].
    apply (IH (String.length rest)); [apply geo_scan_rest_shorter | reflexivity].
Qed.

(** And there is no other. *)
Lemma geo_scan_unique (s : string) (gs : list string) :
  geo_scan s gs -> findall_go 0 s = gs.
Proof.
  induction 1 as [s Hnone | gap g rest gs Hgap Hg _ IH].
  - by apply findall_go_nil.
  - rewrite <- IH. clear IH. induction gap as [|c gap IHgap].
    + by apply findall_go_match.
    + rewrite str_app_cons.
      rewrite findall_go_no_match.
      * apply IHgap. intros pre c' post ->. apply (Hgap (String c pre)).
        by rewrite str_app_cons.
      * rewrite <- str_app_cons. apply (Hgap "" c gap). reflexivity.
Qed.

Lemma geo_scan_groups (s : string) (gs : list string) :
  geo_scan s gs -> Forall (fun g => is_geo_group g = true) gs.
Proof.
  induction 1 as [|gap g rest gs _ Hg _ IH]; constructor; [|exact IH].
  by destruct (geo_match_spec _ _ Hg) as (post & _ & Hgrp & _).
Qed.

Lemma extract_geo_scan (question : string) (gs : list string) :
  geo_scan question gs ->
  _extract_geo_filters question = List.map (rstrip is_blank) gs.
Proof.
  intros Hscan. unfold _extract_geo_filters, findall_geo.
  rewrite (geo_scan_unique _ _ Hscan). apply map_ext_in.
  intros g Hg. apply strip_geo_group.
  pose proof (geo_scan_groups _ _ Hscan) as Hall.
  rewrite List.Forall_forall in Hall. by apply Hall.
Qed.

(** C4, as stated, fails on its own example: the class of the pattern
    contains the space and the letters of " and in ", so the first match
    runs to the end of the question and there is a single term. *)
Lemma extract_geo_example_counterexample :
  _extract_geo_filters "Show rankings in Springfield and in Lakeview"
  <> ["Springfield and"; "Lakeview"].
Proof. vm_compute. discriminate. Qed.

(** C4, amended.  The example question yields the single term
    "Springfield and in Lakeview"; its substring "in Lakeview" matches the
    pattern and is not returned, since it lies inside the first match.  In
    general the extraction returns, in the order of the text, the group
    of each match found by a scan from left to right that resumes where
    the previous match ended, with the trailing spaces of the group
    removed: the terms are those of such a scan, and of any such scan.  A
    match is "in " followed by a capital letter and a non-empty run of
    letters, digits, spaces, hyphens and underscores that cannot be
    extended, so every term returned is the group of such an occurrence,
    and no term is returned exactly when the pattern matches nowhere in
    the question. *)
Theorem extract_geo_filters_spec :
  _extract_geo_filters "Show rankings in Springfield and in Lakeview"
  = ["Springfield and in Lakeview"]
  /\ (forall question term,
         In term (_extract_geo_filters question) ->
         exists pre g post,
           question = pre +:+ "in " +:+ g +:+ post
           /\ is_geo_group g = true
           /\ ends_run post = true
           /\ term = rstrip is_blank g)
  /\ (forall question,
         _extract_geo_filters question = [] <->
         forall pre rest, question = pre +:+ rest -> geo_match rest = None)
  /\ (forall question,
         exists gs, geo_scan question gs
                    /\ _extract_geo_filters question = List.map (rstrip is_blank) gs)
  /\ (forall question gs,
         geo_scan question gs ->
         _extract_geo_filters question = List.map (rstrip is_blank) gs)
  /\ _extract_geo_filters "Clinics in Springfield, then in Lakeview."
     = ["Springfield"; "Lakeview"]
  /\ (geo_match "in Lakeview" = Some "Lakeview"
      /\ ~ In "Lakeview"
             (_extract_geo_filters "Show rankings in Springfield and in Lakeview")).
Proof.
  split; [vm_compute; reflexivity|]. split; [|split; [|split; [|split; [|split]]]].
  - intros question term Hin. unfold _extract_geo_filters in Hin.
    apply in_map_iff in Hin as (g & <- & Hg).
    apply findall_go_sound in Hg as (pre & rest & -> & Hm).
    apply geo_match_spec in Hm as (post & -> & Hgrp & Hend).
    exists pre, g, post. by rewrite (strip_geo_group g Hgrp).
  - intros question. rewrite <- findall_go_nil.
    unfold _extract_geo_filters, findall_geo.
    destruct (findall_go 0 question); simpl; split; congruence.
  - intros question. exists (findall_go 0 question).
    split; [apply findall_geo_scan|]. apply extract_geo_scan, findall_geo_scan.
  - apply extract_geo_scan.
  - vm_compute. reflexivity.
  - split; [vm_compute; reflexivity|]. vm_compute. intros [H | []]. discriminate H.
Qed.

Lemma extract_geo_filters_spec_witness :
  (exists pre g post,
      "Rank the areas in Lakeview  , please" = pre +:+ "in " +:+ g +:+ post
      /\ is_geo_group g = true
      /\ ends_run post = true
      /\ "Lakeview" = rstrip is_blank g)
  /\ _extract_geo_filters "Go in Rome." = List.map (rstrip is_blank) ["Rome"].
Proof.
  split.
  - apply (proj1 (proj2 extract_geo_filters_spec)
             "Rank the areas in Lakeview  , please" "Lakeview").
    vm_compute. left. reflexivity.
  - apply (proj1 (proj2 (proj2 (proj2 (proj2 extract_geo_filters_spec))))
             "Go in Rome." ["Rome"]).
    apply (geo_scan_cons "Go " "Rome" "." []).
    + intros pre c post H.
      repeat (destruct pre as [|? pre]; vm_compute in H;
              [first [discriminate H | injection H as <- <-; reflexivity]
              |first [discriminate H | injection H as <- H]]).
    + reflexivity.
    + apply geo_scan_nil. intros pre rest H.
      repeat (destruct pre as [|? pre]; vm_compute in H;
              [first [discriminate H | subst rest; reflexivity]
              |first [discriminate H | injection H as <- H]]).
Defined.

(** ** The schema digest *)

Lemma contains_cons (h : string) (c : ascii) (s : string) :
  contains h (String c s) = startswith h (String c s) || contains h s.
Proof. reflexivity. Qed.

Lemma contains_nil (h : string) : contains h "" = is_empty h.
Proof. by destruct h. Qed.

(** A character that does not occur in [h] cannot lie inside an occurrence
    of [h]. *)
Lemma startswith_app_sep (h a b : string) (c : ascii) :
  mem_char c h = false ->
  startswith h (a +:+ String c b) = startswith h a.
Proof.
  revert a. induction h as [|x h IH]; intros a Hc; [done|].
  simpl in Hc. apply orb_false_iff in Hc as [Hx Hh].
  destruct a as [|y a].
  - change ("" +:+ String c b) with (String c b). cbn [startswith].
    by rewrite Ascii.eqb_sym, Hx.
  - change (String y a +:+ String c b) with (String y (a +:+ String c b)).
    cbn [startswith]. by rewrite IH.
Qed.

Lemma contains_app_sep (h a b : string) (c : ascii) :
  mem_char c h = false -> is_empty h = false ->
  contains h (a +:+ String c b) = contains h a || contains h b.
Proof.
  intros Hc Hne. induction a as [|y a IH].
  - change ("" +:+ String c b) with (String c b).
    rewrite contains_cons, contains_nil, Hne.
    destruct h as [|x h]; [discriminate Hne|]. cbn [mem_char] in Hc.
    apply orb_false_iff in Hc as [Hx _]. cbn [startswith].
    by rewrite Ascii.eqb_sym, Hx.
  - change (String y a +:+ String c b) with (String y (a +:+ String c b)).
    rewrite !contains_cons, IH.
    change (String y (a +:+ String c b)) with (String y a +:+ String c b).
    rewrite (startswith_app_sep h (String y a) b c Hc).
    by rewrite orb_assoc.
Qed.

Lemma has_header_mono (a b : string) :
  substr a b -> has_header b = false -> has_header a = false.
Proof.
  unfold has_header. intros Hsub H.
  apply orb_false_iff in H as [H H3]. apply orb_false_iff in H as [H1 H2].
  assert (forall h, contains h b = false -> contains h a = false) as Hm.
  { intros h Hb. destruct (contains h a) eqn:E; [|done].
    by rewrite (contains_mono h a b Hsub E) in Hb. }
  by rewrite (Hm _ H1), (Hm _ H2), (Hm _ H3).
Qed.

(** The headers contain neither a comma nor a line break, and none starts
    with a space: joining header-free texts makes no header. *)
Lemma has_header_app_nl (a b : string) :
  has_header (a +:+ String nl b) = has_header a || has_header b.
Proof.
  unfold has_header. rewrite !contains_app_sep by reflexivity.
  destruct (contains "Node properties:" a), (contains "Node properties:" b),
    (contains "Relationship properties:" a), (contains "Relationship properties:" b),
    (contains "The relationships:" a), (contains "The relationships:" b); reflexivity.
Qed.

Lemma has_header_app_comma (a b : string) :
  has_header (a +:+ ", " +:+ b) = has_header a || has_header b.
Proof.
  change (a +:+ ", " +:+ b) with (a +:+ String "," (String " " b)).
  unfold has_header. rewrite !contains_app_sep by reflexivity.
  rewrite !(contains_cons _ " " b). cbn [startswith Ascii.eqb Bool.eqb andb orb].
  destruct (contains "Node properties:" a), (contains "Node properties:" b),
    (contains "Relationship properties:" a), (contains "Relationship properties:" b),
    (contains "The relationships:" a), (contains "The relationships:" b); reflexivity.
Qed.

Lemma has_header_join_nl (l : list string) :
  Forall (fun x => has_header x = false) l ->
  has_header (join (String nl "") l) = false.
Proof.
  induction 1 as [|x l Hx Hl IH]; [reflexivity|].
  destruct l as [|y l]; [exact Hx|].
  change (join (String nl "") (x :: y :: l))
    with (x +:+ String nl (join (String nl "") (y :: l))).
  by rewrite has_header_app_nl, Hx, IH.
Qed.

Lemma has_header_join_comma (l : list string) :
  Forall (fun x => has_header x = false) l ->
  has_header (join ", " l) = false.
Proof.
  induction 1 as [|x l Hx Hl IH]; [reflexivity|].
  destruct l as [|y l]; [exact Hx|].
  change (join ", " (x :: y :: l)) with (x +:+ ", " +:+ join ", " (y :: l)).
  by rewrite has_header_app_comma, Hx, IH.
Qed.

Lemma has_header_cons (c : ascii) (s : string) :
  has_header (String c s)
  = startswith "Node properties:" (String c s)
    || startswith "Relationship properties:" (String c s)
    || startswith "The relationships:" (String c s)
    || has_header s.
Proof.
  unfold has_header. rewrite !contains_cons.
  destruct (startswith "Node properties:" (String c s)),
    (startswith "Relationship properties:" (String c s)),
    (startswith "The relationships:" (String c s)),
    (contains "Node properties:" s), (contains "Relationship properties:" s);
    reflexivity.
Qed.

(** Steps over one known character that starts no header. *)
Ltac peel_char :=
  rewrite has_header_cons; cbn [startswith Ascii.eqb Bool.eqb andb orb].

Lemma has_header_node_labels (x : string) :
  has_header ("Node labels: " +:+ x) = has_header x.
Proof.
  change ("Node labels: " +:+ x)
    with (String "N" (String "o" (String "d" (String "e" (String " " (String "l"
         (String "a" (String "b" (String "e" (String "l" (String "s" (String ":"
         (String " " x))))))))))))).
  do 13 peel_char. reflexivity.
Qed.

Lemma has_header_rel_types (x : string) :
  has_header ("Relationship types: " +:+ x) = has_header x.
Proof.
  change ("Relationship types: " +:+ x)
    with (String "R" (String "e" (String "l" (String "a" (String "t" (String "i"
         (String "o" (String "n" (String "s" (String "h" (String "i" (String "p"
         (String " " (String "t" (String "y" (String "p" (String "e" (String "s"
         (String ":" (String " " x)))))))))))))))))))).
  do 20 peel_char. reflexivity.
Qed.

Lemma has_header_key_relationships (x : string) :
  has_header ("Key relationships:" +:+ String nl "" +:+ x) = has_header x.
Proof.
  change ("Key relationships:" +:+ String nl "" +:+ x)
    with ("Key relationships:" +:+ String nl x).
  by rewrite has_header_app_nl.
Qed.

Lemma backtick_field_substr (line field : string) :
  backtick_field line = Some field -> substr field line.
Proof.
  unfold backtick_field. destruct (contains "`" line); [|discriminate].
  destruct (split_on "`" line) as [|f0 [|f1 fs]] eqn:E; try discriminate.
  intros [= <-]. apply (split_on_substr "`"). rewrite E. right. by left.
Qed.

Lemma scan_line_clean (v : scan) (line : string) :
  scan_clean v -> scan_clean (scan_line v line).
Proof.
  intros (Hn & Ht & Hr). unfold scan_line.
  destruct (contains "Node properties:" line) eqn:H1; [done|].
  destruct (contains "Relationship properties:" line) eqn:H2; [done|].
  destruct (contains "The relationships:" line) eqn:H3; [done|].
  assert (has_header line = false) as Hline by (unfold has_header; by rewrite H1, H2, H3).
  assert (forall f, backtick_field line = Some f -> has_header f = false) as Hfield.
  { intros f Hf. eapply has_header_mono; [by apply backtick_field_substr|done]. }
  destruct (in_node_props v && startswith ":`" (strip line)).
  { destruct (backtick_field line) as [label|] eqn:E; [|done].
    destruct (is_empty label); [done|].
    split; [|done]. simpl. apply Forall_app. split; [done|]. constructor; auto. }
  destruct (in_rel_props v && startswith ":`" (strip line)).
  { destruct (backtick_field line) as [rel_type|] eqn:E; [|done].
    destruct (is_empty rel_type); [done|].
    split; [done|]. split; [|done]. simpl. apply Forall_app. split; [done|].
    constructor; auto. }
  destruct (in_rels v && contains ")-[:" line); [|done].
  split; [done|]. split; [done|]. simpl. apply Forall_app. split; [done|].
  constructor; [|done]. eapply has_header_mono; [apply strip_substr|done].
Qed.

Lemma fold_scan_clean (lines : list string) (v : scan) :
  scan_clean v -> scan_clean (fold_left scan_line lines v).
Proof.
  revert v. induction lines as [|l ls IH]; intros v Hv; [done|].
  simpl. by apply IH, scan_line_clean.
Qed.

(** Without a header line the loop never enters a section. *)
Lemma fold_scan_no_header (lines : list string) :
  Forall (fun l => has_header l = false) lines ->
  fold_left scan_line lines scan0 = scan0.
Proof.
  induction 1 as [|l ls Hl _ IH]; [done|].
  simpl. replace (scan_line scan0 l) with scan0; [done|].
  unfold has_header in Hl.
  apply orb_false_iff in Hl as [Hl H3]. apply orb_false_iff in Hl as [H1 H2].
  unfold scan_line. by rewrite H1, H2, H3.
Qed.

Lemma insert_sorted_in (x y : string) (l : list string) :
  In y (insert_sorted x l) -> y = x \/ In y l.
Proof.
  induction l as [|z l IH]; simpl.
  - intros [-> | []]. by left.
  - destruct (String.compare x z); simpl.
    + tauto.
    + intros [-> | H]; [by left | by right].
    + intros [-> | H]; [right; by left|].
      destruct (IH H) as [-> | H']; [by left | right; by right].
Qed.

Lemma sorted_set_in (l : list string) (y : string) :
  In y (sorted_set l) -> In y l.
Proof.
  induction l as [|x l IH]; simpl; [done|].
  intros H. apply insert_sorted_in in H as [-> | H]; [by left | right; by apply IH].
Qed.

Lemma Forall_sorted_set (P : string -> Prop) (l : list string) :
  Forall P l -> Forall P (sorted_set l).
Proof.
  rewrite !List.Forall_forall. intros H y Hy. by apply H, sorted_set_in.
Qed.

Lemma summary_parts_clean (v : scan) :
  scan_clean v -> Forall (fun p => has_header p = false) (summary_parts v).
Proof.
  intros (Hn & Ht & Hr). unfold summary_parts.
  apply Forall_app. split; [|apply Forall_app; split].
  - destruct (node_labels v) as [|x l]; [constructor|]. constructor; [|constructor].
    rewrite has_header_node_labels. by apply has_header_join_comma, Forall_sorted_set.
  - destruct (rel_types v) as [|x l]; [constructor|]. constructor; [|constructor].
    rewrite has_header_rel_types. by apply has_header_join_comma, Forall_sorted_set.
  - destruct (relationships v) as [|x l]; [constructor|]. constructor; [|constructor].
    rewrite has_header_key_relationships. by apply has_header_join_nl, Forall_take.
Qed.

(** A digest begins with the first letter of one of its three titles. *)
Lemma summary_parts_head (v : scan) (p : string) (ps : list string) :
  summary_parts v = p :: ps ->
  exists c t, p = String c t /\ mem_char c "NRK" = true.
Proof.
  unfold summary_parts.
  destruct (node_labels v); simpl.
  - destruct (rel_types v); simpl.
    + destruct (relationships v); simpl; [discriminate|]. intros [= <- _].
      eexists _, _. split; [reflexivity | reflexivity].
    + intros [= <- _]. eexists _, _. split; [reflexivity | reflexivity].
  - intros [= <- _]. eexists _, _. split; [reflexivity | reflexivity].
Qed.

Lemma join_head (sep : string) (c : ascii) (t : string) (ps : list string) :
  exists t', join sep (String c t :: ps) = String c t'.
Proof. destruct ps; simpl; eauto. Qed.

Lemma lines_no_header (s : string) :
  has_header s = false ->
  Forall (fun l => has_header l = false) (split_on nl s).
Proof.
  intros Hh. apply List.Forall_forall. intros l Hl.
  eapply has_header_mono; [by eapply split_on_substr | exact Hh].
Qed.

Lemma summarize_no_header (s : string) :
  Forall (fun l => has_header l = false) (split_on nl s) ->
  is_empty s || String.eqb s SCHEMA_NOT_AVAILABLE = false ->
  _summarize_schema_for_tool_selection s = SUMMARY_NOT_AVAILABLE.
Proof.
  intros Hh Hs. unfold _summarize_schema_for_tool_selection. rewrite Hs.
  by rewrite fold_scan_no_header.
Qed.

(** A digest made of parts is neither empty nor one of the two sentinels. *)
Lemma digest_head (v : scan) (p : string) (ps : list string) :
  summary_parts v = p :: ps ->
  exists c t, join (String nl "") (p :: ps) = String c t /\ mem_char c "NRK" = true.
Proof.
  intros E. destruct (summary_parts_head v p ps E) as (c & t & -> & Hc).
  destruct (join_head (String nl "") c t ps) as (t' & ->). eauto.
Qed.

Lemma summarize_twice (s : string) :
  _summarize_schema_for_tool_selection (_summarize_schema_for_tool_selection s)
  = if is_empty s || String.eqb s SCHEMA_NOT_AVAILABLE then s
    else SUMMARY_NOT_AVAILABLE.
Proof.
  unfold _summarize_schema_for_tool_selection at 2.
  destruct (is_empty s || String.eqb s SCHEMA_NOT_AVAILABLE) eqn:Hs.
  - unfold _summarize_schema_for_tool_selection. by rewrite Hs.
  - set (v := fold_left scan_line (split_on nl s) scan0).
    assert (scan_clean v) as Hv.
    { apply fold_scan_clean. repeat split; constructor. }
    destruct (summary_parts v) as [|p ps] eqn:E; [reflexivity|].
    apply summarize_no_header.
    + apply lines_no_header, has_header_join_nl. rewrite <- E.
      by apply summary_parts_clean.
    + destruct (digest_head v p ps E) as (c & t & -> & Hc).
      unfold SCHEMA_NOT_AVAILABLE. cbn [is_empty orb String.eqb].
      destruct (Ascii.eqb c "G") eqn:Ec; [|reflexivity].
      apply Ascii.eqb_eq in Ec as ->. discriminate Hc.
Qed.

(** C8. The schema summarizer returns the empty text and the text
    "Graph schema not available." unchanged; on any other text it returns
    "Graph schema summary not available." exactly when the loop collected
    no label, no relationship type and no relationship, which is the case
    whenever no line contains a section header; and summarizing a second
    time is harmless: a digest contains no section header, so the second
    pass yields that sentinel (or the unchanged input, for the two texts
    returned unchanged). *)
Theorem summarize_schema_sentinels :
  _summarize_schema_for_tool_selection "" = ""
  /\ _summarize_schema_for_tool_selection SCHEMA_NOT_AVAILABLE = SCHEMA_NOT_AVAILABLE
  /\ (forall s,
         is_empty s || String.eqb s SCHEMA_NOT_AVAILABLE = false ->
         (_summarize_schema_for_tool_selection s = SUMMARY_NOT_AVAILABLE <->
          summary_parts (fold_left scan_line (split_on nl s) scan0) = []))
  /\ (forall s,
         is_empty s || String.eqb s SCHEMA_NOT_AVAILABLE = false ->
         Forall (fun line => has_header line = false) (split_on nl s) ->
         _summarize_schema_for_tool_selection s = SUMMARY_NOT_AVAILABLE)
  /\ (forall s,
         is_empty s || String.eqb s SCHEMA_NOT_AVAILABLE = false ->
         Forall (fun line => has_header line = false)
           (split_on nl (_summarize_schema_for_tool_selection s))
         /\ _summarize_schema_for_tool_selection
              (_summarize_schema_for_tool_selection s) = SUMMARY_NOT_AVAILABLE)
  /\ (forall s,
         _summarize_schema_for_tool_selection
           (_summarize_schema_for_tool_selection s)
         = if is_empty s || String.eqb s SCHEMA_NOT_AVAILABLE then s
           else SUMMARY_NOT_AVAILABLE).
Proof.
  split; [reflexivity|]. split; [reflexivity|]. split; [|split; [|split]].
  - intros s Hs. unfold _summarize_schema_for_tool_selection. rewrite Hs.
    destruct (summary_parts _) as [|p ps] eqn:E; [done|].
    destruct (digest_head _ p ps E) as (c & t & -> & Hc).
    split; [|discriminate]. unfold SUMMARY_NOT_AVAILABLE. intros [= -> _].
    discriminate Hc.
  - intros s Hs Hlines. by apply summarize_no_header.
  - intros s Hs. split.
    + unfold _summarize_schema_for_tool_selection. rewrite Hs.
      apply lines_no_header.
      destruct (summary_parts _) as [|p ps] eqn:E; [reflexivity|].
      apply has_header_join_nl. rewrite <- E.
      apply summary_parts_clean, fold_scan_clean. repeat split; constructor.
    + by rewrite summarize_twice, Hs.
  - apply summarize_twice.
Qed.

Lemma summarize_schema_sentinels_witness :
  _summarize_schema_for_tool_selection
    (_summarize_schema_for_tool_selection
       (":`Person` {name: STRING}" +:+ String nl "The relationships:"
        +:+ String nl "(:Person)-[:KNOWS]->(:Person)"))
  = SUMMARY_NOT_AVAILABLE.
Proof.
  apply (proj1 (proj2 (proj2 (proj2 (proj2 summarize_schema_sentinels))))).
  reflexivity.
Defined.

(** ** Construction of the registry *)

Lemma od_get_od_set {V : Type} (n k : string) (v : V) (d : list (string * V)) :
  od_get n (od_set k v d) = if String.eqb n k then Some v else od_get n d.
Proof.
  induction d as [|[k' v'] d IH]; simpl; [done|].
  destruct (String.eqb k k') eqn:E; simpl.
  - apply String.eqb_eq in E as <-. by destruct (String.eqb n k).
  - rewrite IH. destruct (String.eqb n k') eqn:E'; [|done].
    apply String.eqb_eq in E' as ->.
    destruct (String.eqb k' k) eqn:E''; [|done].
    apply String.eqb_eq in E'' as ->. by rewrite String.eqb_refl in E.
Qed.

Lemma od_set_not_nil {V : Type} (k : string) (v : V) (d : list (string * V)) :
  od_set k v d <> [].
Proof. destruct d as [|[k' v'] d]; simpl; [done|]. by destruct (String.eqb k k'). Qed.

Lemma fold_registry_not_nil (l : list ToolConfig) (d : list (string * ToolConfig)) :
  d <> [] -> fold_left (fun d c => od_set (name c) c d) l d <> [].
Proof.
  revert d. induction l as [|c l IH]; intros d Hd; [done|].
  simpl. apply IH, od_set_not_nil.
Qed.

Lemma registry_of_nil (l : list ToolConfig) : registry_of l = [] <-> l = [].
Proof.
  split; [|by intros ->]. destruct l as [|c l]; [done|]. intros H.
  exfalso. revert H. unfold registry_of. cbn [fold_left].
  apply fold_registry_not_nil, od_set_not_nil.
Qed.

Lemma fold_registry_get (n : string) (l : list ToolConfig)
    (d : list (string * ToolConfig)) :
  od_get n (fold_left (fun d c => od_set (name c) c d) l d)
  = match last_named n l with
    | Some c => Some c
    | None => od_get n d
    end.
Proof.
  unfold last_named. revert d. induction l as [|c l IH]; intros d; [done|].
  cbn [fold_left rev]. rewrite IH, find_app_first.
  destruct (List.find _ (rev l)); [done|].
  cbn [List.find]. rewrite od_get_od_set. by destruct (String.eqb n (name c)).
Qed.

Lemma registry_of_get (n : string) (l : list ToolConfig) :
  od_get n (registry_of l) = last_named n l.
Proof.
  unfold registry_of. rewrite fold_registry_get. by destruct (last_named n l).
Qed.

Lemma last_named_in (n : string) (l : list ToolConfig) (c : ToolConfig) :
  last_named n l = Some c -> In c l /\ name c = n.
Proof.
  unfold last_named. intros H. apply find_some in H as [Hin Hn].
  apply in_rev in Hin. apply String.eqb_eq in Hn. done.
Qed.

Lemma last_named_unique (l : list ToolConfig) (c : ToolConfig) :
  List.NoDup (List.map name l) -> In c l -> last_named (name c) l = Some c.
Proof.
  intros Hnd Hin. unfold last_named.
  destruct (List.find _ (rev l)) as [c'|] eqn:F.
  - apply find_some in F as [Hin' Hn]. apply in_rev in Hin'.
    apply String.eqb_eq in Hn. f_equal.
    (* two members with the same name coincide *)
    clear -Hnd Hin Hin' Hn. induction l as [|x l IH]; [done|].
    apply NoDup_cons_iff in Hnd as [Hx Hnd]. simpl in Hx.
    destruct Hin as [-> | Hin], Hin' as [-> | Hin']; [done| | |by apply IH].
    + exfalso. apply Hx. rewrite Hn. by apply in_map.
    + exfalso. apply Hx. rewrite <- Hn. by apply in_map.
  - apply in_rev in Hin. apply (find_none _ _ F c) in Hin.
    by rewrite String.eqb_refl in Hin.
Qed.

Lemma init_res (tool_configs : option (list ToolConfig)) (ident : string)
    (allowed : option (list string)) (use_llm : bool) (s : state) :
  res (__init__ tool_configs ident allowed use_llm s)
  = match registry_of (effective_configs tool_configs allowed s) with
    | [] => Raise (ValueError "No graph analytics tools configured or allowed.")
    | r => Ok (mkAgent ident (list_to_set (default [] allowed)) use_llm r)
    end.
Proof.
  unfold __init__, effective_configs, supplied_or_default.
  destruct tool_configs as [l|].
  - cbn [bind ret res st evs]. by destruct (registry_of _).
  - cbn [bind ret alloc res st evs heap client _build_default_configs].
    by destruct (registry_of _).
Qed.

(** C5, as stated, fails when two supplied configurations share a name:
    construction succeeds, [rank_v1] belongs to the effective list, and
    the registry maps its name to [rank_v2], the later of the two. *)
Lemma init_duplicate_names_counterexample :
  exists agent,
    res (__init__ (Some [rank_v1; rank_v2]) "name" None true initial_state) = Ok agent
    /\ In rank_v1 (effective_configs (Some [rank_v1; rank_v2]) None initial_state)
    /\ od_get (name rank_v1) (_tool_configs agent) = Some rank_v2
    /\ od_get (name rank_v1) (_tool_configs agent) <> Some rank_v1.
Proof.
  eexists. split; [reflexivity|]. split; [left; reflexivity|].
  split; [reflexivity|]. discriminate.
Qed.

(** C5, amended.  The effective list is the supplied list (the built-in
    configurations when none is supplied), filtered by the allow-list when
    the allow-list is not empty.  Construction raises, with a [ValueError],
    exactly when the effective list is empty.  Otherwise it returns an
    agent whose registry maps every name to the last configuration of the
    effective list bearing that name, and to nothing else; so when the
    names of the effective list are distinct, each configuration is found
    under its own name. *)
Theorem init_registry_spec (tool_configs : option (list ToolConfig))
    (ident : string) (allowed : option (list string)) (use_llm : bool) (s : state) :
  let eff := effective_configs tool_configs allowed s in
  let outcome := res (__init__ tool_configs ident allowed use_llm s) in
  ((exists e, outcome = Raise e) <-> eff = [])
  /\ (eff = [] ->
      outcome = Raise (ValueError "No graph analytics tools configured or allowed."))
  /\ (eff <> [] ->
      exists agent,
        outcome = Ok agent
        /\ (forall n, od_get n (_tool_configs agent) = last_named n eff)
        /\ (forall n cfg, od_get n (_tool_configs agent) = Some cfg ->
                          In cfg eff /\ name cfg = n)
        /\ (List.NoDup (List.map name eff) ->
            forall cfg, In cfg eff ->
                        od_get (name cfg) (_tool_configs agent) = Some cfg)).
Proof.
  intros eff outcome. subst outcome. rewrite init_res. fold eff.
  destruct (registry_of eff) as [|p r] eqn:E.
  - apply registry_of_nil in E. split; [split; [done | eauto]|].
    split; [done|]. intros Hne. by destruct Hne.
  - assert (eff <> []) as Hne.
    { intros H. apply registry_of_nil in H. congruence. }
    split; [split; [by intros (e & He) | done]|].
    split; [done|]. intros _. eexists. split; [reflexivity|].
    cbn [_tool_configs]. rewrite <- E.
    split; [intros n; apply registry_of_get|]. split.
    + intros n cfg. rewrite registry_of_get. apply last_named_in.
    + intros Hnd cfg Hin. rewrite registry_of_get. by apply last_named_unique.
Qed.

Lemma init_registry_spec_witness :
  exists agent,
    res (__init__ (Some (default_configs 1 2 3 4)) "name" (Some ["leiden"]) true
           initial_state) = Ok agent
    /\ od_get "leiden" (_tool_configs agent) = Some leiden_config.
Proof.
  assert (effective_configs (Some (default_configs 1 2 3 4)) (Some ["leiden"])
            initial_state = [leiden_config]) as Heff by reflexivity.
  destruct (proj2 (proj2 (init_registry_spec (Some (default_configs 1 2 3 4)) "name"
                            (Some ["leiden"]) true initial_state)))
    as (agent & Hres & _ & _ & Hget).
  - rewrite Heff. discriminate.
  - exists agent. split; [exact Hres|]. rewrite Heff in Hget.
    apply (Hget ltac:(repeat constructor; simpl; tauto) leiden_config).
    left. reflexivity.
Defined.

(** ** Summaries *)

Lemma build_summary_generic (config : ToolConfig) (content : list pyitem) :
  match content with
  | [] => Ok (PStr ("Tool '" +:+ name config +:+ "' returned no results."))
  | first :: others =>
      match others, od_get "text" first with
      | [], Some text => Ok text
      | _, _ =>
          Ok (PStr ("Tool '" +:+ name config +:+ "' returned "
                    +:+ str_of_len (length content) +:+ " rows. "
                    +:+ "First entry: "
                    +:+ Render.json_dumps (PList (List.map PDict (take 1 content)))))
      end
  end = Ok (generic_summary config content).
Proof.
  destruct content as [|first [|second others]]; [reflexivity| |reflexivity].
  unfold generic_summary. by destruct (od_get "text" first).
Qed.

(** C7. Summarization never raises; and when the configuration has a
    dedicated summarizer that raises on the content, [_build_summary]
    returns the generic summary: the no-results message for an empty
    content, the text of the only item when that item has a ["text"]
    entry, and otherwise the row count followed by the JSON rendering of
    the list holding the first item. *)
Theorem build_summary_never_raises :
  (forall config content question,
      exists text, _build_summary config content question = Ok text)
  /\ (forall config content question builder e,
         summary_builder config = Some builder ->
         builder content = Raise e ->
         _build_summary config content question = Ok (generic_summary config content)).
Proof.
  split.
  - intros config content question. unfold _build_summary.
    rewrite build_summary_generic.
    destruct (summary_builder config) as [builder|]; [|eauto].
    destruct (builder content); simpl; eauto.
  - intros config content question builder e Hb He. unfold _build_summary.
    rewrite build_summary_generic, Hb, He. reflexivity.
Qed.

Lemma build_summary_never_raises_witness :
  _build_summary article_rank_config [[("json", PList [PInt 1])]] "Who ranks first?"
  = Ok (PStr ("Tool 'article_rank' returned 1 rows. First entry: [{"
              +:+ quoted "json" +:+ ": [1]}]")).
Proof.
  apply (proj2 build_summary_never_raises article_rank_config
           [[("json", PList [PInt 1])]] "Who ranks first?"
           Summarizers._summarize_rankings
           (AttributeError "'int' object has no attribute 'get'")).
  - reflexivity.
  - reflexivity.
Defined.

(** ** The stages of [run] *)

Lemma run_stages (self : GraphAnalyticsAgent) (w : World) (question : string)
    (tool_name : option string) (inputs : option loc) :
  run self w question tool_name inputs
  = (let* empty := alloc ∅ in
     let* picked := run_select self w question tool_name empty in
     let* t := run_resolve self question (fst picked) in
     match od_get t (_tool_configs self) with
     | None => raise (GraphAnalyticsAgentError ("Unsupported tool: " +:+ t) None)
     | Some config => run_execute self w question t config (snd picked) inputs
     end).
Proof. reflexivity. Qed.

Lemma bind_ok {A B : Type} (m : M A) (k : A -> M B) (s s' : state) (a : A)
    (es : list event) :
  m s = mkOutcome (Ok a) s' es ->
  bind m k s = mkOutcome (res (k a s')) (st (k a s')) (es ++ evs (k a s')).
Proof. intros H. unfold bind. by rewrite H. Qed.

Lemma bind_raise {A B : Type} (m : M A) (k : A -> M B) (s s' : state) (e : exn)
    (es : list event) :
  m s = mkOutcome (Raise e) s' es ->
  bind m k s = mkOutcome (Raise e) s' es.
Proof. intros H. unfold bind. by rewrite H. Qed.

Lemma outcome_eta {A : Type} (o : outcome A) : mkOutcome (res o) (st o) (evs o) = o.
Proof. by destruct o. Qed.

(** ** Dictionaries in the heap *)

Lemma setdefault_union (d : gmap string pyval) (k : string) (v : pyval) :
  (if bool_decide (k ∈ dom d) then d else <[k := v]> d) = d ∪ {[k := v]}.
Proof.
  case_bool_decide as Hk.
  - apply elem_of_dom in Hk as [x Hx]. apply map_eq. intros i.
    rewrite lookup_union. destruct (decide (i = k)) as [->|Hne].
    + rewrite Hx. by rewrite lookup_singleton_eq.
    + rewrite lookup_singleton_ne by done. by destruct (d !! i).
  - apply not_elem_of_dom in Hk. by apply insert_union_singleton_r.
Qed.

Lemma deref_lookup (s : state) (l : loc) (d : gmap string pyval) :
  heap s !! l = Some d -> deref s l = d.
Proof. unfold deref. by intros ->. Qed.

Lemma lookup_deref (s : state) (l : loc) :
  l ∈ dom (heap s) -> heap s !! l = Some (deref s l).
Proof. intros [d Hd]%elem_of_dom. by rewrite (deref_lookup s l d Hd). Qed.

Lemma fresh_not_allocated (s : state) : heap s !! fresh (dom (heap s)) = None.
Proof. apply not_elem_of_dom, is_fresh. Qed.

Lemma allocated_not_fresh (s : state) (l : loc) :
  l ∈ dom (heap s) -> l <> fresh (dom (heap s)).
Proof. intros H ->. by apply (is_fresh (dom (heap s))). Qed.

Lemma dict_setdefault_eq (l : loc) (k : string) (v : pyval) (s : state)
    (d : gmap string pyval) :
  heap s !! l = Some d ->
  dict_setdefault l k v s
  = mkOutcome (Ok tt) (mkState (<[l := d ∪ {[k := v]}]> (heap s)) (client s)) [].
Proof.
  intros Hl. unfold dict_setdefault, dict_contains, dict_setitem, skip.
  cbn [bind ret read write res st evs heap client app].
  rewrite (deref_lookup s l d Hl), <- setdefault_union.
  case_bool_decide; cbn [bind ret read write res st evs heap client app].
  - by rewrite insert_id; [destruct s|].
  - by rewrite (deref_lookup s l d Hl).
Qed.

Lemma update_if_truthy_eq (l : loc) (src : option loc) (s : state)
    (d : gmap string pyval) :
  heap s !! l = Some d ->
  update_if_truthy l src s
  = mkOutcome (Ok tt)
      (mkState (<[l := deref_opt s src ∪ d]> (heap s)) (client s)) [].
Proof.
  intros Hl. unfold update_if_truthy.
  assert (mkState (<[l := d]> (heap s)) (client s) = s) as Hid.
  { rewrite insert_id by done. by destruct s. }
  destruct src as [o|]; cbn [deref_opt].
  - unfold dict_bool, dict_update, skip.
    cbn [bind ret read write res st evs heap client app].
    case_bool_decide as He; cbn [negb bind ret read write res st evs heap client app].
    + apply dom_empty_inv_L in He. rewrite He, (left_id_L ∅ (∪)), Hid. done.
    + by rewrite (deref_lookup s l d Hl).
  - unfold skip, ret. by rewrite (left_id_L ∅ (∪)), Hid.
Qed.

Lemma dict_copy_eq (src : loc) (s : state) :
  dict_copy src s
  = mkOutcome (Ok (fresh (dom (heap s))))
      (mkState (<[fresh (dom (heap s)) := deref s src]> (heap s)) (client s)) [].
Proof. reflexivity. Qed.

Lemma dict_contains_eq (l : loc) (k : string) (s : state) (d : gmap string pyval) :
  heap s !! l = Some d ->
  dict_contains l k s = mkOutcome (Ok (bool_decide (k ∈ dom d))) s [].
Proof.
  intros Hl. unfold dict_contains. cbn [bind ret read res st evs app].
  by rewrite (deref_lookup s l d Hl).
Qed.

Lemma set_if_absent_eq (l : loc) (k : string) (v : pyval) (s : state)
    (d : gmap string pyval) :
  heap s !! l = Some d ->
  (if bool_decide (k ∈ dom d) then skip else dict_setitem l k v) s
  = mkOutcome (Ok tt) (mkState (<[l := d ∪ {[k := v]}]> (heap s)) (client s)) [].
Proof.
  intros Hl. rewrite <- setdefault_union. case_bool_decide.
  - unfold skip, ret. by rewrite insert_id; [destruct s|].
  - unfold dict_setitem. cbn [bind ret read write res st evs heap client app].
    by rewrite (deref_lookup s l d Hl).
Qed.

Lemma deref_opt_insert_fresh (s : state) (src : option loc) (l : loc)
    (d : gmap string pyval) :
  (forall o, src = Some o -> o <> l) ->
  deref_opt (mkState (<[l := d]> (heap s)) (client s)) src = deref_opt s src.
Proof.
  intros Hne. destruct src as [o|]; [|done]. unfold deref_opt, deref. cbn [heap].
  assert (l <> o) as Hlo by (intros ->; by apply (Hne o)).
  by rewrite lookup_insert_ne.
Qed.

(** Runs one step whose outcome is known. *)
Ltac step H :=
  rewrite (bind_ok _ _ _ _ _ _ H); cbn [res st evs heap client app].

Lemma geo_layer_unions (A F : pyval) :
  ({[ "nodeLabels" := A; "filterNames" := F ]} : gmap string pyval)
  = {[ "nodeLabels" := A ]} ∪ {[ "filterNames" := F ]}.
Proof. by rewrite insert_union_singleton_l. Qed.

(** [_prepare_inputs] allocates one dictionary, fills it and returns it:
    it raises nothing and asks nothing of the collaborators. *)
Lemma prepare_inputs_eq (self : GraphAnalyticsAgent) (config : ToolConfig)
    (question : string) (overrides : option loc) (s : state) :
  (forall o, overrides = Some o -> o ∈ dom (heap s)) ->
  _prepare_inputs self config question overrides s
  = mkOutcome (Ok (fresh (dom (heap s))))
      (mkState (<[fresh (dom (heap s)) :=
                   deref_opt s overrides
                   ∪ (deref s (defaults config)
                      ∪ (identifier_layer self ∪ geo_layer question))]> (heap s))
         (client s)) [].
Proof.
  intros Hov. unfold _prepare_inputs.
  set (l := fresh (dom (heap s))). set (dflt := deref s (defaults config)).
  assert (forall o, overrides = Some o -> o <> l) as Hne.
  { intros o Ho. by apply allocated_not_fresh, Hov. }
  step (dict_copy_eq (defaults config) s). fold l dflt.
  pose (dI := dflt ∪ ({[ "nodeIdentifierProperty" :=
                          PStr (_default_identifier_property self) ]}
                      : gmap string pyval)).
  assert (forall (h : gmap loc (gmap string pyval)) d c,
            heap (mkState (<[l := d]> h) c) !! l = Some d) as Hl.
  { intros h d c. apply lookup_insert_eq. }
  step (dict_contains_eq l "nodeIdentifierProperty"
          (mkState (<[l := dflt]> (heap s)) (client s)) dflt (Hl _ _ _)).
  step (set_if_absent_eq l "nodeIdentifierProperty"
          (PStr (_default_identifier_property self))
          (mkState (<[l := dflt]> (heap s)) (client s)) dflt (Hl _ _ _)).
  rewrite insert_insert_eq. fold dI. unfold geo_layer, identifier_layer.
  destruct (_extract_geo_filters question) as [|g gs] eqn:Eg.
  - step (eq_refl (skip (mkState (<[l := dI]> (heap s)) (client s)))).
    step (update_if_truthy_eq l overrides
            (mkState (<[l := dI]> (heap s)) (client s)) dI (Hl _ _ _)).
    rewrite insert_insert_eq, (deref_opt_insert_fresh s overrides l _ Hne).
    unfold ret. by rewrite (right_id_L ∅ (∪)).
  - set (A := PList [PStr "Area"; PStr "Municipality"]).
    set (F := PList (List.map PStr (g :: gs))).
    rewrite (bind_ok _ _ _
               (mkState (<[l := (dI ∪ {[ "nodeLabels" := A ]})
                                ∪ {[ "filterNames" := F ]}]> (heap s)) (client s))
               tt []); cycle 1.
    { step (dict_setdefault_eq l "nodeLabels" A
              (mkState (<[l := dI]> (heap s)) (client s)) dI (Hl _ _ _)).
      rewrite insert_insert_eq.
      rewrite (dict_setdefault_eq l "filterNames" F
                 (mkState (<[l := dI ∪ {[ "nodeLabels" := A ]}]> (heap s)) (client s))
                 (dI ∪ {[ "nodeLabels" := A ]}) (Hl _ _ _)).
      cbn [res st evs heap client app]. by rewrite insert_insert_eq. }
    cbn [res st evs heap client app].
    step (update_if_truthy_eq l overrides
            (mkState (<[l := (dI ∪ {[ "nodeLabels" := A ]})
                             ∪ {[ "filterNames" := F ]}]> (heap s)) (client s))
            _ (Hl _ _ _)).
    rewrite insert_insert_eq, (deref_opt_insert_fresh s overrides l _ Hne).
    unfold ret, dI. by rewrite geo_layer_unions, !(assoc_L (∪)).
Qed.

Lemma deref_insert_ne (s : state) (l l' : loc) (d : gmap string pyval) (c : bool) :
  l' <> l -> deref (mkState (<[l := d]> (heap s)) c) l' = deref s l'.
Proof. intros Hne. unfold deref. cbn [heap]. by rewrite lookup_insert_ne. Qed.

Lemma deref_insert_eq (h : gmap loc (gmap string pyval)) (l : loc)
    (d : gmap string pyval) (c : bool) :
  deref (mkState (<[l := d]> h) c) l = d.
Proof. unfold deref. cbn [heap]. by rewrite lookup_insert_eq. Qed.

(** The first half of the execution stage: two dictionaries are
    allocated, the merged suggestions and the prepared arguments. *)
Lemma run_execute_eq (self : GraphAnalyticsAgent) (w : World) (question : string)
    (t : string) (config : ToolConfig) (li : loc) (inputs : option loc) (s : state) :
  (forall i, inputs = Some i -> i ∈ dom (heap s)) ->
  defaults config ∈ dom (heap s) ->
  let l1 := fresh (dom (heap s)) in
  let h1 := <[l1 := deref_opt s inputs ∪ deref s li]> (heap s) in
  let l2 := fresh (dom h1) in
  let args := final_arguments self question (deref s (defaults config))
                (deref s li) (deref_opt s inputs) in
  run_execute self w question t config li inputs s
  = run_call w question t config l2 (mkState (<[l2 := args]> h1) (client s)).
Proof.
  intros Hin Hd l1 h1 l2 args. unfold run_execute.
  assert (forall i, inputs = Some i -> i <> l1) as Hne.
  { intros i Hi. by apply allocated_not_fresh, Hin. }
  step (dict_copy_eq li s). fold l1.
  step (update_if_truthy_eq l1 inputs
          (mkState (<[l1 := deref s li]> (heap s)) (client s)) (deref s li)
          (lookup_insert_eq _ _ _)).
  rewrite insert_insert_eq, (deref_opt_insert_fresh s inputs l1 _ Hne). fold h1.
  assert (forall o, Some l1 = Some o -> o ∈ dom (heap (mkState h1 (client s))))
    as Hov.
  { intros o [= <-]. cbn [heap]. unfold h1. rewrite dom_insert_L. set_solver. }
  rewrite (bind_ok _ _ _ _ _ _
             (prepare_inputs_eq self config question (Some l1)
                (mkState h1 (client s)) Hov)).
  cbn [res st evs heap client app deref_opt]. fold l2.
  rewrite outcome_eta.
  replace (deref (mkState h1 (client s)) l1)
    with (deref_opt s inputs ∪ deref s li) by (symmetry; apply deref_insert_eq).
  replace (deref (mkState h1 (client s)) (defaults config))
    with (deref s (defaults config))
    by (symmetry; by apply deref_insert_ne, allocated_not_fresh).
  unfold args, final_arguments. by rewrite !(assoc_L (∪)).
Qed.

Lemma get_client_eq (w : World) (s : state) :
  _get_client w s
  = if client s then mkOutcome (Ok tt) s []
    else match create_client w with
         | Some e => mkOutcome (Raise e) s [EvCreateClient]
         | None => mkOutcome (Ok tt) (mkState (heap s) true) [EvCreateClient]
         end.
Proof.
  unfold _get_client. destruct (client s); [reflexivity|].
  by destruct (create_client w).
Qed.

Lemma run_call_eq (w : World) (question t : string) (config : ToolConfig)
    (prepared : loc) (s : state) :
  run_call w question t config prepared s
  = if client s then call_outcome w question t config prepared s []
    else match create_client w with
         | Some e => mkOutcome (Raise e) s [EvCreateClient]
         | None =>
             call_outcome w question t config prepared
               (mkState (heap s) true) [EvCreateClient]
         end.
Proof.
  unfold run_call, call_outcome, bind at 1. rewrite get_client_eq.
  destruct (client s); [|destruct (create_client w); [reflexivity|]];
    cbn [bind ret read emit raise lift res st evs heap client app deref];
    (destruct (call_tool w t _); [|reflexivity]);
    cbn [bind ret read emit raise lift res st evs heap client app];
    by destruct (_build_summary config a question).
Qed.

Lemma extends_refl (s : state) : extends s s.
Proof. by intros l Hl. Qed.

Lemma extends_alloc (s : state) (d : gmap string pyval) (c : bool) :
  extends s (mkState (<[fresh (dom (heap s)) := d]> (heap s)) c).
Proof.
  intros l Hl. cbn [heap]. rewrite lookup_insert_ne; [done|].
  intros <-. by apply (is_fresh (dom (heap s))).
Qed.

Lemma extends_dom (s s' : state) (l : loc) :
  extends s s' -> l ∈ dom (heap s) -> l ∈ dom (heap s').
Proof.
  intros He Hl. apply elem_of_dom. rewrite (He l Hl). by apply elem_of_dom.
Qed.

Lemma extends_trans (s1 s2 s3 : state) :
  extends s1 s2 -> extends s2 s3 -> extends s1 s3.
Proof.
  intros H12 H23 l Hl. rewrite (H23 l (extends_dom s1 s2 l H12 Hl)). by apply H12.
Qed.

Lemma extends_deref (s s' : state) (l : loc) :
  extends s s' -> l ∈ dom (heap s) -> deref s' l = deref s l.
Proof. intros He Hl. unfold deref. by rewrite (He l Hl). Qed.

(** The selection stage: it returns the selected name and a dictionary
    holding the selector's suggestions, and changes no dictionary. *)
Lemma run_select_spec (self : GraphAnalyticsAgent) (w : World) (question : string)
    (tool_name : option string) (empty : loc) (s : state) :
  heap s !! empty = Some ∅ ->
  (forall sel l, select_tool_with_llm w question = Some sel ->
                 sel_inputs sel = Some l -> l ∈ dom (heap s)) ->
  exists li s1,
    run_select self w question tool_name empty s
    = mkOutcome (Ok (selected_tool self w question tool_name, li)) s1
        (select_events self question tool_name)
    /\ extends s s1 /\ client s1 = client s
    /\ li ∈ dom (heap s1)
    /\ deref s1 li = selector_inputs self w question tool_name s.
Proof.
  intros Hempty Hsel.
  assert (empty ∈ dom (heap s)) as Hdom by (apply elem_of_dom; eauto).
  unfold run_select, selected_tool, select_events, selector_inputs.
  destruct tool_name as [t|].
  { exists empty, s. destruct (_use_llm_selector self);
      repeat split; auto using extends_refl, deref_lookup. }
  destruct (_use_llm_selector self).
  2:{ exists empty, s. repeat split; auto using extends_refl, deref_lookup. }
  destruct (select_tool_with_llm w question) as [sel|] eqn:Es.
  2:{ exists empty, s. repeat split; auto using extends_refl, deref_lookup. }
  destruct (sel_inputs sel) as [l|] eqn:El.
  - exists l, s. cbn [bind ret emit res st evs app deref_opt].
    repeat split; eauto using extends_refl.
  - exists (fresh (dom (heap s))),
      (mkState (<[fresh (dom (heap s)) := ∅]> (heap s)) (client s)).
    cbn [bind ret alloc emit res st evs heap client app deref_opt].
    repeat split; auto using extends_alloc, deref_insert_eq.
    cbn [heap]. rewrite dom_insert_L. set_solver.
Qed.

Lemma run_resolve_eq (self : GraphAnalyticsAgent) (w : World) (question : string)
    (tool_name : option string) (s : state) :
  run_resolve self question (selected_tool self w question tool_name) s
  = mkOutcome (resolved_tool self w question tool_name) s
      (resolve_events self w question tool_name).
Proof.
  unfold run_resolve, resolved_tool, resolve_events.
  destruct (selected_tool self w question tool_name); [reflexivity|].
  destruct (_use_llm_selector self); [reflexivity|].
  cbn [bind ret emit raise res st evs app].
  by destruct (_infer_tool self question).
Qed.

Lemma selector_inputs_extends (self : GraphAnalyticsAgent) (w : World)
    (question : string) (tool_name : option string) (s s' : state) :
  (forall sel l, select_tool_with_llm w question = Some sel ->
                 sel_inputs sel = Some l -> l ∈ dom (heap s)) ->
  extends s s' ->
  selector_inputs self w question tool_name s'
  = selector_inputs self w question tool_name s.
Proof.
  intros Hsel He. unfold selector_inputs.
  destruct tool_name; [done|]. destruct (_use_llm_selector self); [|done].
  destruct (select_tool_with_llm w question) as [sel|] eqn:Es; [|done].
  destruct (sel_inputs sel) as [l|] eqn:El; [|done].
  cbn [deref_opt]. apply extends_deref; eauto.
Qed.

(** [run], stage by stage: what it decides, then the execution stage in
    a state [s1] that keeps every dictionary of the initial state. *)
Lemma run_eq (self : GraphAnalyticsAgent) (w : World) (question : string)
    (tool_name : option string) (inputs : option loc) (s : state) :
  well_formed self w question inputs s ->
  exists li s1,
    extends s s1 /\ client s1 = client s /\ li ∈ dom (heap s1)
    /\ deref s1 li = selector_inputs self w question tool_name s
    /\ run self w question tool_name inputs s
       = let pre := select_events self question tool_name
                    ++ resolve_events self w question tool_name in
         match resolved_tool self w question tool_name with
         | Raise e => mkOutcome (Raise e) s1 pre
         | Ok t =>
             match od_get t (_tool_configs self) with
             | None =>
                 mkOutcome
                   (Raise (GraphAnalyticsAgentError ("Unsupported tool: " +:+ t) None))
                   s1 pre
             | Some config =>
                 let o := run_execute self w question t config li inputs s1 in
                 mkOutcome (res o) (st o) (pre ++ evs o)
             end
         end.
Proof.
  intros (Hcfg & Hin & Hsel).
  set (l0 := fresh (dom (heap s))).
  set (s0 := mkState (<[l0 := ∅]> (heap s)) (client s)).
  assert (extends s s0) as He0 by apply extends_alloc.
  destruct (run_select_spec self w question tool_name l0 s0)
    as (li & s1 & Hrs & He1 & Hc1 & Hli & Hd).
  { apply lookup_insert_eq. }
  { intros sel l Hs Hl. eapply extends_dom; eauto. }
  exists li, s1. split; [by eapply extends_trans|]. split; [done|].
  split; [done|]. split.
  { rewrite Hd. by apply selector_inputs_extends. }
  rewrite run_stages.
  assert (alloc ∅ s = mkOutcome (Ok l0) s0 []) as Ha by reflexivity.
  step Ha. step Hrs. cbn [fst snd].
  pose proof (run_resolve_eq self w question tool_name s1) as Hr.
  destruct (resolved_tool self w question tool_name) as [t|e].
  - step Hr. destruct (od_get t (_tool_configs self)).
    + by rewrite List.app_assoc.
    + cbn [raise res st evs]. by rewrite List.app_nil_r.
  - rewrite (bind_raise _ _ _ _ _ _ Hr). reflexivity.
Qed.

(** [run] once a registered tool is resolved: the two dictionaries it
    allocates, and then the call. *)
Lemma run_executes (self : GraphAnalyticsAgent) (w : World) (question : string)
    (tool_name : option string) (inputs : option loc) (s : state)
    (t : string) (config : ToolConfig) :
  well_formed self w question inputs s ->
  resolved_tool self w question tool_name = Ok t ->
  od_get t (_tool_configs self) = Some config ->
  let args := final_arguments self question (deref s (defaults config))
                (selector_inputs self w question tool_name s)
                (deref_opt s inputs) in
  let pre := select_events self question tool_name
             ++ resolve_events self w question tool_name in
  exists l2 s2,
    extends s s2 /\ (l2 ∉ dom (heap s)) /\ heap s2 !! l2 = Some args
    /\ run self w question tool_name inputs s
       = match (if client s then None else create_client w) with
         | Some e => mkOutcome (Raise e) (mkState (heap s2) (client s))
                       (pre ++ [EvCreateClient])
         | None => call_outcome w question t config l2 (mkState (heap s2) true)
                     (pre ++ client_events s)
         end.
Proof.
  intros Hwf Hres Hget args pre.
  destruct (run_eq self w question tool_name inputs s Hwf)
    as (li & s1 & He1 & Hc1 & Hli & Hd & Hrun).
  destruct Hwf as (Hcfg & Hin & Hsel).
  rewrite Hres, Hget in Hrun. cbv zeta in Hrun. fold pre in Hrun.
  assert (forall i, inputs = Some i -> i ∈ dom (heap s1)) as Hin1.
  { intros i Hi. eapply extends_dom; eauto. }
  assert (defaults config ∈ dom (heap s1)) as Hd1.
  { eapply extends_dom; eauto. }
  rewrite (run_execute_eq self w question t config li inputs s1 Hin1 Hd1),
    run_call_eq in Hrun.
  cbn [client heap] in Hrun. rewrite Hc1 in Hrun.
  assert (deref_opt s1 inputs = deref_opt s inputs) as Hdi.
  { destruct inputs as [i|]; [|done]. cbn [deref_opt]. apply extends_deref; eauto. }
  rewrite Hd, Hdi, (extends_deref s s1 (defaults config) He1) in Hrun by eauto.
  fold args in Hrun.
  set (l1 := fresh (dom (heap s1))) in *.
  set (h1 := <[l1 := deref_opt s inputs ∪ selector_inputs self w question tool_name s]>
               (heap s1)) in *.
  set (l2 := fresh (dom h1)) in *.
  assert (extends s (mkState h1 (client s1))) as Heh1.
  { eapply extends_trans; [exact He1|]. apply extends_alloc. }
  exists l2, (mkState (<[l2 := args]> h1) (client s)).
  split; [|split; [|split]].
  - eapply extends_trans; [exact Heh1|]. apply (extends_alloc (mkState h1 (client s1))).
  - intros Hl2. apply (extends_dom _ _ _ Heh1) in Hl2.
    by apply (is_fresh (dom h1)).
  - apply lookup_insert_eq.
  - rewrite Hrun. unfold client_events. cbn [heap].
    destruct (client s).
    + unfold call_outcome. cbn [res st evs heap client app].
      rewrite !List.app_nil_r.
      destruct (call_tool w t _); [|reflexivity].
      by destruct (_build_summary config a question).
    + destruct (create_client w); [reflexivity|].
      unfold call_outcome. cbn [res st evs heap client app].
      destruct (call_tool w t _);
        [destruct (_build_summary config a question)|];
        by rewrite <- List.app_assoc.
Qed.

Lemma pre_events_no_call (self : GraphAnalyticsAgent) (w : World)
    (question : string) (tool_name : option string) (e : event) :
  In e (select_events self question tool_name
        ++ resolve_events self w question tool_name) ->
  is_call_event e = false.
Proof.
  unfold select_events, resolve_events. intros H. apply in_app_or in H.
  destruct tool_name, (_use_llm_selector self),
    (selected_tool self w question _);
    cbn in H; destruct H as [H | H]; try destruct H as [<- | []];
    try destruct H; reflexivity.
Qed.

(** The two ways [run] ends: before the tool is called, with an error;
    or with one call of a registered tool. *)
Lemma run_cases (self : GraphAnalyticsAgent) (w : World) (question : string)
    (tool_name : option string) (inputs : option loc) (s : state) :
  well_formed self w question inputs s ->
  let o := run self w question tool_name inputs s in
  let pre := select_events self question tool_name
             ++ resolve_events self w question tool_name in
  extends s (st o)
  /\ ((exists e, res o = Raise e
                 /\ (evs o = pre \/ evs o = pre ++ [EvCreateClient]))
      \/ (exists t config l2,
            resolved_tool self w question tool_name = Ok t
            /\ od_get t (_tool_configs self) = Some config
            /\ (l2 ∉ dom (heap s))
            /\ heap (st o) !! l2
               = Some (sent_arguments self w question tool_name inputs s config)
            /\ evs o = pre ++ client_events s
                       ++ [EvCallTool t
                             (sent_arguments self w question tool_name inputs s config)]
            /\ res o = call_result w question t config l2
                         (sent_arguments self w question tool_name inputs s config))).
Proof.
  intros Hwf o pre. subst o.
  destruct (resolved_tool self w question tool_name) as [t|e] eqn:Hres.
  2:{ destruct (run_eq self w question tool_name inputs s Hwf)
        as (li & s1 & He1 & _ & _ & _ & ->).
      rewrite Hres. cbn [res st evs]. split; [done|]. left. eauto. }
  destruct (od_get t (_tool_configs self)) as [config|] eqn:Hget.
  2:{ destruct (run_eq self w question tool_name inputs s Hwf)
        as (li & s1 & He1 & _ & _ & _ & ->).
      rewrite Hres, Hget. cbn [res st evs]. split; [done|]. left. eauto. }
  destruct (run_executes self w question tool_name inputs s t config Hwf Hres Hget)
    as (l2 & s2 & He2 & Hl2 & Hargs & ->).
  fold (sent_arguments self w question tool_name inputs s config) in *.
  fold pre.
  set (args := sent_arguments self w question tool_name inputs s config) in *.
  assert (deref (mkState (heap s2) true) l2 = args) as Hderef.
  { by apply deref_lookup. }
  destruct (if client s then None else create_client w) as [e|] eqn:Hc.
  { cbn [res st evs heap]. split; [exact He2|]. left. eauto. }
  unfold call_outcome, call_result, tool_call_failed. rewrite Hderef.
  clear Hderef. subst args.
  destruct (call_tool w t _) as [content|exc] eqn:Hcall;
    [destruct (_build_summary config content question) eqn:Hsum|];
    cbn [res st evs heap];
    (split; [exact He2|]); right; exists t, config, l2;
    rewrite Hcall, ?Hsum, <- List.app_assoc;
    repeat split; assumption || reflexivity.
Qed.

Lemma filter_nothing {A : Type} (f : A -> bool) (l : list A) :
  (forall x, In x l -> f x = false) -> List.filter f l = [].
Proof.
  induction l as [|x l IH]; [done|]. intros H. cbn [List.filter].
  rewrite (H x (or_introl eq_refl)). apply IH. intros y Hy. apply H. by right.
Qed.

Lemma client_events_no_call (s : state) (e : event) :
  In e (client_events s) -> is_call_event e = false.
Proof. unfold client_events. destruct (client s); [done|]. by intros [<- | []]. Qed.

(** In the events of an execution the call of the tool is the last one,
    and the only one. *)
Lemma call_event_unique (pre cl : list event) (t t' : string)
    (args args' : gmap string pyval) :
  (forall e, In e pre -> is_call_event e = false) ->
  (forall e, In e cl -> is_call_event e = false) ->
  In (EvCallTool t args) (pre ++ cl ++ [EvCallTool t' args']) ->
  t = t' /\ args = args'.
Proof.
  intros Hpre Hcl H. apply in_app_or in H as [H | H].
  { by apply Hpre in H. }
  apply in_app_or in H as [H | H]; [by apply Hcl in H|].
  destruct H as [[= <- <-] | []]. done.
Qed.

Lemma call_event_count (pre cl : list event) (t : string)
    (args : gmap string pyval) :
  (forall e, In e pre -> is_call_event e = false) ->
  (forall e, In e cl -> is_call_event e = false) ->
  List.filter is_call_event (pre ++ cl ++ [EvCallTool t args]) = [EvCallTool t args].
Proof.
  intros Hpre Hcl.
  by rewrite !List.filter_app, (filter_nothing _ pre Hpre), (filter_nothing _ cl Hcl).
Qed.

(** C3. When the execution backend raises on the call that [run] makes,
    [run] raises a [GraphAnalyticsAgentError] whose message holds the name
    of the tool and the message of the original exception, whose cause is
    that exception; the tool was called exactly once, and no result is
    returned. *)
Theorem run_tool_failure (self : GraphAnalyticsAgent) (w : World)
    (question : string) (tool_name : option string) (inputs : option loc)
    (s : state) (t : string) (args : gmap string pyval) (exc : exn) :
  well_formed self w question inputs s ->
  In (EvCallTool t args) (evs (run self w question tool_name inputs s)) ->
  call_tool w t args = Raise exc ->
  res (run self w question tool_name inputs s)
  = Raise (GraphAnalyticsAgentError
             ("Tool call failed for '" +:+ t +:+ "': " +:+ exn_str exc) (Some exc))
  /\ List.filter is_call_event (evs (run self w question tool_name inputs s))
     = [EvCallTool t args]
  /\ substr t ("Tool call failed for '" +:+ t +:+ "': " +:+ exn_str exc)
  /\ substr (exn_str exc) ("Tool call failed for '" +:+ t +:+ "': " +:+ exn_str exc).
Proof.
  intros Hwf Hin Hexc.
  pose proof (pre_events_no_call self w question tool_name) as Hpre.
  destruct (run_cases self w question tool_name inputs s Hwf)
    as (_ & [(e & _ & [Hev | Hev]) | (t' & cfg & l2 & _ & _ & _ & _ & Hev & Hres)]).
  - rewrite Hev in Hin. by apply Hpre in Hin.
  - rewrite Hev in Hin. apply in_app_or in Hin as [Hin | [Hin | []]];
      [by apply Hpre in Hin | discriminate Hin].
  - rewrite Hev in Hin.
    destruct (call_event_unique _ _ _ _ _ _ Hpre (client_events_no_call s) Hin)
      as (-> & ->).
    split; [|split; [|split]].
    + rewrite Hres. unfold call_result. by rewrite Hexc.
    + rewrite Hev. apply call_event_count; [done | apply client_events_no_call].
    + exists "Tool call failed for '", ("': " +:+ exn_str exc). reflexivity.
    + exists ("Tool call failed for '" +:+ t' +:+ "': "), "".
      by rewrite str_app_nil_r, !str_app_assoc.
Qed.

Lemma demo_allocated (l : loc) :
  l = 1%positive \/ l = 2%positive \/ l = 3%positive \/ l = 4%positive ->
  l ∈ dom (heap demo_state).
Proof.
  intros H. apply elem_of_dom.
  destruct H as [-> | [-> | [-> | ->]]]; vm_compute; eauto.
Qed.

Lemma demo_well_formed (w : World) (question : string) (inputs : option loc) :
  (forall i, inputs = Some i -> i = 3%positive) ->
  (forall sel l, select_tool_with_llm w question = Some sel ->
                 sel_inputs sel = Some l -> l = 2%positive) ->
  well_formed demo_agent w question inputs demo_state.
Proof.
  intros Hin Hsel. split; [|split].
  - intros n cfg. cbn [od_get demo_agent _tool_configs].
    destruct (String.eqb n "demo"); [intros [= <-]; apply demo_allocated; auto|].
    destruct (String.eqb n "by_uuid"); [intros [= <-]|discriminate].
    apply demo_allocated. auto.
  - intros i Hi. apply demo_allocated. rewrite (Hin i Hi). auto.
  - intros sel l Hs Hl. apply demo_allocated. rewrite (Hsel sel l Hs Hl). auto.
Qed.

Lemma run_tool_failure_witness :
  res (run demo_agent failing_world demo_question None (Some 3%positive) demo_state)
  = Raise (GraphAnalyticsAgentError "Tool call failed for 'demo': connection lost"
             (Some (Exception "connection lost"))).
Proof.
  refine (proj1 (run_tool_failure demo_agent failing_world demo_question None
                   (Some 3%positive) demo_state "demo" demo_arguments
                   (Exception "connection lost") _ _ eq_refl)).
  - apply demo_well_formed.
    + by intros i [= <-].
    + by intros sel l [= <-] [= <-].
  - vm_compute. right. right. left. reflexivity.
Defined.

(** C2. With the LLM selector enabled and no explicit tool name, a null
    selection (no selection at all, or a selection whose tool is null)
    makes [run] raise the selection error of the LLM selector, after the
    selector was consulted and nothing else; [_infer_tool] is asked only
    when the selector is disabled and no tool name was given, and then its
    own null answer makes [run] raise as well. *)
Theorem run_null_selection :
  (forall self w question inputs s,
      _use_llm_selector self = true ->
      (select_tool_with_llm w question = None
       \/ exists sel, select_tool_with_llm w question = Some sel
                      /\ sel_tool sel = None) ->
      res (run self w question None inputs s)
      = Raise (GraphAnalyticsAgentError
                 ("Could not infer a graph analytics tool for this question. "
                  +:+ "The LLM tool selector did not find a suitable tool.") None)
      /\ evs (run self w question None inputs s) = [EvSelectTool question])
  /\ (forall self w question tool_name inputs s q,
         well_formed self w question inputs s ->
         In (EvInferTool q) (evs (run self w question tool_name inputs s)) ->
         _use_llm_selector self = false /\ tool_name = None /\ q = question)
  /\ (forall self w question inputs s,
         _use_llm_selector self = false ->
         _infer_tool self question = None ->
         res (run self w question None inputs s)
         = Raise (GraphAnalyticsAgentError
                    "Could not infer a graph analytics tool for this question." None)
         /\ evs (run self w question None inputs s) = [EvInferTool question]).
Proof.
  split; [|split].
  - intros self w question inputs s Hu Hnull. unfold run. rewrite Hu.
    destruct Hnull as [Hs | (sel & Hs & Ht)]; rewrite Hs.
    + by cbn [bind ret alloc raise emit res st evs heap client fst snd app].
    + destruct (sel_inputs sel);
        cbn [bind ret alloc raise emit res st evs heap client fst snd app];
        by rewrite Ht.
  - intros self w question tool_name inputs s q Hwf Hin.
    assert (In (EvInferTool q)
              (select_events self question tool_name
               ++ resolve_events self w question tool_name)) as Hpre.
    { destruct (run_cases self w question tool_name inputs s Hwf)
        as (_ & [(e & _ & [Hev | Hev])
                | (t & cfg & l2 & _ & _ & _ & _ & Hev & _)]);
        rewrite Hev in Hin; [done| |].
      - apply in_app_or in Hin as [Hin | [Hin | []]]; [done | discriminate Hin].
      - apply in_app_or in Hin as [Hin | Hin]; [done|].
        apply in_app_or in Hin as [Hin | [Hin | []]]; [|discriminate Hin].
        unfold client_events in Hin. destruct (client s); [done|].
        by destruct Hin as [Hin | []]. }
    unfold select_events, resolve_events, selected_tool in Hpre.
    destruct tool_name as [t|], (_use_llm_selector self);
      cbn [app] in Hpre.
    + destruct Hpre.
    + destruct Hpre.
    + destruct Hpre as [Hpre | Hpre]; [discriminate Hpre|].
      by destruct (match select_tool_with_llm w question with
                   | Some selection => sel_tool selection
                   | None => None
                   end).
    + by destruct Hpre as [[= ->] | []].
  - intros self w question inputs s Hu Hnone. unfold run. rewrite Hu.
    cbn [bind ret alloc raise emit res st evs heap client fst snd app].
    by rewrite Hnone.
Qed.

Lemma run_null_selection_witness :
  res (run demo_agent null_world demo_question None (Some 3%positive) demo_state)
  = Raise (GraphAnalyticsAgentError
             ("Could not infer a graph analytics tool for this question. "
              +:+ "The LLM tool selector did not find a suitable tool.") None)
  /\ evs (run demo_agent null_world demo_question None (Some 3%positive) demo_state)
     = [EvSelectTool demo_question].
Proof.
  apply (proj1 run_null_selection demo_agent null_world demo_question
           (Some 3%positive) demo_state eq_refl).
  right. eexists. split; reflexivity.
Defined.

(** C10. A call of [run] leaves every dictionary that existed before the
    call as it was, whether it returns or raises: the defaults of every
    registered configuration, the caller's inputs and the inputs suggested
    by the selector hold the entries they held; so the next call starts
    from the same defaults. *)
Theorem run_preserves_dictionaries (self : GraphAnalyticsAgent) (w : World)
    (question : string) (tool_name : option string) (inputs : option loc)
    (s : state) :
  well_formed self w question inputs s ->
  let s' := st (run self w question tool_name inputs s) in
  (forall l, l ∈ dom (heap s) -> heap s' !! l = heap s !! l)
  /\ (forall n cfg, od_get n (_tool_configs self) = Some cfg ->
                    heap s' !! defaults cfg = heap s !! defaults cfg)
  /\ (forall i, inputs = Some i -> heap s' !! i = heap s !! i)
  /\ (forall sel l, select_tool_with_llm w question = Some sel ->
                    sel_inputs sel = Some l -> heap s' !! l = heap s !! l)
  /\ well_formed self w question inputs s'.
Proof.
  intros Hwf s'.
  destruct (run_cases self w question tool_name inputs s Hwf) as (Hext & _).
  fold s' in Hext. destruct Hwf as (Hcfg & Hin & Hsel).
  split; [exact Hext|]. split; [|split; [|split]].
  - intros n cfg Hn. apply Hext. eauto.
  - intros i Hi. apply Hext. eauto.
  - intros sel l Hs Hl. apply Hext. eauto.
  - split; [|split].
    + intros n cfg Hn. eapply extends_dom; eauto.
    + intros i Hi. eapply extends_dom; eauto.
    + intros sel l Hs Hl. eapply extends_dom; eauto.
Qed.

Lemma run_preserves_dictionaries_witness :
  heap (st (run demo_agent demo_world demo_question None (Some 3%positive) demo_state))
    !! 1%positive = Some {[ "a" := PInt 1 ]}.
Proof.
  rewrite (proj1 (run_preserves_dictionaries demo_agent demo_world demo_question None
                    (Some 3%positive) demo_state
                    (demo_well_formed demo_world demo_question (Some 3%positive)
                       ltac:(by intros i [= <-])
                       ltac:(by intros sel l [= <-] [= <-])))
             1%positive (demo_allocated 1%positive (or_introl eq_refl))).
  reflexivity.
Defined.

(** C1, as stated, fails on its own example.  With defaults [{a: 1}],
    selector inputs [{a: 2, b: 2}] and caller inputs [{b: 3}], the mapping
    sent to the tool also holds the identifier property injected by
    [_prepare_inputs], so it is not [{a: 2, b: 3}].  And the identifier
    does not overwrite the defaults: when the defaults already hold the
    identifier property, the mapping sent is not the one obtained by
    letting every later layer overwrite the earlier ones. *)
Lemma run_arguments_counterexample :
  (exists r,
      res (run demo_agent demo_world demo_question None (Some 3%positive) demo_state)
      = Ok r
      /\ heap (st (run demo_agent demo_world demo_question None (Some 3%positive)
                     demo_state)) !! inputs r
         = Some {[ "a" := PInt 2; "b" := PInt 3;
                   "nodeIdentifierProperty" := PStr "name" ]}
      /\ heap (st (run demo_agent demo_world demo_question None (Some 3%positive)
                     demo_state)) !! inputs r
         <> Some {[ "a" := PInt 2; "b" := PInt 3 ]})
  /\ (exists r,
         res (run demo_agent demo_world demo_question (Some "by_uuid") None demo_state)
         = Ok r
         /\ heap (st (run demo_agent demo_world demo_question (Some "by_uuid") None
                        demo_state)) !! inputs r
            = Some {[ "nodeIdentifierProperty" := PStr "uuid" ]}
         /\ overwriting_arguments demo_agent demo_question
              {[ "nodeIdentifierProperty" := PStr "uuid" ]} ∅ ∅
            = {[ "nodeIdentifierProperty" := PStr "name" ]}).
Proof.
  split.
  - eexists. split; [vm_compute; reflexivity|]. cbn [inputs]. split.
    + vm_compute. reflexivity.
    + vm_compute. discriminate.
  - eexists. split; [vm_compute; reflexivity|]. cbn [inputs]. split.
    + vm_compute. reflexivity.
    + vm_compute. reflexivity.
Qed.

(** C1, amended.  The mapping sent to the tool, which is also the one the
    result carries, is built from the defaults of the tool; the identifier
    property and the geographic filters are added only under keys that the
    defaults do not hold; then the entries suggested by the selector
    overwrite, and the entries supplied by the caller overwrite last.  On
    defaults [{a: 1}], selector inputs [{a: 2, b: 2}] and caller inputs
    [{b: 3}] this gives [{a: 2, b: 3}] together with the identifier
    property. *)
Theorem run_final_arguments (self : GraphAnalyticsAgent) (w : World)
    (question : string) (explicit_tool : option string) (caller_inputs : option loc)
    (s : state) :
  well_formed self w question caller_inputs s ->
  let o := run self w question explicit_tool caller_inputs s in
  (forall t args,
      In (EvCallTool t args) (evs o) ->
      exists config,
        od_get t (_tool_configs self) = Some config
        /\ args = deref_opt s caller_inputs
                  ∪ (selector_inputs self w question explicit_tool s
                     ∪ (deref s (defaults config)
                        ∪ (identifier_layer self ∪ geo_layer question))))
  /\ (forall r,
         res o = Ok r ->
         exists config,
           od_get (tool_name r) (_tool_configs self) = Some config
           /\ In (EvCallTool (tool_name r)
                    (sent_arguments self w question explicit_tool caller_inputs s config))
                (evs o)
           /\ heap (st o) !! inputs r
              = Some (deref_opt s caller_inputs
                      ∪ (selector_inputs self w question explicit_tool s
                         ∪ (deref s (defaults config)
                            ∪ (identifier_layer self ∪ geo_layer question))))).
Proof.
  intros Hwf o. subst o.
  pose proof (pre_events_no_call self w question explicit_tool) as Hpre.
  destruct (run_cases self w question explicit_tool caller_inputs s Hwf)
    as (_ & [(e & Hres & Hev)
            | (t' & cfg & l2 & _ & Hget & _ & Hheap & Hev & Hres)]).
  - split.
    + intros t args Hin. exfalso. destruct Hev as [Hev | Hev]; rewrite Hev in Hin.
      * by apply Hpre in Hin.
      * apply in_app_or in Hin as [Hin | [Hin | []]];
          [by apply Hpre in Hin | discriminate Hin].
    + intros r Hr. rewrite Hres in Hr. discriminate Hr.
  - split.
    + intros t args Hin. rewrite Hev in Hin.
      destruct (call_event_unique _ _ _ _ _ _ Hpre (client_events_no_call s) Hin)
        as (-> & ->).
      by exists cfg.
    + intros r Hr. rewrite Hres in Hr. unfold call_result in Hr.
      destruct (call_tool w t' _) as [content|]; [|discriminate Hr].
      destruct (_build_summary cfg content question); [|discriminate Hr].
      injection Hr as <-. cbn [tool_name inputs].
      exists cfg. split; [done|]. split; [|exact Hheap].
      rewrite Hev. apply in_or_app. right. apply in_or_app. right. by left.
Qed.

Lemma run_final_arguments_witness :
  exists config,
    od_get "demo" (_tool_configs demo_agent) = Some config
    /\ demo_arguments
       = deref_opt demo_state (Some 3%positive)
         ∪ (selector_inputs demo_agent demo_world demo_question None demo_state
            ∪ (deref demo_state (defaults config)
               ∪ (identifier_layer demo_agent ∪ geo_layer demo_question))).
Proof.
  refine (proj1 (run_final_arguments demo_agent demo_world demo_question None
                   (Some 3%positive) demo_state _) "demo" demo_arguments _).
  - apply demo_well_formed.
    + by intros i [= <-].
    + by intros sel l [= <-] [= <-].
  - vm_compute. right. right. left. reflexivity.
Defined.

(** * Further properties of the agent *)

(** ** Argument preparation *)

Lemma union_lookup_left (a b : gmap string pyval) (k : string) (v : pyval) :
  a !! k = Some v -> (a ∪ b) !! k = Some v.
Proof. intros H. by apply lookup_union_Some_l. Qed.

Lemma union_lookup_right (a b : gmap string pyval) (k : string) :
  a !! k = None -> (a ∪ b) !! k = b !! k.
Proof. intros H. by apply lookup_union_r. Qed.

(** X1. [_prepare_inputs] raises nothing, asks nothing of the collaborators
    and returns a dictionary of its own, leaving the existing ones as they
    are.  That dictionary always has an identifier property: the caller's
    or selector's when the overrides give one, else the one of the
    defaults, else the identifier property of the agent. *)
Theorem prepare_inputs_identifier (self : GraphAnalyticsAgent) (config : ToolConfig)
    (question : string) (overrides : option loc) (s : state) :
  (forall o, overrides = Some o -> o ∈ dom (heap s)) ->
  let out := _prepare_inputs self config question overrides s in
  exists l,
    res out = Ok l /\ evs out = [] /\ client (st out) = client s
    /\ (l ∉ dom (heap s))
    /\ (forall l', l' ∈ dom (heap s) -> heap (st out) !! l' = heap s !! l')
    /\ "nodeIdentifierProperty" ∈ dom (deref (st out) l)
    /\ (forall v, deref_opt s overrides !! "nodeIdentifierProperty" = Some v ->
                  deref (st out) l !! "nodeIdentifierProperty" = Some v)
    /\ (forall v, deref_opt s overrides !! "nodeIdentifierProperty" = None ->
                  deref s (defaults config) !! "nodeIdentifierProperty" = Some v ->
                  deref (st out) l !! "nodeIdentifierProperty" = Some v)
    /\ (deref_opt s overrides !! "nodeIdentifierProperty" = None ->
        deref s (defaults config) !! "nodeIdentifierProperty" = None ->
        deref (st out) l !! "nodeIdentifierProperty"
        = Some (PStr (_default_identifier_property self))).
Proof.
  intros Hov out. subst out. rewrite (prepare_inputs_eq _ _ _ _ _ Hov).
  cbn [res st evs client]. exists (fresh (dom (heap s))).
  rewrite deref_insert_eq.
  split; [done|]. split; [done|]. split; [done|].
  split; [apply is_fresh|]. split; [apply (extends_alloc s)|].
  split; [|split; [|split]].
  - apply elem_of_dom.
    destruct (deref_opt s overrides !! "nodeIdentifierProperty") as [v|] eqn:E1.
    { exists v. by apply union_lookup_left. }
    rewrite union_lookup_right by done.
    destruct (deref s (defaults config) !! "nodeIdentifierProperty") as [v|] eqn:E2.
    { exists v. by apply union_lookup_left. }
    rewrite union_lookup_right by done. eexists.
    apply union_lookup_left, lookup_singleton_eq.
  - intros v Hv. by apply union_lookup_left.
  - intros v H1 H2. rewrite union_lookup_right by done. by apply union_lookup_left.
  - intros H1 H2. rewrite !union_lookup_right by done.
    apply union_lookup_left, lookup_singleton_eq.
Qed.

Lemma prepare_inputs_identifier_witness :
  exists l,
    res (_prepare_inputs demo_agent demo_config demo_question (Some 3%positive)
           demo_state) = Ok l
    /\ deref (st (_prepare_inputs demo_agent demo_config demo_question
                    (Some 3%positive) demo_state)) l !! "nodeIdentifierProperty"
       = Some (PStr "name").
Proof.
  destruct (prepare_inputs_identifier demo_agent demo_config demo_question
              (Some 3%positive) demo_state)
    as (l & Hres & _ & _ & _ & _ & _ & _ & _ & Hid).
  - intros o [= <-]. apply demo_allocated. auto.
  - exists l. split; [exact Hres|]. apply Hid; reflexivity.
Defined.

Lemma geo_layer_lookup (question : string) (k : string) :
  geo_layer question !! k
  = match _extract_geo_filters question with
    | [] => None
    | geos =>
        if String.eqb k "nodeLabels" then Some (PList [PStr "Area"; PStr "Municipality"])
        else if String.eqb k "filterNames" then Some (PList (List.map PStr geos))
        else None
    end.
Proof.
  unfold geo_layer. destruct (_extract_geo_filters question) as [|g gs]; [done|].
  destruct (String.eqb k "nodeLabels") eqn:E1.
  { apply String.eqb_eq in E1 as ->. apply lookup_insert_eq. }
  apply String.eqb_neq in E1. rewrite lookup_insert_ne by done.
  destruct (String.eqb k "filterNames") eqn:E2.
  { apply String.eqb_eq in E2 as ->. apply lookup_singleton_eq. }
  apply String.eqb_neq in E2. by rewrite lookup_singleton_ne.
Qed.

(** X2. The geographic filters of [_prepare_inputs].  When the question
    yields terms, ["filterNames"] is set to them and ["nodeLabels"] to the
    two geographic labels, each on its own and only if neither the
    defaults nor the overrides hold the key; when the question yields no
    term, no key is added. *)
Theorem prepare_inputs_geo (self : GraphAnalyticsAgent) (config : ToolConfig)
    (question : string) (overrides : option loc) (s : state) :
  (forall o, overrides = Some o -> o ∈ dom (heap s)) ->
  let out := _prepare_inputs self config question overrides s in
  let prepared := deref (st out) (fresh (dom (heap s))) in
  let given := deref_opt s overrides ∪ deref s (defaults config) in
  res out = Ok (fresh (dom (heap s)))
  /\ (forall k v, given !! k = Some v -> prepared !! k = Some v)
  /\ (_extract_geo_filters question <> [] ->
      given !! "filterNames" = None ->
      prepared !! "filterNames"
      = Some (PList (List.map PStr (_extract_geo_filters question))))
  /\ (_extract_geo_filters question <> [] ->
      given !! "nodeLabels" = None ->
      prepared !! "nodeLabels" = Some (PList [PStr "Area"; PStr "Municipality"]))
  /\ (_extract_geo_filters question = [] ->
      prepared = given ∪ identifier_layer self).
Proof.
  intros Hov out prepared given. subst out prepared.
  rewrite (prepare_inputs_eq _ _ _ _ _ Hov). cbn [res st evs].
  rewrite deref_insert_eq, (assoc_L (∪)). fold given.
  assert (identifier_layer self !! "filterNames" = None) as Hf by done.
  assert (identifier_layer self !! "nodeLabels" = None) as Hn by done.
  split; [done|]. split; [|split; [|split]].
  - intros k v Hk. by apply union_lookup_left.
  - intros Hg Hgiven. rewrite !union_lookup_right by done.
    rewrite geo_layer_lookup. by destruct (_extract_geo_filters question).
  - intros Hg Hgiven. rewrite !union_lookup_right by done.
    rewrite geo_layer_lookup. by destruct (_extract_geo_filters question).
  - intros Hg. unfold geo_layer. rewrite Hg. by rewrite (right_id_L ∅ (∪)).
Qed.

Lemma prepare_inputs_geo_witness :
  deref (st (_prepare_inputs demo_agent demo_config "Rank the areas in Lakeview"
               (Some 3%positive) demo_state)) (fresh (dom (heap demo_state)))
    !! "filterNames"
  = Some (PList [PStr "Lakeview"]).
Proof.
  refine (proj1 (proj2 (proj2 (prepare_inputs_geo demo_agent demo_config
                                 "Rank the areas in Lakeview" (Some 3%positive)
                                 demo_state _))) _ _).
  - intros o [= <-]. apply demo_allocated. auto.
  - vm_compute. discriminate.
  - vm_compute. reflexivity.
Defined.

(** ** Errors and events of [run] *)

Lemma pre_events_kind (self : GraphAnalyticsAgent) (w : World)
    (question : string) (explicit_tool : option string) (e : event) :
  In e (select_events self question explicit_tool
        ++ resolve_events self w question explicit_tool) ->
  e = EvSelectTool question \/ e = EvInferTool question.
Proof.
  unfold select_events, resolve_events. intros H. apply in_app_or in H.
  destruct explicit_tool, (_use_llm_selector self),
    (selected_tool self w question _);
    cbn in H; destruct H as [H | H]; try destruct H as [<- | []];
    try destruct H; auto.
Qed.

(** X3. A resolved name that is not a key of the registry makes [run] raise
    the unsupported-tool error: no client is created and no tool is
    called.  With an explicit tool name nothing at all is asked of the
    collaborators. *)
Theorem run_unsupported_tool (self : GraphAnalyticsAgent) (w : World)
    (question : string) (explicit_tool : option string) (caller_inputs : option loc)
    (s : state) (t : string) :
  well_formed self w question caller_inputs s ->
  resolved_tool self w question explicit_tool = Ok t ->
  od_get t (_tool_configs self) = None ->
  let out := run self w question explicit_tool caller_inputs s in
  res out = Raise (GraphAnalyticsAgentError ("Unsupported tool: " +:+ t) None)
  /\ evs out = select_events self question explicit_tool
               ++ resolve_events self w question explicit_tool
  /\ List.filter is_call_event (evs out) = []
  /\ ~ In EvCreateClient (evs out)
  /\ client (st out) = client s
  /\ (explicit_tool = Some t -> evs out = []).
Proof.
  intros Hwf Hres Hget out. subst out.
  destruct (run_eq self w question explicit_tool caller_inputs s Hwf)
    as (li & s1 & _ & Hc & _ & _ & ->).
  rewrite Hres, Hget. cbn [res st evs].
  split; [done|]. split; [done|]. split; [|split; [|split]].
  - apply filter_nothing, pre_events_no_call.
  - intros Hin. by apply pre_events_kind in Hin as [Hin | Hin].
  - exact Hc.
  - intros ->. unfold select_events, resolve_events, selected_tool.
    by destruct (_use_llm_selector self).
Qed.

Lemma run_unsupported_tool_witness :
  res (run demo_agent demo_world demo_question (Some "pagerank") (Some 3%positive)
         demo_state)
  = Raise (GraphAnalyticsAgentError "Unsupported tool: pagerank" None).
Proof.
  refine (proj1 (run_unsupported_tool demo_agent demo_world demo_question
                   (Some "pagerank") (Some 3%positive) demo_state "pagerank"
                   _ eq_refl eq_refl)).
  apply demo_well_formed.
  - by intros i [= <-].
  - by intros sel l [= <-] [= <-].
Defined.

Lemma selector_not_consulted (self : GraphAnalyticsAgent) (w : World)
    (question : string) (explicit_tool : option string) :
  (explicit_tool = None -> _use_llm_selector self = false) ->
  select_events self question explicit_tool = []
  /\ forall e, In e (resolve_events self w question explicit_tool) ->
               e = EvInferTool question.
Proof.
  intros Hsel. unfold select_events, resolve_events, selected_tool.
  destruct explicit_tool as [t|].
  - split; [done|]. by intros e [].
  - rewrite (Hsel eq_refl). split; [done|]. intros e [<- | []]. reflexivity.
Qed.

(** X4. A call that does not consult the selector, because the caller
    names the tool or the selector is disabled: when the client does not
    exist yet and its creation raises, [run] raises that very exception,
    not wrapped in a [GraphAnalyticsAgentError]; the tool is not called
    and the agent still has no client. *)
Theorem run_client_failure (self : GraphAnalyticsAgent) (w : World)
    (question : string) (explicit_tool : option string) (caller_inputs : option loc)
    (s : state) (t : string) (config : ToolConfig) (e : exn) :
  well_formed self w question caller_inputs s ->
  (explicit_tool = None -> _use_llm_selector self = false) ->
  resolved_tool self w question explicit_tool = Ok t ->
  od_get t (_tool_configs self) = Some config ->
  client s = false ->
  create_client w = Some e ->
  let out := run self w question explicit_tool caller_inputs s in
  res out = Raise e
  /\ evs out = resolve_events self w question explicit_tool ++ [EvCreateClient]
  /\ ~ In (EvSelectTool question) (evs out)
  /\ List.filter is_call_event (evs out) = []
  /\ client (st out) = false.
Proof.
  intros Hwf Hsel Hres Hget Hcl Hcreate out. subst out.
  destruct (selector_not_consulted self w question explicit_tool Hsel)
    as (Hnone & Hinfer).
  destruct (run_executes self w question explicit_tool caller_inputs s t config
              Hwf Hres Hget) as (l2 & s2 & _ & _ & _ & ->).
  rewrite Hcl, Hcreate, Hnone. cbn [res st evs client app].
  split; [done|]. split; [done|]. split; [|split; [|done]].
  - intros Hin. apply in_app_or in Hin as [Hin | [Hin | []]]; [|discriminate Hin].
    by apply Hinfer in Hin.
  - rewrite List.filter_app. cbn [List.filter is_call_event app].
    rewrite List.app_nil_r. apply filter_nothing.
    intros ev Hev. by rewrite (Hinfer ev Hev).
Qed.

Lemma run_client_failure_witness :
  res (run demo_agent unreachable_world demo_question (Some "demo") (Some 3%positive)
         demo_state)
  = Raise (Exception "server did not start").
Proof.
  refine (proj1 (run_client_failure demo_agent unreachable_world demo_question
                   (Some "demo") (Some 3%positive) demo_state "demo" demo_config
                   (Exception "server did not start") _ _ eq_refl eq_refl eq_refl
                   eq_refl)).
  - apply demo_well_formed.
    + by intros i [= <-].
    + by intros sel l [= <-] [= <-].
  - discriminate.
Defined.

(** X5. What a result of [run] holds: the name of a registered tool, which is
    the resolved one; the content that the tool returned for the prepared
    arguments; the summary of that content; and a dictionary of arguments
    that did not exist before the call.  The client exists afterwards. *)
Theorem run_success (self : GraphAnalyticsAgent) (w : World)
    (question : string) (explicit_tool : option string) (caller_inputs : option loc)
    (s : state) (r : GraphAnalyticsResult) :
  well_formed self w question caller_inputs s ->
  res (run self w question explicit_tool caller_inputs s) = Ok r ->
  exists config,
    resolved_tool self w question explicit_tool = Ok (tool_name r)
    /\ od_get (tool_name r) (_tool_configs self) = Some config
    /\ call_tool w (tool_name r)
         (sent_arguments self w question explicit_tool caller_inputs s config)
       = Ok (raw_result r)
    /\ _build_summary config (raw_result r) question = Ok (summary r)
    /\ (inputs r ∉ dom (heap s))
    /\ client (st (run self w question explicit_tool caller_inputs s)) = true.
Proof.
  intros Hwf Hr.
  destruct (resolved_tool self w question explicit_tool) as [t|e] eqn:Hres.
  2:{ destruct (run_eq self w question explicit_tool caller_inputs s Hwf)
        as (li & s1 & _ & _ & _ & _ & Hrun).
      rewrite Hrun, Hres in Hr. discriminate Hr. }
  destruct (od_get t (_tool_configs self)) as [config|] eqn:Hget.
  2:{ destruct (run_eq self w question explicit_tool caller_inputs s Hwf)
        as (li & s1 & _ & _ & _ & _ & Hrun).
      rewrite Hrun, Hres, Hget in Hr. discriminate Hr. }
  destruct (run_executes self w question explicit_tool caller_inputs s t config
              Hwf Hres Hget) as (l2 & s2 & _ & Hl2 & Hargs & Hrun).
  rewrite Hrun in Hr |- *. clear Hrun.
  destruct (if client s then None else create_client w); [discriminate Hr|].
  unfold call_outcome in Hr |- *.
  rewrite (deref_lookup (mkState (heap s2) true) l2 _ Hargs) in Hr |- *.
  fold (sent_arguments self w question explicit_tool caller_inputs s config)
    in Hr |- *.
  destruct (call_tool w t _) as [content|] eqn:Hcall; [|discriminate Hr].
  destruct (_build_summary config content question) as [text|] eqn:Hsum;
    [|discriminate Hr].
  cbn [res st client] in Hr |- *. injection Hr as <-.
  cbn [tool_name raw_result summary inputs]. exists config.
  repeat split; assumption.
Qed.

Lemma run_success_witness :
  exists r,
    res (run demo_agent demo_world demo_question None (Some 3%positive) demo_state)
    = Ok r
    /\ raw_result r = []
    /\ summary r = PStr "Tool 'demo' returned no results.".
Proof.
  eexists. split; [vm_compute; reflexivity|].
  destruct (run_success demo_agent demo_world demo_question None (Some 3%positive)
              demo_state _
              (demo_well_formed demo_world demo_question (Some 3%positive)
                 ltac:(by intros i [= <-]) ltac:(by intros sel l [= <-] [= <-]))
              ltac:(vm_compute; reflexivity))
    as (config & _ & Hget & Hcall & Hsum & _).
  injection Hget as <-. split.
  - cbn [raw_result]. reflexivity.
  - cbn [summary]. reflexivity.
Defined.

(** The events of [run] after the selection, with the final state of the
    client: nothing, a failed creation of the client, or one call of the
    tool with the client in place. *)
Lemma run_tail_events (self : GraphAnalyticsAgent) (w : World)
    (question : string) (explicit_tool : option string) (caller_inputs : option loc)
    (s : state) :
  well_formed self w question caller_inputs s ->
  let out := run self w question explicit_tool caller_inputs s in
  exists tail,
    evs out = (select_events self question explicit_tool
               ++ resolve_events self w question explicit_tool) ++ tail
    /\ ((tail = [] /\ client (st out) = client s)
        \/ (tail = [EvCreateClient] /\ client s = false /\ client (st out) = false)
        \/ (exists t args, tail = client_events s ++ [EvCallTool t args]
                           /\ client (st out) = true)).
Proof.
  intros Hwf out. subst out.
  destruct (resolved_tool self w question explicit_tool) as [t|e] eqn:Hres.
  2:{ destruct (run_eq self w question explicit_tool caller_inputs s Hwf)
        as (li & s1 & _ & Hc & _ & _ & ->).
      rewrite Hres. cbn [res st evs]. exists []. rewrite List.app_nil_r. auto. }
  destruct (od_get t (_tool_configs self)) as [config|] eqn:Hget.
  2:{ destruct (run_eq self w question explicit_tool caller_inputs s Hwf)
        as (li & s1 & _ & Hc & _ & _ & ->).
      rewrite Hres, Hget. cbn [res st evs]. exists []. rewrite List.app_nil_r. auto. }
  destruct (run_executes self w question explicit_tool caller_inputs s t config
              Hwf Hres Hget) as (l2 & s2 & _ & _ & _ & ->).
  destruct (client s) eqn:Hcl; [|destruct (create_client w) as [e|]].
  - exists (client_events s ++ [EvCallTool t (deref (mkState (heap s2) true) l2)]).
    unfold call_outcome.
    destruct (call_tool w t _) as [content|];
      [destruct (_build_summary config content question)|];
      cbn [res st evs client];
      (split; [symmetry; apply List.app_assoc
              | right; right; eexists _, _; split; reflexivity]).
  - exists [EvCreateClient]. cbn [res st evs client].
    split; [reflexivity|]. right. left. auto.
  - exists (client_events s ++ [EvCallTool t (deref (mkState (heap s2) true) l2)]).
    unfold call_outcome.
    destruct (call_tool w t _) as [content|];
      [destruct (_build_summary config content question)|];
      cbn [res st evs client];
      (split; [symmetry; apply List.app_assoc
              | right; right; eexists _, _; split; reflexivity]).
Qed.

(** X6. A call that does not consult the selector, because the caller
    names the tool or the selector is disabled, creates the client on
    first use only: the selector is indeed not asked; a call made when
    the client exists does not create it again; a call that reaches the
    tool leaves the client in place; and the client is created at most
    once. *)
Theorem run_client_once (self : GraphAnalyticsAgent) (w : World)
    (question : string) (explicit_tool : option string) (caller_inputs : option loc)
    (s : state) :
  well_formed self w question caller_inputs s ->
  (explicit_tool = None -> _use_llm_selector self = false) ->
  let out := run self w question explicit_tool caller_inputs s in
  ~ In (EvSelectTool question) (evs out)
  /\ (client s = true -> ~ In EvCreateClient (evs out) /\ client (st out) = true)
  /\ (forall t args, In (EvCallTool t args) (evs out) -> client (st out) = true)
  /\ (client (st out) = false -> client s = false)
  /\ (length (List.filter
                 (fun e => match e with EvCreateClient => true | _ => false end)
                 (evs out)) <= 1)%nat.
Proof.
  intros Hwf Hsel out.
  destruct (selector_not_consulted self w question explicit_tool Hsel)
    as (Hnone & Hinfer).
  destruct (run_tail_events self w question explicit_tool caller_inputs s Hwf)
    as (tail & Hev & Htail).
  fold out in Hev, Htail. rewrite Hev, Hnone. cbn [app].
  set (pre := resolve_events self w question explicit_tool) in *.
  set (is_create := fun e => match e with EvCreateClient => true | _ => false end).
  assert (List.filter is_create pre = []) as Hfilter.
  { apply filter_nothing. intros e He. by rewrite (Hinfer e He). }
  assert (forall e, e <> EvInferTool question -> ~ In e pre) as Hpre.
  { intros e Hne He. by apply Hne, Hinfer. }
  rewrite List.filter_app, Hfilter. cbn [app].
  destruct Htail as [(-> & Hc) | [(-> & Hs & Hc) | (t & args & -> & Hc)]].
  - rewrite List.app_nil_r, Hc. cbn. split; [by apply Hpre|].
    repeat split; auto; try lia; try (by apply Hpre).
    intros t args Hin. by apply Hpre in Hin.
  - rewrite Hc, Hs. cbn. split.
    { intros Hin. apply in_app_or in Hin as [Hin | [Hin | []]];
        [by apply Hpre in Hin | discriminate Hin]. }
    repeat split; auto; try discriminate.
    intros t args Hin. apply in_app_or in Hin as [Hin | [Hin | []]];
      [by apply Hpre in Hin | discriminate Hin].
  - rewrite Hc. split.
    { intros Hin. apply in_app_or in Hin as [Hin | Hin]; [by apply Hpre in Hin|].
      unfold client_events in Hin. destruct (client s);
        repeat (destruct Hin as [Hin | Hin]; [discriminate Hin|]); destruct Hin. }
    unfold client_events. destruct (client s); cbn; repeat split; auto;
      try discriminate.
    intros Hin. apply in_app_or in Hin as [Hin | [Hin | []]];
      [by apply Hpre in Hin | discriminate Hin].
Qed.

Lemma run_client_once_witness :
  ~ In EvCreateClient
      (evs (run demo_agent demo_world demo_question (Some "demo") (Some 3%positive)
              (mkState (heap demo_state) true))).
Proof.
  refine (proj1 (proj1 (proj2 (run_client_once demo_agent demo_world demo_question
                                 (Some "demo") (Some 3%positive)
                                 (mkState (heap demo_state) true) _ _))
                   eq_refl)).
  - apply (demo_well_formed demo_world demo_question (Some 3%positive)).
    + by intros i [= <-].
    + by intros sel l [= <-] [= <-].
  - discriminate.
Defined.

(** ** The registry and the keyword matcher *)

Lemma od_set_keys {V : Type} (k : string) (v : V) (d : list (string * V)) :
  od_keys (od_set k v d)
  = if existsb (String.eqb k) (od_keys d) then od_keys d else od_keys d ++ [k].
Proof.
  induction d as [|[k' v'] d IH]; [done|]. cbn [od_set od_keys List.map fst existsb].
  destruct (String.eqb k k') eqn:E; cbn [orb].
  - apply String.eqb_eq in E as ->. reflexivity.
  - cbn [List.map fst]. fold (od_keys (od_set k v d)). rewrite IH.
    fold (od_keys d). by destruct (existsb (String.eqb k) (od_keys d)).
Qed.

Lemma od_set_in {V : Type} (k : string) (v : V) (d : list (string * V))
    (k' : string) (v' : V) :
  In (k', v') (od_set k v d) -> (k' = k /\ v' = v) \/ In (k', v') d.
Proof.
  induction d as [|[k0 v0] d IH]; cbn [od_set].
  - intros [[= <- <-] | []]. by left.
  - destruct (String.eqb k k0).
    + intros [[= <- <-] | H]; [by left | right; by right].
    + intros [H | H]; [right; by left|].
      destruct (IH H) as [H' | H']; [by left | right; by right].
Qed.

Lemma existsb_eqb_in (k : string) (l : list string) :
  existsb (String.eqb k) l = true <-> In k l.
Proof.
  rewrite existsb_exists. split.
  - intros (x & Hx & E). by apply String.eqb_eq in E as ->.
  - intros H. exists k. by rewrite String.eqb_refl.
Qed.

(** The registry built from a list of configurations: its keys are
    distinct, and every entry holds a configuration of the list under the
    name of that configuration. *)
Lemma fold_registry_keys (l : list ToolConfig) (d : list (string * ToolConfig)) :
  List.NoDup (od_keys d) ->
  (forall k c, In (k, c) d -> k = name c) ->
  let r := fold_left (fun d c => od_set (name c) c d) l d in
  List.NoDup (od_keys r)
  /\ (forall k c, In (k, c) r -> k = name c /\ (In c l \/ In (k, c) d)).
Proof.
  revert d. induction l as [|x l IH]; intros d Hnd Hkey; cbn [fold_left].
  { split; [done|]. intros k c H. split; [by apply Hkey | by right]. }
  destruct (IH (od_set (name x) x d)) as (Hnd' & Hin').
  - rewrite od_set_keys.
    destruct (existsb (String.eqb (name x)) (od_keys d)) eqn:E; [done|].
    apply List.NoDup_app; [done | repeat constructor; by intros [] |].
    intros k Hk [<- | []]. apply existsb_eqb_in in Hk. congruence.
  - intros k c H. apply od_set_in in H as [(-> & ->) | H]; [done | by apply Hkey].
  - split; [exact Hnd'|]. intros k c H.
    destruct (Hin' k c H) as (Hk & [Hc | Hc]); split; auto.
    + left. by right.
    + apply od_set_in in Hc as [(_ & ->) | Hc]; [left; by left | by right].
Qed.

Lemma od_get_in {V : Type} (k : string) (v : V) (d : list (string * V)) :
  List.NoDup (od_keys d) -> In (k, v) d -> od_get k d = Some v.
Proof.
  induction d as [|[k' v'] d IH]; [done|]. cbn [od_keys List.map fst od_get].
  intros Hnd [[= -> ->] | H]; [by rewrite String.eqb_refl|].
  apply List.NoDup_cons_iff in Hnd as [Hk Hnd].
  destruct (String.eqb k k') eqn:E; [|by apply IH].
  apply String.eqb_eq in E as ->. exfalso. apply Hk.
  change (In (fst (k', v)) (List.map fst d)). by apply in_map.
Qed.

(** X7. The registry of a constructed agent.  The names of [list_tools] are
    pairwise distinct; every entry is filed under the name of its
    configuration, which belongs to the effective list; and with a
    non-empty allow-list every name of the registry is an allowed one. *)
Theorem init_registry_keys (tool_configs : option (list ToolConfig))
    (ident : string) (allowed : option (list string)) (use_llm : bool) (s : state)
    (self : GraphAnalyticsAgent) :
  res (__init__ tool_configs ident allowed use_llm s) = Ok self ->
  List.NoDup (List.map name (list_tools self))
  /\ list_tools self <> []
  /\ (forall k c, In (k, c) (_tool_configs self) ->
                  k = name c /\ od_get k (_tool_configs self) = Some c
                  /\ In c (supplied_or_default tool_configs s))
  /\ (forall c, In c (list_tools self) ->
                default [] allowed <> [] -> In (name c) (default [] allowed)).
Proof.
  intros Hinit. rewrite init_res in Hinit.
  set (eff := effective_configs tool_configs allowed s) in *.
  destruct (fold_registry_keys eff [] (List.NoDup_nil _) ltac:(by intros k c []))
    as (Hnd & Hin).
  fold (registry_of eff) in Hnd, Hin.
  assert (self = mkAgent ident (list_to_set (default [] allowed)) use_llm
                   (registry_of eff) /\ registry_of eff <> []) as (-> & Hne).
  { destruct (registry_of eff); [discriminate Hinit|]. by injection Hinit as <-. }
  unfold list_tools. cbn [_tool_configs].
  assert (forall c, In c eff ->
            In c (supplied_or_default tool_configs s)
            /\ (default [] allowed <> [] -> In (name c) (default [] allowed)))
    as Heff.
  { intros c. unfold eff, effective_configs. case_bool_decide as Hempty.
    - intros Hc. split; [done|]. intros Hnil. exfalso.
      destruct (default [] allowed) as [|a l]; [contradiction|].
      assert (a ∈ (list_to_set (a :: l) : gset string)) as Ha.
      { apply elem_of_list_to_set. by left. }
      rewrite Hempty in Ha. by apply not_elem_of_empty in Ha.
    - intros Hc. apply filter_In in Hc as [Hc Hn]. split; [done|]. intros _.
      apply bool_decide_eq_true in Hn. apply elem_of_list_to_set in Hn.
      by apply list_elem_of_In. }
  assert (List.map name (od_values (registry_of eff)) = od_keys (registry_of eff))
    as Hnames.
  { unfold od_values, od_keys. rewrite List.map_map. apply map_ext_in.
    intros [k c] Hkc. cbn [snd fst]. symmetry. exact (proj1 (Hin k c Hkc)). }
  split; [by rewrite Hnames|]. split; [|split].
  - intros Hnil. unfold od_values in Hnil. by apply map_eq_nil in Hnil.
  - intros k c Hkc. destruct (Hin k c Hkc) as (Hk & [Hc | []]).
    split; [done|]. split; [by apply od_get_in|]. by apply Heff.
  - intros c Hc Hallowed. unfold od_values in Hc. apply in_map_iff in Hc as ([k c'] & <- & Hkc).
    cbn [snd]. destruct (Hin k c' Hkc) as (_ & [Hc | []]). by apply Heff.
Qed.

Lemma init_registry_keys_witness :
  exists agent,
    res (__init__ (Some [rank_v1; rank_v2]) "name" None true initial_state) = Ok agent
    /\ List.NoDup (List.map name (list_tools agent)).
Proof.
  eexists. split; [reflexivity|].
  apply (init_registry_keys (Some [rank_v1; rank_v2]) "name" None true initial_state).
  reflexivity.
Defined.

Lemma init_registry_entries (tool_configs : option (list ToolConfig))
    (ident : string) (allowed : option (list string)) (use_llm : bool) (s : state)
    (self : GraphAnalyticsAgent) :
  res (__init__ tool_configs ident allowed use_llm s) = Ok self ->
  List.NoDup (od_keys (_tool_configs self))
  /\ (forall k c, In (k, c) (_tool_configs self) -> k = name c).
Proof.
  intros Hinit. rewrite init_res in Hinit.
  set (eff := effective_configs tool_configs allowed s) in *.
  destruct (fold_registry_keys eff [] (List.NoDup_nil _) ltac:(by intros k c []))
    as (Hnd & Hin).
  fold (registry_of eff) in Hnd, Hin.
  assert (self = mkAgent ident (list_to_set (default [] allowed)) use_llm
                   (registry_of eff)) as ->.
  { destruct (registry_of eff); [discriminate Hinit|]. by injection Hinit as <-. }
  cbn [_tool_configs]. split; [exact Hnd|]. intros k c H. exact (proj1 (Hin k c H)).
Qed.

Lemma config_loop_some (normalized : string) (configs : list ToolConfig) (t : string) :
  config_loop normalized configs = Some t ->
  exists cfg, In cfg configs /\ name cfg = t
              /\ keyword_loop normalized (keywords cfg) = true.
Proof.
  induction configs as [|c cs IH]; [discriminate|]. cbn [config_loop].
  destruct (keyword_loop normalized (keywords c)) eqn:E.
  - intros [= <-]. exists c. split; [by left | done].
  - intros H. destruct (IH H) as (cfg & Hin & Hn & Hk). exists cfg.
    split; [by right | done].
Qed.

(** X8. The keyword matcher of a constructed agent only answers names of its
    registry, so that in keyword mode [run] never stops on an unsupported
    tool. *)
Theorem infer_tool_registered (tool_configs : option (list ToolConfig))
    (ident : string) (allowed : option (list string)) (use_llm : bool) (s : state)
    (self : GraphAnalyticsAgent) (question t : string) :
  res (__init__ tool_configs ident allowed use_llm s) = Ok self ->
  _infer_tool self question = Some t ->
  exists cfg,
    od_get t (_tool_configs self) = Some cfg
    /\ name cfg = t
    /\ config_matches question cfg = true.
Proof.
  intros Hinit Hinfer. unfold _infer_tool in Hinfer.
  apply config_loop_some in Hinfer as (cfg & Hin & Hn & Hk).
  rewrite keyword_loop_existsb in Hk. exists cfg.
  unfold od_values in Hin. apply in_map_iff in Hin as ([k c] & Hc & Hkc).
  cbn [snd] in Hc. subst c.
  destruct (init_registry_entries _ _ _ _ _ _ Hinit) as (Hnd & Hkey).
  rewrite <- Hn, <- (Hkey k cfg Hkc). split; [by apply od_get_in | done].
Qed.

Lemma infer_tool_registered_witness :
  exists cfg,
    od_get "leiden" (_tool_configs builtin_self) = Some cfg /\ name cfg = "leiden"
    /\ config_matches "Which areas form a community?" cfg = true.
Proof.
  apply (infer_tool_registered None "name" None false initial_state builtin_self
           "Which areas form a community?" "leiden").
  - reflexivity.
  - vm_compute. reflexivity.
Defined.

Lemma lower_char_idem (c : ascii) : lower_char (lower_char c) = lower_char c.
Proof. destruct c as [[][][][][][][][]]; reflexivity. Qed.

Lemma lower_idem (s : string) : lower (lower s) = lower s.
Proof.
  induction s as [|c s IH]; [done|]. cbn [lower]. by rewrite lower_char_idem, IH.
Qed.

(** X9. Keyword matching ignores the case of the letters, in the question and
    in the keywords: lower-casing the question changes no answer, and
    lower-casing the keywords of a configuration does not change whether
    it matches. *)
Theorem infer_tool_ignores_case (self : GraphAnalyticsAgent) (question : string) :
  _infer_tool self (lower question) = _infer_tool self question
  /\ (forall kws,
         keyword_loop (lower question) (List.map lower kws)
         = keyword_loop (lower question) kws).
Proof.
  split.
  - unfold _infer_tool. by rewrite lower_idem.
  - intros kws. rewrite !keyword_loop_existsb.
    induction kws as [|kw kws IH]; [done|].
    cbn [List.map existsb]. rewrite IH. unfold keyword_in_question.
    by rewrite lower_idem.
Qed.

(** X10. An empty keyword matches every question: when some configuration has
    one, the matcher always answers a tool, and it answers that
    configuration when it is the first of the registry. *)
Theorem infer_tool_empty_keyword (self : GraphAnalyticsAgent) (cfg : ToolConfig)
    (question : string) :
  In "" (keywords cfg) ->
  (In cfg (list_tools self) -> exists t, _infer_tool self question = Some t)
  /\ (forall rest, list_tools self = cfg :: rest ->
                   _infer_tool self question = Some (name cfg)).
Proof.
  intros Hkw.
  assert (config_matches question cfg = true) as Hm.
  { unfold config_matches. apply existsb_exists. exists "". split; [done|].
    unfold keyword_in_question. cbn [lower]. by destruct (lower question). }
  unfold _infer_tool, list_tools. rewrite config_loop_find. split.
  - intros Hin.
    destruct (List.find (config_matches question) (od_values (_tool_configs self)))
      as [c|] eqn:F; cbn [option_map]; [eauto|].
    by rewrite (find_none _ _ F cfg Hin) in Hm.
  - intros rest ->. cbn [List.find]. by rewrite Hm.
Qed.

Lemma infer_tool_empty_keyword_witness :
  _infer_tool (mkAgent "name" ∅ false
                 [("any", mkToolConfig "any" "Matches everything." [""] 1%positive None)])
    "What is the weather?" = Some "any".
Proof.
  refine (proj2 (infer_tool_empty_keyword
                   (mkAgent "name" ∅ false
                      [("any", mkToolConfig "any" "Matches everything." [""]
                                 1%positive None)])
                   (mkToolConfig "any" "Matches everything." [""] 1%positive None)
                   "What is the weather?" _) [] eq_refl).
  left. reflexivity.
Defined.

(** ** The built-in summarizers *)



Lemma val_get_dict (row : pyval) (k : string) (dflt : pyval) :
  is_dict row = true -> exists v, Summarizers.val_get row k dflt = Ok v.
Proof. destruct row; try discriminate. intros _. cbn. eauto. Qed.









(** ** The reply of the selector model *)

Lemma split_on_nonempty (c : ascii) (s : string) : split_on c s <> [].
Proof.
  destruct s as [|x s]; cbn [split_on]; [done|].
  destruct (Ascii.eqb x c); [done|]. by destruct (split_on c s).
Qed.

Lemma split_on_no_sep (c : ascii) (s : string) :
  mem_char c s = false -> split_on c s = [s].
Proof.
  induction s as [|x s IH]; [done|]. cbn [mem_char split_on].
  intros H. apply orb_false_iff in H as [Hx Hs].
  rewrite Ascii.eqb_sym, Hx, (IH Hs). reflexivity.
Qed.

Lemma split_on_app (c : ascii) (a b : string) :
  split_on c (a +:+ String c b) = split_on c a ++ split_on c b.
Proof.
  induction a as [|x a IH].
  - change ("" +:+ String c b) with (String c b). cbn [split_on].
    by rewrite Ascii.eqb_refl.
  - rewrite str_app_cons. cbn [split_on]. rewrite IH.
    destruct (Ascii.eqb x c); [done|].
    pose proof (split_on_nonempty c a) as Hne.
    by destruct (split_on c a).
Qed.

Lemma join_split_on (c : ascii) (s : string) :
  join (String c "") (split_on c s) = s.
Proof.
  induction s as [|x s IH]; [done|]. cbn [split_on].
  pose proof (split_on_nonempty c s) as Hne.
  destruct (Ascii.eqb x c) eqn:E.
  - apply Ascii.eqb_eq in E as ->.
    destruct (split_on c s) as [|w ws]; [done|].
    change (join (String c "") ("" :: w :: ws))
      with ("" +:+ String c "" +:+ join (String c "") (w :: ws)).
    rewrite IH. reflexivity.
  - destruct (split_on c s) as [|w ws]; [done|].
    destruct ws as [|w' ws].
    + cbn [join] in *. by rewrite IH.
    + change (join (String c "") (String x w :: w' :: ws))
        with (String x w +:+ String c "" +:+ join (String c "") (w' :: ws)).
      change (join (String c "") (w :: w' :: ws))
        with (w +:+ String c "" +:+ join (String c "") (w' :: ws)) in IH.
      by rewrite str_app_cons, IH.
Qed.

Lemma lstrip_pad (p : ascii -> bool) (pad s : string) :
  all_chars p pad = true -> lstrip p (pad +:+ s) = lstrip p s.
Proof.
  induction pad as [|x pad IH]; [done|]. cbn [all_chars]. intros H.
  apply andb_true_iff in H as [Hx Hpad]. rewrite str_app_cons. cbn [lstrip].
  rewrite Hx. by apply IH.
Qed.

Lemma rstrip_all (p : ascii -> bool) (pad : string) :
  all_chars p pad = true -> rstrip p pad = "".
Proof.
  induction pad as [|x pad IH]; [done|]. cbn [all_chars rstrip]. intros H.
  apply andb_true_iff in H as [Hx Hpad]. by rewrite (IH Hpad), Hx.
Qed.

Lemma rstrip_pad (p : ascii -> bool) (s pad : string) :
  all_chars p pad = true -> rstrip p (s +:+ pad) = rstrip p s.
Proof.
  intros Hpad. induction s as [|x s IH].
  - change ("" +:+ pad) with pad. by rewrite rstrip_all.
  - rewrite str_app_cons. cbn [rstrip]. by rewrite IH.
Qed.

Lemma rstrip_keeps (p : ascii -> bool) (s : string) (c : ascii) :
  p c = false -> rstrip p (s +:+ String c "") = s +:+ String c "".
Proof.
  intros Hc. induction s as [|x s IH].
  - change ("" +:+ String c "") with (String c ""). cbn [rstrip]. by rewrite Hc.
  - rewrite str_app_cons. cbn [rstrip]. rewrite IH.
    destruct s; reflexivity.
Qed.

Lemma rstrip_empty_iff (p : ascii -> bool) (s : string) :
  rstrip p s = "" <-> all_chars p s = true.
Proof.
  split; [|apply rstrip_all].
  induction s as [|x s IH]; [done|]. cbn [rstrip all_chars].
  destruct (rstrip p s); [|discriminate].
  destruct (p x); [|discriminate]. intros _. by rewrite IH.
Qed.

Lemma lstrip_all_chars (p : ascii -> bool) (s : string) :
  all_chars p (lstrip p s) = all_chars p s.
Proof.
  induction s as [|x s IH]; [done|]. cbn [lstrip all_chars].
  destruct (p x) eqn:E; [done|]. cbn [all_chars]. by rewrite E.
Qed.

Lemma fence_lines (lang body closing : string) :
  mem_char nl lang = false -> mem_char nl closing = false ->
  split_on nl (("```" +:+ lang) +:+ String nl (body +:+ String nl closing))
  = ("```" +:+ lang) :: split_on nl body ++ [closing].
Proof.
  intros Hlang Hclosing. rewrite !split_on_app.
  rewrite (split_on_no_sep nl ("```" +:+ lang)), (split_on_no_sep nl closing);
    [reflexivity | done | exact Hlang].
Qed.

(** The code fence round trip: a reply made of an opening fence line, a
    body and a closing line is unwrapped to exactly its body, whatever the
    body holds. *)
Theorem strip_code_fence_round_trip (lang body closing : string) :
  mem_char nl lang = false ->
  mem_char nl closing = false ->
  strip_code_fence (("```" +:+ lang) +:+ String nl (body +:+ String nl closing))
  = body.
Proof.
  intros Hlang Hclosing. unfold strip_code_fence.
  rewrite fence_lines by done.
  change (startswith "```" (("```" +:+ lang) +:+ String nl (body +:+ String nl closing)))
    with true. cbn match.
  pose proof (split_on_nonempty nl body) as Hne.
  set (mid := split_on nl body) in *.
  assert (length (("```" +:+ lang) :: mid ++ [closing]) = S (S (length mid))) as Hlen.
  { cbn [length]. rewrite length_app. cbn [length]. lia. }
  rewrite Hlen.
  assert ((2 <? S (S (length mid)))%nat = true) as ->.
  { apply Nat.ltb_lt. destruct mid; [done|]. cbn [length]. lia. }
  replace (S (S (length mid)) - 1)%nat with (S (length mid)) by lia.
  cbn [take]. rewrite take_app_length. cbn [drop].
  apply join_split_on.
Qed.

Lemma strip_code_fence_round_trip_witness :
  strip_code_fence "```json
{}
```" = "{}".
Proof.
  apply (strip_code_fence_round_trip "json" "{}" "```"); reflexivity.
Defined.

(** X12. A reply padded with blanks and wrapped in a code fence yields its
    body as the text to decode. *)
Theorem reply_payload_fenced (pad1 pad2 lang body : string) :
  all_chars is_space pad1 = true ->
  all_chars is_space pad2 = true ->
  mem_char nl lang = false ->
  reply_payload
    (pad1 +:+ ((("```" +:+ lang) +:+ String nl (body +:+ String nl "``")) +:+ "`")
          +:+ pad2)
  = Some body.
Proof.
  intros Hp1 Hp2 Hlang.
  set (core := ("```" +:+ lang) +:+ String nl (body +:+ String nl "``")).
  assert (strip (pad1 +:+ (core +:+ "`") +:+ pad2) = core +:+ "`") as Hstrip.
  { unfold strip. rewrite lstrip_pad by done.
    assert (lstrip is_space ((core +:+ "`") +:+ pad2) = (core +:+ "`") +:+ pad2) as ->.
    { unfold core. rewrite !str_app_cons. reflexivity. }
    rewrite rstrip_pad by done. by apply rstrip_keeps. }
  unfold reply_payload. rewrite Hstrip.
  assert (is_empty (pad1 +:+ (core +:+ "`") +:+ pad2) = false) as ->.
  { destruct (pad1 +:+ (core +:+ "`") +:+ pad2) eqn:E; [|done].
    unfold strip in Hstrip. cbn in Hstrip.
    unfold core in Hstrip. rewrite !str_app_cons in Hstrip. discriminate Hstrip. }
  assert (is_empty (core +:+ "`") = false) as ->.
  { unfold core. rewrite !str_app_cons. reflexivity. }
  cbn [orb]. f_equal.
  assert (core +:+ "`" = ("```" +:+ lang) +:+ String nl (body +:+ String nl "```")) as ->.
  { unfold core. rewrite !str_app_assoc. rewrite !str_app_cons.
    rewrite !str_app_assoc. reflexivity. }
  by apply strip_code_fence_round_trip.
Qed.

Lemma reply_payload_fenced_witness :
  reply_payload " ```json
{}
```
" = Some "{}".
Proof.
  apply (reply_payload_fenced " " (String nl "") "json" "{}"); reflexivity.
Defined.

(** X13. What the unwrapping leaves alone, and when the selector gives up
    before decoding: a reply that does not open with a fence is only
    stripped; a fenced reply of at most two lines is kept with its fence;
    and no text is decoded exactly when the reply is blank. *)
Theorem reply_payload_cases (completion : string) :
  (reply_payload completion = None <-> all_chars is_space completion = true)
  /\ (startswith "```" completion = false ->
      strip_code_fence completion = completion)
  /\ (forall first last,
         mem_char nl first = false -> mem_char nl last = false ->
         completion = first +:+ String nl last ->
         strip_code_fence completion = completion).
Proof.
  split; [|split].
  - unfold reply_payload, strip.
    destruct completion as [|x s] eqn:E; [done|]. rewrite <- E. 
    assert (is_empty completion = false) as -> by (by rewrite E).
    cbn [orb]. rewrite <- (lstrip_all_chars is_space completion).
    rewrite <- rstrip_empty_iff.
    destruct (rstrip is_space (lstrip is_space completion)); cbn [is_empty];
      split; intros; done.
  - unfold strip_code_fence. by intros ->.
  - intros first last Hfirst Hlast ->. unfold strip_code_fence.
    destruct (startswith "```" (first +:+ String nl last)); [|done].
    rewrite split_on_app, !split_on_no_sep by done. reflexivity.
Qed.

(** ** From the decoded reply to the selection *)

Lemma selection_of_dict (self : GraphAnalyticsAgent) (d : pyitem) :
  selection_of_reply self (PDict d)
  = match named_tool d with
    | PNone => Done None
    | PStr t =>
        match od_get t (_tool_configs self) with
        | Some _ =>
            Done (Some (mkReply (PStr t)
                          (match Render.py_or
                                   (Render.py_or (default PNone (od_get "inputs" d))
                                                 (default PNone (od_get "arguments" d)))
                                   (PDict []) with
                           | PDict i => i
                           | _ => []
                           end)
                          (default PNone (od_get "reason" d))))
        | None => Done None
        end
    | PList _ | PDict _ => Fails TypeError
    | _ => Done None
    end.
Proof.
  unfold selection_of_reply, named_tool, Render.py_or. cbn [reply_get abind].
  destruct (Render.truthy (default PNone (od_get "tool" d))) eqn:Et; cbn [abind].
  - destruct (default PNone (od_get "tool" d)) as [| | | |t| |] eqn:E;
      try reflexivity.
    cbn [in_keys abind]. destruct (od_get t (_tool_configs self)); cbn [negb];
      [|reflexivity].
    destruct (Render.truthy (default PNone (od_get "inputs" d))); reflexivity.
  - destruct (default PNone (od_get "tool_name" d)) as [| | | |t| |] eqn:E;
      try reflexivity.
    cbn [in_keys abind]. destruct (od_get t (_tool_configs self)); cbn [negb];
      [|reflexivity].
    destruct (Render.truthy (default PNone (od_get "inputs" d))); reflexivity.
Qed.

(** X14. A selection always names a registered tool.  When the code after the
    decoder hands back a selection, the reply is a dictionary, the tool
    is a string that is a key of the registry, taken from ["tool"] or,
    when that entry is missing or falsy, from ["tool_name"]; the inputs
    are [{}] unless ["inputs"] or ["arguments"] holds a dictionary. *)
Theorem selection_names_registered_tool (self : GraphAnalyticsAgent)
    (data : pyval) (r : Reply) :
  selection_of_reply self data = Done (Some r) ->
  exists (d : pyitem) (t : string) (cfg : ToolConfig),
    data = PDict d
    /\ reply_tool r = PStr t
    /\ od_get t (_tool_configs self) = Some cfg
    /\ named_tool d = PStr t
    /\ reply_reason r = default PNone (od_get "reason" d)
    /\ (reply_inputs r = []
        \/ od_get "inputs" d = Some (PDict (reply_inputs r))
        \/ od_get "arguments" d = Some (PDict (reply_inputs r))).
Proof.
  destruct data as [| | | | | |d]; try discriminate.
  rewrite selection_of_dict.
  destruct (named_tool d) as [| | | |t| |] eqn:En; try discriminate.
  destruct (od_get t (_tool_configs self)) as [cfg|] eqn:Ec; [|discriminate].
  intros [= <-]. exists d, t, cfg. cbn [reply_tool reply_reason reply_inputs].
  repeat split; try done.
  set (given := default PNone (od_get "inputs" d)).
  set (args := default PNone (od_get "arguments" d)).
  assert (forall v i, Render.truthy v = true ->
            match Render.py_or v (PDict []) with PDict i' => i' | _ => [] end = i ->
            v = PDict i \/ i = []) as Hdict.
  { intros v i Hv. unfold Render.py_or. rewrite Hv. destruct v; intros <-; auto. }
  assert (forall o i, default PNone o = PDict i -> o = Some (PDict i)) as Hsome.
  { intros [v|] i; cbn; congruence. }
  destruct (Render.truthy given) eqn:Eg.
  - assert (Render.py_or given args = given) as ->
      by (unfold Render.py_or; by rewrite Eg).
    destruct (Hdict given _ Eg eq_refl) as [Hg | Hnil]; [|by left].
    right. left. apply Hsome. exact Hg.
  - assert (Render.py_or given args = args) as ->
      by (unfold Render.py_or; by rewrite Eg).
    destruct (Render.truthy args) eqn:Ea.
    + destruct (Hdict args _ Ea eq_refl) as [Hg | Hnil]; [|by left].
      right. right. apply Hsome. exact Hg.
    + left. unfold Render.py_or. by rewrite Ea.
Qed.

Lemma selection_names_registered_tool_witness :
  exists (d : pyitem) (t : string) (cfg : ToolConfig),
    PDict [("tool", PNone); ("tool_name", PStr "rank")] = PDict d
    /\ reply_tool (mkReply (PStr "rank") [] PNone) = PStr t
    /\ od_get t (_tool_configs (mkAgent "name" ∅ true [("rank", rank_v1)])) = Some cfg
    /\ named_tool d = PStr t
    /\ reply_reason (mkReply (PStr "rank") [] PNone) = default PNone (od_get "reason" d)
    /\ (reply_inputs (mkReply (PStr "rank") [] PNone) = []
        \/ od_get "inputs" d = Some (PDict (reply_inputs (mkReply (PStr "rank") [] PNone)))
        \/ od_get "arguments" d
           = Some (PDict (reply_inputs (mkReply (PStr "rank") [] PNone)))).
Proof.
  apply (selection_names_registered_tool
           (mkAgent "name" ∅ true [("rank", rank_v1)])
           (PDict [("tool", PNone); ("tool_name", PStr "rank")])
           (mkReply (PStr "rank") [] PNone)).
  reflexivity.
Defined.

(** X15. When the code after the decoder raises.  It raises exactly when the
    decoded reply is not a dictionary, or names its tool by a list or a
    dictionary; a reply whose tool is a string, a number, a boolean or
    null never does. *)
Theorem selection_raises_iff (self : GraphAnalyticsAgent) (data : pyval) :
  (exists e, selection_of_reply self data = Fails e)
  <-> is_dict data = false
      \/ exists d, data = PDict d /\ unhashable (named_tool d) = true.
Proof.
  destruct data as [| | | | | |d];
    try (split; [intros _; by left | intros _; eexists; reflexivity]).
  rewrite selection_of_dict. split.
  - intros (e & He). right. exists d. split; [done|].
    destruct (named_tool d) as [| | | |t| |]; try discriminate He; try reflexivity.
    by destruct (od_get t (_tool_configs self)).
  - intros [Hd | (d' & [= <-] & Hu)]; [discriminate Hd|].
    destruct (named_tool d); try discriminate Hu; eauto.
Qed.

(** ** The metadata of the tools *)

Lemma metadata_step_lookup (self : GraphAnalyticsAgent)
    (metadata metadata' : list (string * pyitem)) (tool : pyitem) :
  metadata_step self metadata tool = Done metadata' ->
  forall k, od_get k metadata'
            = if is_kept self k && has_name k tool then Some tool
              else od_get k metadata.
Proof.
  unfold metadata_step, has_name, is_kept.
  destruct (od_get "name" tool) as [name|]; cbn [default from_option id];
    [|intros [= <-] k; by rewrite andb_false_r].
  destruct name as [|b|n|r|s|l|d];
    try (destruct (Render.truthy _); cbn [negb];
         [| intros [= <-] k; by rewrite andb_false_r];
         destruct (bool_decide (_allowed_tool_names self = ∅));
         cbn [in_names in_keys abind negb]; try discriminate;
         intros [= <-] k; by rewrite andb_false_r).
  cbn [Render.truthy in_names in_keys abind]. rewrite negb_involutive.
  intros H k.
  destruct (String.eqb s k) eqn:Esk.
  - apply String.eqb_eq in Esk as <-. rewrite andb_true_r.
    destruct (is_empty s); cbn [negb andb]; [by injection H as <-|].
    destruct (bool_decide (_allowed_tool_names self = ∅)); cbn [abind orb] in *.
    + destruct (od_get s (_tool_configs self)); injection H as <-; [|done].
      by rewrite od_get_od_set, String.eqb_refl.
    + destruct (bool_decide (s ∈ _allowed_tool_names self)); cbn [negb abind] in *;
        [|by injection H as <-].
      destruct (od_get s (_tool_configs self)); injection H as <-; [|done].
      by rewrite od_get_od_set, String.eqb_refl.
  - rewrite andb_false_r.
    assert (forall m, od_get k (od_set s tool m) = od_get k m) as Hset.
    { intros m. rewrite od_get_od_set, String.eqb_sym. by rewrite Esk. }
    destruct (is_empty s); [by injection H as <-|].
    destruct (bool_decide (_allowed_tool_names self = ∅)); cbn [abind] in H.
    + destruct (od_get s (_tool_configs self)); injection H as <-; [|done].
      apply Hset.
    + destruct (bool_decide (s ∈ _allowed_tool_names self)); cbn [negb abind] in H;
        [|by injection H as <-].
      destruct (od_get s (_tool_configs self)); injection H as <-; [|done].
      apply Hset.
Qed.

Lemma metadata_step_keys (self : GraphAnalyticsAgent)
    (metadata metadata' : list (string * pyitem)) (tool : pyitem) :
  metadata_step self metadata tool = Done metadata' ->
  List.NoDup (od_keys metadata) -> List.NoDup (od_keys metadata').
Proof.
  unfold metadata_step. intros H Hnd.
  assert (forall k, List.NoDup (od_keys (od_set k tool metadata))) as Hset.
  { intros k. rewrite od_set_keys.
    destruct (existsb (String.eqb k) (od_keys metadata)) eqn:E; [done|].
    apply List.NoDup_app; [done | repeat constructor; by intros [] |].
    intros k' Hk' [<- | []]. apply existsb_eqb_in in Hk'. congruence. }
  destruct (negb (Render.truthy (default PNone (od_get "name" tool))));
    [by injection H as <-|].
  destruct (bool_decide (_allowed_tool_names self = ∅)); cbn [abind] in H.
  - destruct (in_keys _ _) as [[]|]; cbn [abind] in H; try discriminate H;
      injection H as <-; [|done].
    by destruct (default PNone (od_get "name" tool)).
  - destruct (in_names _ _) as [[]|]; cbn [abind negb] in H; try discriminate H;
      [|by injection H as <-].
    destruct (in_keys _ _) as [[]|]; cbn [abind] in H; try discriminate H;
      injection H as <-; [|done].
    by destruct (default PNone (od_get "name" tool)).
Qed.

Lemma metadata_loop_lookup_from (self : GraphAnalyticsAgent) (tools : list pyitem)
    (metadata0 metadata : list (string * pyitem)) :
  metadata_loop self tools metadata0 = Done metadata ->
  (List.NoDup (od_keys metadata0) -> List.NoDup (od_keys metadata))
  /\ forall k,
       od_get k metadata
       = match (if is_kept self k then List.find (has_name k) (rev tools)
                else None) with
         | Some tool => Some tool
         | None => od_get k metadata0
         end.
Proof.
  revert metadata0. induction tools as [|tool rest IH]; intros metadata0.
  - intros [= <-]. split; [done|]. intros k. by destruct (is_kept self k).
  - cbn [metadata_loop].
    destruct (metadata_step self metadata0 tool) as [metadata1|] eqn:Hstep;
      cbn [abind]; [|discriminate].
    intros Hloop. destruct (IH metadata1 Hloop) as (Hnd & Hget). split.
    + intros H0. apply Hnd. by apply (metadata_step_keys _ _ _ _ Hstep).
    + intros k. rewrite (Hget k), (metadata_step_lookup _ _ _ _ Hstep k).
      change (rev (tool :: rest)) with (rev rest ++ [tool]).
      rewrite find_app_first. cbn [List.find].
      destruct (is_kept self k); cbn [andb]; [|done].
      destruct (List.find (has_name k) (rev rest)); [done|].
      by destruct (has_name k tool).
Qed.

(** X16. What the loop over the listed tools collects.  The entry under a
    name is the last listed tool of that name, provided the name is not
    empty, is allowed and is a key of the registry; no other name gets an
    entry, and no name gets two. *)
Theorem metadata_loop_collects (self : GraphAnalyticsAgent) (tools : list pyitem)
    (metadata : list (string * pyitem)) :
  metadata_loop self tools [] = Done metadata ->
  List.NoDup (od_keys metadata)
  /\ forall k, od_get k metadata
               = if is_kept self k then List.find (has_name k) (rev tools)
                 else None.
Proof.
  intros H. destruct (metadata_loop_lookup_from _ _ _ _ H) as (Hnd & Hget).
  split; [apply Hnd; constructor|]. intros k. rewrite (Hget k).
  destruct (is_kept self k); [|done].
  by destruct (List.find (has_name k) (rev tools)).
Qed.

Lemma metadata_loop_collects_witness :
  od_get "rank" [("rank", [("name", PStr "rank"); ("version", PInt 2)])]
  = Some [("name", PStr "rank"); ("version", PInt 2)].
Proof.
  refine (eq_trans
            (proj2 (metadata_loop_collects
                      (mkAgent "name" ∅ true [("rank", rank_v1)])
                      [[("name", PStr "rank"); ("version", PInt 1)];
                       [("name", PStr "other")];
                       [("name", PStr "rank"); ("version", PInt 2)]]
                      [("rank", [("name", PStr "rank"); ("version", PInt 2)])]
                      _) "rank") _); reflexivity.
Defined.

(** X17. The cache of [_get_tool_metadata].  A call keeps the invariant of the
    cache, always answers the metadata the cache holds afterwards, and
    leaves the cache alone when it raises.  Once a call has answered a
    metadata that is not empty, every later call answers the same without
    looking at the listed tools. *)
Theorem get_tool_metadata_cached (self : GraphAnalyticsAgent) (cache : MetadataCache)
    (listed : attempt (list pyitem)) :
  cache_ok cache ->
  let answer := fst (_get_tool_metadata self cache listed) in
  let cache' := snd (_get_tool_metadata self cache listed) in
  cache_ok cache'
  /\ (forall e, answer = Fails e -> cache' = cache)
  /\ (forall metadata, answer = Done metadata ->
        metadata = _tool_metadata cache'
        /\ (metadata <> [] ->
            forall listed', _get_tool_metadata self cache' listed'
                            = (Done metadata, cache'))).
Proof.
  intros Hok. unfold _get_tool_metadata.
  destruct (_tool_metadata_loaded cache) eqn:El; cbn [andb].
  - case_bool_decide as Hnil; cbn [negb].
    + destruct (abind listed _) as [[|entry md]|e]; cbn [fst snd].
      * split; [done|]. split; [done|]. intros metadata [= <-]. split; [done|].
        by rewrite Hnil.
      * split; [by intros ?|]. split; [done|]. intros metadata [= <-].
        split; [done|]. intros _ listed'. reflexivity.
      * split; [done|]. split; [done|]. discriminate.
    + cbn [fst snd]. split; [done|]. split; [done|]. intros metadata [= <-].
      split; [done|]. intros _ listed'. rewrite El. cbn [andb].
      by rewrite bool_decide_eq_false_2.
  - destruct (abind listed _) as [[|entry md]|e]; cbn [fst snd].
    + split; [done|]. split; [done|]. intros metadata [= <-]. split; [done|].
      intros Hne. by rewrite (Hok El) in Hne.
    + split; [by intros ?|]. split; [done|]. intros metadata [= <-].
      split; [done|]. intros _ listed'. reflexivity.
    + split; [done|]. split; [done|]. discriminate.
Qed.

Lemma get_tool_metadata_cached_witness :
  _get_tool_metadata (mkAgent "name" ∅ true [("rank", rank_v1)])
    (snd (_get_tool_metadata (mkAgent "name" ∅ true [("rank", rank_v1)]) empty_cache
            (Done [[("name", PStr "rank")]])))
    (Fails TypeError)
  = (Done [("rank", [("name", PStr "rank")])],
     snd (_get_tool_metadata (mkAgent "name" ∅ true [("rank", rank_v1)]) empty_cache
            (Done [[("name", PStr "rank")]]))).
Proof.
  refine (proj2 (proj2 (proj2 (get_tool_metadata_cached
                                 (mkAgent "name" ∅ true [("rank", rank_v1)])
                                 empty_cache (Done [[("name", PStr "rank")]]) _))
                   [("rank", [("name", PStr "rank")])] _) _ (Fails TypeError)).
  - intros _. reflexivity.
  - reflexivity.
  - discriminate.
Defined.

(** ** The digest of a schema in the documented layout *)

Lemma join_cons2 (sep x y : string) (r : list string) :
  join sep (x :: y :: r) = x +:+ sep +:+ join sep (y :: r).
Proof. reflexivity. Qed.

Lemma split_on_join (c : ascii) (lines : list string) :
  Forall (fun l => mem_char c l = false) lines -> lines <> [] ->
  split_on c (join (String c "") lines) = lines.
Proof.
  induction lines as [|x [|y r] IH]; [done| |]; intros Hall _.
  - cbn [join]. apply split_on_no_sep. by inversion Hall.
  - rewrite join_cons2. change (String c "" +:+ join (String c "") (y :: r))
      with (String c (join (String c "") (y :: r))).
    inversion Hall as [|? ? Hx Hrest]; subst.
    rewrite split_on_app, (split_on_no_sep c x Hx), (IH Hrest); done.
Qed.

Lemma rstrip_cons_keep (p : ascii -> bool) (c : ascii) (s : string) :
  p c = false -> rstrip p (String c s) = String c (rstrip p s).
Proof. intros Hc. cbn [rstrip]. rewrite Hc. by destruct (rstrip p s). Qed.

Lemma label_line_eq (entry : string * string) :
  label_line entry = String ":" (String "`" (fst entry +:+ String "`" (snd entry))).
Proof. reflexivity. Qed.

Lemma label_line_strip (entry : string * string) :
  startswith ":`" (strip (label_line entry)) = true.
Proof.
  rewrite label_line_eq. unfold strip.
  change (lstrip is_space (String ":" ?s)) with (String ":" s).
  rewrite !rstrip_cons_keep by reflexivity. reflexivity.
Qed.

Lemma label_line_field (entry : string * string) :
  mem_char "`" (fst entry) = false ->
  backtick_field (label_line entry) = Some (fst entry).
Proof.
  intros Hl. rewrite label_line_eq. unfold backtick_field.
  change (contains "`" (String ":" (String "`" ?s))) with true. cbn match.
  change (split_on "`" (String ":" (String "`" ?s)))
    with (match "" :: split_on "`" s with
          | [] => [String ":" ""]
          | w :: ws => String ":" w :: ws
          end).
  cbn match. rewrite split_on_app, (split_on_no_sep _ _ Hl). reflexivity.
Qed.

Lemma is_label_entry_spec (entry : string * string) :
  is_label_entry entry = true ->
  is_empty (fst entry) = false
  /\ mem_char "`" (fst entry) = false
  /\ mem_char nl (label_line entry) = false
  /\ contains "Node properties:" (label_line entry) = false
  /\ contains "Relationship properties:" (label_line entry) = false
  /\ contains "The relationships:" (label_line entry) = false.
Proof.
  unfold is_label_entry, has_header. intros H.
  repeat (apply andb_true_iff in H as [H ?]).
  repeat match goal with
         | H : negb _ = true |- _ => apply negb_true_iff in H
         | H : _ || _ = false |- _ => apply orb_false_iff in H as [? ?]
         end.
  done.
Qed.

Lemma is_relationship_line_spec (line : string) :
  is_relationship_line line = true ->
  contains ")-[:" line = true
  /\ mem_char nl line = false
  /\ contains "Node properties:" line = false
  /\ contains "Relationship properties:" line = false
  /\ contains "The relationships:" line = false.
Proof.
  unfold is_relationship_line, has_header. intros H.
  repeat (apply andb_true_iff in H as [H ?]).
  repeat match goal with
         | H : negb _ = true |- _ => apply negb_true_iff in H
         | H : _ || _ = false |- _ => apply orb_false_iff in H as [? ?]
         end.
  done.
Qed.

Lemma scan_node_section (entries : list (string * string)) (v : scan) :
  forallb is_label_entry entries = true ->
  in_node_props v = true ->
  fold_left scan_line (List.map label_line entries) v
  = mkScan (in_node_props v) (in_rel_props v) (in_rels v)
      (node_labels v ++ List.map fst entries) (rel_types v) (relationships v).
Proof.
  revert v. induction entries as [|e es IH]; intros v Hall Hn.
  - cbn. rewrite List.app_nil_r. by destruct v.
  - cbn [forallb] in Hall. apply andb_true_iff in Hall as [He Hes].
    destruct (is_label_entry_spec e He) as (Hne & Hb & _ & H1 & H2 & H3).
    cbn [List.map fold_left].
    assert (scan_line v (label_line e)
            = mkScan (in_node_props v) (in_rel_props v) (in_rels v)
                (node_labels v ++ [fst e]) (rel_types v) (relationships v)) as ->.
    { unfold scan_line. rewrite H1, H2, H3, Hn, label_line_strip.
      cbn [andb]. by rewrite (label_line_field e Hb), Hne. }
    rewrite IH; [|exact Hes|exact Hn]. cbn [in_node_props in_rel_props in_rels node_labels
                                 rel_types relationships].
    by rewrite <- List.app_assoc.
Qed.

Lemma scan_rel_props_section (entries : list (string * string)) (v : scan) :
  forallb is_label_entry entries = true ->
  in_node_props v = false -> in_rel_props v = true ->
  fold_left scan_line (List.map label_line entries) v
  = mkScan (in_node_props v) (in_rel_props v) (in_rels v)
      (node_labels v) (rel_types v ++ List.map fst entries) (relationships v).
Proof.
  revert v. induction entries as [|e es IH]; intros v Hall Hn Hr.
  - cbn. rewrite List.app_nil_r. by destruct v.
  - cbn [forallb] in Hall. apply andb_true_iff in Hall as [He Hes].
    destruct (is_label_entry_spec e He) as (Hne & Hb & _ & H1 & H2 & H3).
    cbn [List.map fold_left].
    assert (scan_line v (label_line e)
            = mkScan (in_node_props v) (in_rel_props v) (in_rels v)
                (node_labels v) (rel_types v ++ [fst e]) (relationships v)) as ->.
    { unfold scan_line. rewrite H1, H2, H3, Hn, Hr, label_line_strip.
      cbn [andb]. by rewrite (label_line_field e Hb), Hne. }
    rewrite IH; [|exact Hes|exact Hn|exact Hr]. cbn [in_node_props in_rel_props in_rels node_labels
                                    rel_types relationships].
    by rewrite <- List.app_assoc.
Qed.

Lemma scan_relationships_section (rels : list string) (v : scan) :
  forallb is_relationship_line rels = true ->
  in_node_props v = false -> in_rel_props v = false -> in_rels v = true ->
  fold_left scan_line rels v
  = mkScan (in_node_props v) (in_rel_props v) (in_rels v)
      (node_labels v) (rel_types v) (relationships v ++ List.map strip rels).
Proof.
  revert v. induction rels as [|line rest IH]; intros v Hall Hn Hr Hs.
  - cbn. rewrite List.app_nil_r. by destruct v.
  - cbn [forallb] in Hall. apply andb_true_iff in Hall as [Hl Hrest].
    destruct (is_relationship_line_spec line Hl) as (Hc & _ & H1 & H2 & H3).
    cbn [List.map fold_left].
    assert (scan_line v line
            = mkScan (in_node_props v) (in_rel_props v) (in_rels v)
                (node_labels v) (rel_types v) (relationships v ++ [strip line])) as ->.
    { unfold scan_line. by rewrite H1, H2, H3, Hn, Hr, Hs, Hc. }
    rewrite IH; [|exact Hrest|exact Hn|exact Hr|exact Hs]. cbn [in_node_props in_rel_props in_rels node_labels
                                         rel_types relationships].
    by rewrite <- List.app_assoc.
Qed.

Lemma schema_lines_scan (nodes rel_props : list (string * string))
    (rels : list string) :
  forallb is_label_entry nodes = true ->
  forallb is_label_entry rel_props = true ->
  forallb is_relationship_line rels = true ->
  fold_left scan_line (schema_lines nodes rel_props rels) scan0
  = mkScan false false true (List.map fst nodes) (List.map fst rel_props)
      (List.map strip rels).
Proof.
  intros Hn Hr Hs. unfold schema_lines.
  rewrite !fold_left_app.
  change (fold_left scan_line ["Node properties:"] scan0)
    with (mkScan true false false [] [] []).
  rewrite (scan_node_section nodes); [|exact Hn|reflexivity].
  cbn [in_node_props in_rel_props in_rels node_labels rel_types relationships app].
  change (fold_left scan_line ["Relationship properties:"]
            (mkScan true false false (List.map fst nodes) [] []))
    with (mkScan false true false (List.map fst nodes) [] []).
  rewrite (scan_rel_props_section rel_props); [|exact Hr|reflexivity|reflexivity].
  cbn [in_node_props in_rel_props in_rels node_labels rel_types relationships app].
  change (fold_left scan_line ["The relationships:"]
            (mkScan false true false (List.map fst nodes) (List.map fst rel_props) []))
    with (mkScan false false true (List.map fst nodes) (List.map fst rel_props) []).
  rewrite (scan_relationships_section rels); [reflexivity|exact Hs|reflexivity..].
Qed.

Lemma schema_lines_one_line (nodes rel_props : list (string * string))
    (rels : list string) :
  forallb is_label_entry nodes = true ->
  forallb is_label_entry rel_props = true ->
  forallb is_relationship_line rels = true ->
  Forall (fun l => mem_char nl l = false) (schema_lines nodes rel_props rels).
Proof.
  intros Hn Hr Hs. unfold schema_lines.
  assert (forall es, forallb is_label_entry es = true ->
            Forall (fun l => mem_char nl l = false) (List.map label_line es)) as Hes.
  { intros es Hall. apply List.Forall_forall. intros l Hl.
    apply in_map_iff in Hl as (e & <- & He).
    rewrite forallb_forall in Hall.
    exact (proj1 (proj2 (proj2 (is_label_entry_spec e (Hall e He))))). }
  repeat (apply List.Forall_app; split); auto.
  apply List.Forall_forall. intros l Hl. rewrite forallb_forall in Hs.
  exact (proj1 (proj2 (is_relationship_line_spec l (Hs l Hl)))).
Qed.

(** X18. The digest of a schema text in the documented layout.  The loop
    collects the labels of the node section, the types of the
    relationship section and the stripped lines of the relationships,
    each in the order of the text, and the digest is made of these three
    lists. *)
Theorem summarize_schema_layout (nodes rel_props : list (string * string))
    (rels : list string) :
  forallb is_label_entry nodes = true ->
  forallb is_label_entry rel_props = true ->
  forallb is_relationship_line rels = true ->
  let v := mkScan false false true (List.map fst nodes) (List.map fst rel_props)
             (List.map strip rels) in
  fold_left scan_line (split_on nl (schema_text nodes rel_props rels)) scan0 = v
  /\ _summarize_schema_for_tool_selection (schema_text nodes rel_props rels)
     = match summary_parts v with
       | [] => SUMMARY_NOT_AVAILABLE
       | parts => join (String nl "") parts
       end.
Proof.
  intros Hn Hr Hs v.
  assert (split_on nl (schema_text nodes rel_props rels)
          = schema_lines nodes rel_props rels) as Hsplit.
  { unfold schema_text. apply split_on_join.
    - by apply schema_lines_one_line.
    - by unfold schema_lines. }
  assert (fold_left scan_line (split_on nl (schema_text nodes rel_props rels)) scan0 = v)
    as Hscan by (rewrite Hsplit; by apply schema_lines_scan).
  split; [exact Hscan|].
  unfold _summarize_schema_for_tool_selection.
  assert (is_empty (schema_text nodes rel_props rels)
          || String.eqb (schema_text nodes rel_props rels) SCHEMA_NOT_AVAILABLE = false)
    as ->.
  { unfold schema_text, schema_lines. cbn [app].
    destruct (List.map label_line nodes ++ _) as [|y r] eqn:E.
    { by destruct (List.map label_line nodes). }
    rewrite join_cons2. reflexivity. }
  cbv zeta. by rewrite Hscan.
Qed.

Lemma summarize_schema_layout_witness :
  _summarize_schema_for_tool_selection
    (schema_text [("Person", " {name: STRING}"); ("City", " {}")]
       [("LIVES_IN", " {since: INTEGER}")]
       ["(:Person)-[:LIVES_IN]->(:City)  "])
  = "Node labels: City, Person
Relationship types: LIVES_IN
Key relationships:
(:Person)-[:LIVES_IN]->(:City)".
Proof.
  refine (eq_trans
            (proj2 (summarize_schema_layout
                      [("Person", " {name: STRING}"); ("City", " {}")]
                      [("LIVES_IN", " {since: INTEGER}")]
                      ["(:Person)-[:LIVES_IN]->(:City)  "] _ _ _)) _);
    reflexivity.
Defined.

(** ** The shape of the geographic terms *)

Lemma rstrip_idem (p : ascii -> bool) (s : string) :
  rstrip p (rstrip p s) = rstrip p s.
Proof.
  induction s as [|c s IH]; [done|]. cbn [rstrip].
  destruct (rstrip p s) as [|c' s'] eqn:E.
  - destruct (p c) eqn:Ec; [done|]. cbn [rstrip]. by rewrite Ec.
  - cbn [rstrip] in *. rewrite IH. reflexivity.
Qed.

Lemma all_chars_app (p : ascii -> bool) (a b : string) :
  all_chars p (a +:+ b) = all_chars p a && all_chars p b.
Proof.
  induction a as [|c a IH]; [done|]. rewrite str_app_cons. cbn [all_chars].
  by rewrite IH, andb_assoc.
Qed.

Lemma all_chars_rstrip (p q : ascii -> bool) (s : string) :
  all_chars q s = true -> all_chars q (rstrip p s) = true.
Proof.
  intros H. destruct (rstrip_prefix p s) as (post & Hs).
  rewrite Hs, all_chars_app in H. by apply andb_true_iff in H as [H _].
Qed.

Lemma upper_not_blank (c : ascii) : is_upper c = true -> is_blank c = false.
Proof.
  intros H. destruct c as [[] [] [] [] [] [] [] []]; try reflexivity; discriminate H.
Qed.

(** X19. Every geographic term is a capital letter followed by letters,
    digits, underscores, hyphens and spaces; it does not end with a space,
    and it stands in the question right after [in ]. *)
Theorem geo_terms_shape (question term : string) :
  In term (_extract_geo_filters question) ->
  (exists c rest, term = String c rest
                  /\ is_upper c = true /\ all_chars is_geo_char rest = true)
  /\ rstrip is_blank term = term
  /\ substr ("in " +:+ term) question.
Proof.
  intros Hin. unfold _extract_geo_filters in Hin.
  apply in_map_iff in Hin as (g & <- & Hg).
  apply findall_go_sound in Hg as (pre & rest & -> & Hm).
  apply geo_match_spec in Hm as (post & -> & Hgrp & _).
  rewrite (strip_geo_group g Hgrp).
  destruct g as [|c run]; [discriminate Hgrp|]. cbn [is_geo_group] in Hgrp.
  apply andb_true_iff in Hgrp as [Hgrp Hrun].
  apply andb_true_iff in Hgrp as [Hc _].
  pose proof (upper_not_blank c Hc) as Hb.
  rewrite (rstrip_cons_keep is_blank c run Hb). split; [|split].
  - exists c, (rstrip is_blank run). split; [done|]. split; [done|].
    by apply all_chars_rstrip.
  - by rewrite (rstrip_cons_keep is_blank c _ Hb), rstrip_idem.
  - destruct (rstrip_prefix is_blank run) as (blanks & Hrun').
    exists pre, (blanks +:+ post).
    rewrite Hrun' at 1. rewrite !str_app_assoc, !str_app_cons, !str_app_assoc.
    reflexivity.
Qed.

Lemma geo_terms_shape_witness :
  rstrip is_blank "Springfield and in Lakeview" = "Springfield and in Lakeview".
Proof.
  refine (proj1 (proj2 (geo_terms_shape
                          "Show rankings in Springfield and in Lakeview"
                          "Springfield and in Lakeview" _))).
  left. reflexivity.
Defined.
